(** * Garage Management System backend (server.js): model and properties

    A shallow embedding of the Express handlers of [server.js] over an
    explicit relational store.

    - JavaScript values of request bodies are [jsval]; numbers are exact
      rationals extended with [NaN] (binary rounding of IEEE doubles and the
      infinities are outside the model).
    - The PostgreSQL database is a record of tables (lists of rows, in
      insertion order) together with the id sequences.  Statements are list
      operations; a handler that runs between BEGIN and COMMIT is a
      computation in the transaction monad [tx], and its [catch] branch is
      [rollback].
    - The Express application is the list of its routes in registration
      order; a request is served by the first route that matches.            *)

From Stdlib Require Import List ZArith QArith Qround String Bool Lia.
From Stdlib Require Import Permutation Sorted.
Import ListNotations.

Set Warnings "-register-all".

Local Open Scope string_scope.
Local Open Scope list_scope.
Local Open Scope Z_scope.

(* ================================================================== *)
(** ** JavaScript values and the coercions the handlers rely on       *)
(* ================================================================== *)

Module Js.

(** A JavaScript number: [NaN] or a finite value. *)
Inductive jsnum : Type :=
| NaN
| Num (q : Q).

Inductive jsval : Type :=
| JUndefined
| JNull
| JBool (b : bool)
| JNum (n : jsnum)
| JStr (s : string)
| JArr (items : list jsval)
| JObj (fields : list (string * jsval)).

(** Built-ins that the source calls and that are not part of the
    repository.  Of the JavaScript runtime: the string grammar of [Number],
    the prefix grammar of [parseFloat], [String] of a non-primitive value,
    and the time value of [new Date(v)] ([None] is an Invalid Date).  Of
    PostgreSQL: the input function of its integer type, which reads the
    text of an integer and refuses any other text ([None]). *)
Class Runtime : Type := {
  StringToNumber : string -> jsnum;
  parseFloat_string : string -> jsnum;
  ToString : jsval -> string;
  Date_time : jsval -> option Z;
  integer_in : string -> option Z
}.

Definition isNaN (n : jsnum) : bool :=
  match n with NaN => true | Num _ => false end.

Definition is_zero (q : Q) : bool := Qeq_bool q 0.

(** ToBoolean: what [!x], [x || y] and [if (x)] test. *)
Definition truthy (v : jsval) : bool :=
  match v with
  | JUndefined | JNull => false
  | JBool b => b
  | JNum NaN => false
  | JNum (Num q) => negb (is_zero q)
  | JStr s => negb (String.eqb s "")
  | JArr _ | JObj _ => true
  end.

(** [a || b] *)
Definition or_else (a b : jsval) : jsval := if truthy a then a else b.

(** [x == null] *)
Definition eq_null (v : jsval) : bool :=
  match v with JUndefined | JNull => true | _ => false end.

(** [obj.name]; a property that is absent, or any property of a
    non-object, reads as [undefined]. *)
Fixpoint lookup (name : string) (fields : list (string * jsval)) : jsval :=
  match fields with
  | [] => JUndefined
  | (k, v) :: rest => if String.eqb k name then v else lookup name rest
  end.

Definition field (name : string) (v : jsval) : jsval :=
  match v with
  | JObj fields => lookup name fields
  | _ => JUndefined
  end.

(** [Array.isArray(v)] together with the elements iterated by [for..of]. *)
Definition as_array (v : jsval) : option (list jsval) :=
  match v with JArr l => Some l | _ => None end.

Section WithRuntime.
Context {rt : Runtime}.

(** [Number(v)] *)
Definition Number (v : jsval) : jsnum :=
  match v with
  | JUndefined => NaN
  | JNull => Num 0
  | JBool true => Num 1
  | JBool false => Num 0
  | JNum n => n
  | JStr s => StringToNumber s
  | JArr _ | JObj _ => StringToNumber (ToString v)
  end.

(** [parseFloat(v)]: the argument is converted to a string and its
    longest numeric prefix is read; a number reads back as itself. *)
Definition parseFloat (v : jsval) : jsnum :=
  match v with
  | JNum n => n
  | JStr s => parseFloat_string s
  | JUndefined | JNull | JBool _ => NaN
  | JArr _ | JObj _ => parseFloat_string (ToString v)
  end.
End WithRuntime.

Definition add (a b : jsnum) : jsnum :=
  match a, b with
  | Num x, Num y => Num (x + y)
  | _, _ => NaN
  end.

Definition mul (a b : jsnum) : jsnum :=
  match a, b with
  | Num x, Num y => Num (x * y)
  | _, _ => NaN
  end.

(** [Math.round]: the nearest integer, halves towards plus infinity. *)
Definition Math_round (a : jsnum) : jsnum :=
  match a with
  | Num x => Num (inject_Z (Qfloor (x + (1 # 2))))
  | NaN => NaN
  end.

(** Numbers denote the same value. *)
Definition num_eq (a b : jsnum) : Prop :=
  match a, b with
  | NaN, NaN => True
  | Num x, Num y => x == y
  | _, _ => False
  end.

Definition is_integer (q : Q) : bool := Qeq_bool q (inject_Z (Qfloor q)).

End Js.
Export Js.

Infix "=n=" := num_eq (at level 70, no associativity).

(* ================================================================== *)
(** ** The relational store                                           *)
(* ================================================================== *)

Module Store.

(** Rows.  A key column holds an integer ([option Z] when nullable); a
    data column holds the JavaScript value that was bound to it, except
    for the NUMERIC columns that only ever receive numbers computed by
    the handlers, which hold that number. *)

Record part : Type := {
  p_id : Z;
  p_name : jsval;
  p_part_number : jsval;
  p_purchasing_cost : jsval;
  p_selling_cost : jsval;
  p_quantity_in_stock : jsval
}.

Record worker : Type := {
  w_id : Z;
  w_name : jsval;
  w_job_title : jsval;
  w_phone : jsval;
  w_email : jsval
}.

Record service : Type := {
  s_id : Z;
  s_name : jsval;
  s_category : jsval;
  s_worker_id : option Z
}.

Record vehicle : Type := {
  v_id : Z;
  v_plate : jsval;
  v_make : jsval;
  v_model_name : jsval;
  v_year : jsval;
  v_vin : jsval;
  v_owner : jsval;
  v_contact_number : jsval;
  v_entry_time : option Z;
  v_exit_time : option Z
}.

Record vehicle_service : Type := {
  vs_vehicle_id : Z;
  vs_service_id : option Z;
  vs_status : jsval;
  vs_completed_time : jsval
}.

Record vehicle_part : Type := {
  vp_vehicle_id : Z;
  vp_part_id : option Z;
  vp_quantity : jsval
}.

Record vehicle_service_part : Type := {
  vsp_vehicle_id : Z;
  vsp_service_id : option Z;
  vsp_part_id : option Z;
  vsp_quantity : jsval
}.

Record invoice : Type := {
  i_id : Z;
  i_vehicle_id : option Z;
  i_days_in_garage : jsval;
  i_garage_stay_rate : jsnum;
  i_subtotal : jsnum;
  i_tax : jsnum;
  i_total : jsnum
}.

Inductive item_type : Type := ItService | ItPart.

Record invoice_item : Type := {
  ii_id : Z;
  ii_invoice_id : Z;
  ii_item_type : item_type;
  ii_item_id : option Z;
  ii_description : jsval;
  ii_quantity : jsval;
  ii_purchased_cost : jsval;
  ii_unit_price : jsval;
  ii_total : jsnum
}.

Record worker_payment : Type := {
  wp_id : Z;
  wp_worker_id : Z;
  wp_amount : jsnum;
  wp_method : jsval;
  wp_notes : jsval;
  wp_payment_date : Z
}.

(** The id sequences.  [nextval] is not undone by ROLLBACK. *)
Record sequences : Type := {
  seq_parts : Z;
  seq_workers : Z;
  seq_vehicles : Z;
  seq_invoices : Z;
  seq_invoice_items : Z;
  seq_worker_payments : Z
}.

Record db : Type := {
  parts : list part;
  workers : list worker;
  services : list service;
  vehicles : list vehicle;
  vehicle_services : list vehicle_service;
  vehicle_parts : list vehicle_part;
  vehicle_service_parts : list vehicle_service_part;
  invoices : list invoice;
  invoice_items : list invoice_item;
  worker_payments : list worker_payment;
  seqs : sequences
}.

(** Field updates. *)
Definition set_parts (d : db) (t : list part) : db :=
  {| parts := t; workers := workers d; services := services d;
     vehicles := vehicles d; vehicle_services := vehicle_services d;
     vehicle_parts := vehicle_parts d;
     vehicle_service_parts := vehicle_service_parts d;
     invoices := invoices d; invoice_items := invoice_items d;
     worker_payments := worker_payments d; seqs := seqs d |}.

Definition set_workers (d : db) (t : list worker) : db :=
  {| parts := parts d; workers := t; services := services d;
     vehicles := vehicles d; vehicle_services := vehicle_services d;
     vehicle_parts := vehicle_parts d;
     vehicle_service_parts := vehicle_service_parts d;
     invoices := invoices d; invoice_items := invoice_items d;
     worker_payments := worker_payments d; seqs := seqs d |}.

Definition set_services (d : db) (t : list service) : db :=
  {| parts := parts d; workers := workers d; services := t;
     vehicles := vehicles d; vehicle_services := vehicle_services d;
     vehicle_parts := vehicle_parts d;
     vehicle_service_parts := vehicle_service_parts d;
     invoices := invoices d; invoice_items := invoice_items d;
     worker_payments := worker_payments d; seqs := seqs d |}.

Definition set_vehicles (d : db) (t : list vehicle) : db :=
  {| parts := parts d; workers := workers d; services := services d;
     vehicles := t; vehicle_services := vehicle_services d;
     vehicle_parts := vehicle_parts d;
     vehicle_service_parts := vehicle_service_parts d;
     invoices := invoices d; invoice_items := invoice_items d;
     worker_payments := worker_payments d; seqs := seqs d |}.

Definition set_vehicle_services (d : db) (t : list vehicle_service) : db :=
  {| parts := parts d; workers := workers d; services := services d;
     vehicles := vehicles d; vehicle_services := t;
     vehicle_parts := vehicle_parts d;
     vehicle_service_parts := vehicle_service_parts d;
     invoices := invoices d; invoice_items := invoice_items d;
     worker_payments := worker_payments d; seqs := seqs d |}.

Definition set_vehicle_parts (d : db) (t : list vehicle_part) : db :=
  {| parts := parts d; workers := workers d; services := services d;
     vehicles := vehicles d; vehicle_services := vehicle_services d;
     vehicle_parts := t;
     vehicle_service_parts := vehicle_service_parts d;
     invoices := invoices d; invoice_items := invoice_items d;
     worker_payments := worker_payments d; seqs := seqs d |}.

Definition set_vehicle_service_parts (d : db)
    (t : list vehicle_service_part) : db :=
  {| parts := parts d; workers := workers d; services := services d;
     vehicles := vehicles d; vehicle_services := vehicle_services d;
     vehicle_parts := vehicle_parts d;
     vehicle_service_parts := t;
     invoices := invoices d; invoice_items := invoice_items d;
     worker_payments := worker_payments d; seqs := seqs d |}.

Definition set_invoices (d : db) (t : list invoice) : db :=
  {| parts := parts d; workers := workers d; services := services d;
     vehicles := vehicles d; vehicle_services := vehicle_services d;
     vehicle_parts := vehicle_parts d;
     vehicle_service_parts := vehicle_service_parts d;
     invoices := t; invoice_items := invoice_items d;
     worker_payments := worker_payments d; seqs := seqs d |}.

Definition set_invoice_items (d : db) (t : list invoice_item) : db :=
  {| parts := parts d; workers := workers d; services := services d;
     vehicles := vehicles d; vehicle_services := vehicle_services d;
     vehicle_parts := vehicle_parts d;
     vehicle_service_parts := vehicle_service_parts d;
     invoices := invoices d; invoice_items := t;
     worker_payments := worker_payments d; seqs := seqs d |}.

Definition set_worker_payments (d : db) (t : list worker_payment) : db :=
  {| parts := parts d; workers := workers d; services := services d;
     vehicles := vehicles d; vehicle_services := vehicle_services d;
     vehicle_parts := vehicle_parts d;
     vehicle_service_parts := vehicle_service_parts d;
     invoices := invoices d; invoice_items := invoice_items d;
     worker_payments := t; seqs := seqs d |}.

Definition set_seqs (d : db) (s : sequences) : db :=
  {| parts := parts d; workers := workers d; services := services d;
     vehicles := vehicles d; vehicle_services := vehicle_services d;
     vehicle_parts := vehicle_parts d;
     vehicle_service_parts := vehicle_service_parts d;
     invoices := invoices d; invoice_items := invoice_items d;
     worker_payments := worker_payments d; seqs := s |}.

(** ROLLBACK: the tables are those of the snapshot taken at BEGIN, the
    sequences keep the values they have reached. *)
Definition rollback (snapshot current : db) : db :=
  set_seqs snapshot (seqs current).

(** Two stores hold the same rows. *)
Definition same_rows (a b : db) : Prop := set_seqs a (seqs b) = b.

Definition id_eqb (c : option Z) (id : Z) : bool :=
  match c with Some x => Z.eqb x id | None => false end.

End Store.
Export Store.

(* ================================================================== *)
(** ** A pooled client: BEGIN / COMMIT / ROLLBACK and thrown errors    *)
(* ================================================================== *)

Module Tx.

(** What a client holds: the rows as they were when the open transaction
    began, and the rows as the statements issued so far have left them. *)
Record conn : Type := {
  at_begin : db;
  current : db
}.

Definition connect (d : db) : conn := {| at_begin := d; current := d |}.

Inductive outcome (A : Type) : Type :=
| Done (a : A) (c : conn)
| Thrown (msg : string) (c : conn).
Arguments Done {A} a c.
Arguments Thrown {A} msg c.

(** An [async] block run on a client. *)
Definition tx (A : Type) : Type := conn -> outcome A.

Definition ret {A} (a : A) : tx A := fun c => Done a c.

Definition bind {A B} (m : tx A) (k : A -> tx B) : tx B :=
  fun c =>
    match m c with
    | Done a c' => k a c'
    | Thrown msg c' => Thrown msg c'
    end.

Definition throw {A} (msg : string) : tx A := fun c => Thrown msg c.

(** [await client.query(stmt)] for a statement [stmt] of the store. *)
Definition query {A} (stmt : db -> A * db) : tx A :=
  fun c =>
    let '(a, d) := stmt (current c) in
    Done a {| at_begin := at_begin c; current := d |}.

Definition BEGIN : tx unit :=
  fun c => Done tt {| at_begin := current c; current := current c |}.

Definition COMMIT : tx unit :=
  fun c => Done tt {| at_begin := current c; current := current c |}.

Definition ROLLBACK : tx unit :=
  fun c =>
    let d := rollback (at_begin c) (current c) in
    Done tt {| at_begin := d; current := d |}.

(** [for (const x of xs) { await body(x) }] *)
Fixpoint for_of {A} (xs : list A) (body : A -> tx unit) : tx unit :=
  match xs with
  | [] => ret tt
  | x :: rest => bind (body x) (fun _ => for_of rest body)
  end.

(** The same loop when the body updates a local [let] variable. *)
Fixpoint for_of_acc {A S} (xs : list A) (body : S -> A -> tx S) (s : S)
  : tx S :=
  match xs with
  | [] => ret s
  | x :: rest => bind (body s x) (fun s' => for_of_acc rest body s')
  end.

(** The effect of the statement ROLLBACK on a client. *)
Definition rolled_back (c : conn) : conn :=
  let d := rollback (at_begin c) (current c) in
  {| at_begin := d; current := d |}.

(** [try { body } catch (err) { handler }] on a client taken from the
    pool for a store [d]; the result is the response and the store the
    client leaves behind when it is released. *)
Definition try_catch {R} (body : tx R) (handler : conn -> R * conn)
    (d : db) : R * db :=
  match body (connect d) with
  | Done r c => (r, current c)
  | Thrown _ c => let '(r, c') := handler c in (r, current c')
  end.

End Tx.
Export Tx.

Declare Scope tx_scope.
Delimit Scope tx_scope with tx.
Notation "x <- m ;; k" := (bind m (fun x => k))
  (at level 61, m at next level, right associativity) : tx_scope.
Notation "m ;;; k" := (bind m (fun _ => k))
  (at level 61, right associativity) : tx_scope.

(* ================================================================== *)
(** ** SQL statements issued by the handlers                           *)
(* ================================================================== *)

Module Sql.

Definition bump_parts (s : sequences) : sequences :=
  {| seq_parts := seq_parts s + 1; seq_workers := seq_workers s;
     seq_vehicles := seq_vehicles s; seq_invoices := seq_invoices s;
     seq_invoice_items := seq_invoice_items s;
     seq_worker_payments := seq_worker_payments s |}.

Definition bump_workers (s : sequences) : sequences :=
  {| seq_parts := seq_parts s; seq_workers := seq_workers s + 1;
     seq_vehicles := seq_vehicles s; seq_invoices := seq_invoices s;
     seq_invoice_items := seq_invoice_items s;
     seq_worker_payments := seq_worker_payments s |}.

Definition bump_vehicles (s : sequences) : sequences :=
  {| seq_parts := seq_parts s; seq_workers := seq_workers s;
     seq_vehicles := seq_vehicles s + 1; seq_invoices := seq_invoices s;
     seq_invoice_items := seq_invoice_items s;
     seq_worker_payments := seq_worker_payments s |}.

Definition bump_invoices (s : sequences) : sequences :=
  {| seq_parts := seq_parts s; seq_workers := seq_workers s;
     seq_vehicles := seq_vehicles s; seq_invoices := seq_invoices s + 1;
     seq_invoice_items := seq_invoice_items s;
     seq_worker_payments := seq_worker_payments s |}.

Definition bump_invoice_items (s : sequences) : sequences :=
  {| seq_parts := seq_parts s; seq_workers := seq_workers s;
     seq_vehicles := seq_vehicles s; seq_invoices := seq_invoices s;
     seq_invoice_items := seq_invoice_items s + 1;
     seq_worker_payments := seq_worker_payments s |}.

Definition bump_worker_payments (s : sequences) : sequences :=
  {| seq_parts := seq_parts s; seq_workers := seq_workers s;
     seq_vehicles := seq_vehicles s; seq_invoices := seq_invoices s;
     seq_invoice_items := seq_invoice_items s;
     seq_worker_payments := seq_worker_payments s + 1 |}.

(** *** parts *)

(** INSERT INTO parts (...) VALUES ($1..$5) RETURNING * *)
Definition insert_part (name part_number purchasing_cost selling_cost
                        quantity_in_stock : jsval) (d : db) : part * db :=
  let row := {| p_id := seq_parts (seqs d); p_name := name;
                p_part_number := part_number;
                p_purchasing_cost := purchasing_cost;
                p_selling_cost := selling_cost;
                p_quantity_in_stock := quantity_in_stock |} in
  (row, set_seqs (set_parts d (parts d ++ [row])) (bump_parts (seqs d))).

Definition part_set (name part_number purchasing_cost selling_cost
                     quantity_in_stock : jsval) (id : Z) (p : part) : part :=
  if p_id p =? id then
    {| p_id := p_id p; p_name := name; p_part_number := part_number;
       p_purchasing_cost := purchasing_cost;
       p_selling_cost := selling_cost;
       p_quantity_in_stock := quantity_in_stock |}
  else p.

(** UPDATE parts SET ... WHERE id = $6 RETURNING * *)
Definition update_part (name part_number purchasing_cost selling_cost
                        quantity_in_stock : jsval) (id : Z) (d : db)
  : list part * db :=
  let t := map (part_set name part_number purchasing_cost selling_cost
                         quantity_in_stock id) (parts d) in
  (filter (fun p => p_id p =? id) t, set_parts d t).

(** DELETE FROM parts WHERE id = $1 RETURNING id; the result is rowCount *)
Definition delete_part (id : Z) (d : db) : nat * db :=
  (List.length (filter (fun p => p_id p =? id) (parts d)),
   set_parts d (filter (fun p => negb (p_id p =? id)) (parts d))).

(** SELECT purchasing_cost, selling_cost FROM parts WHERE id = $1 *)
Definition select_part_costs (id : option Z) (d : db) : list part * db :=
  (filter (fun p => id_eqb id (p_id p)) (parts d), d).

(** *** workers *)

(** INSERT INTO workers (...) VALUES ($1..$4) RETURNING * *)
Definition insert_worker (name job_title phone email : jsval) (d : db)
  : worker * db :=
  let row := {| w_id := seq_workers (seqs d); w_name := name;
                w_job_title := job_title; w_phone := phone;
                w_email := email |} in
  (row, set_seqs (set_workers d (workers d ++ [row]))
                 (bump_workers (seqs d))).

(** DELETE FROM workers WHERE id = $1 RETURNING id *)
Definition delete_worker_row (id : Z) (d : db) : nat * db :=
  (List.length (filter (fun w => w_id w =? id) (workers d)),
   set_workers d (filter (fun w => negb (w_id w =? id)) (workers d))).

(** *** services *)

Definition service_set_worker (w : option Z) (s : service) : service :=
  {| s_id := s_id s; s_name := s_name s; s_category := s_category s;
     s_worker_id := w |}.

(** UPDATE services SET worker_id = NULL WHERE worker_id = $1 *)
Definition unassign_worker (id : Z) (d : db) : unit * db :=
  (tt, set_services d
         (map (fun s => if id_eqb (s_worker_id s) id
                        then service_set_worker None s else s)
              (services d))).

(** UPDATE services SET worker_id = $1 WHERE id = $2 RETURNING * *)
Definition assign_worker_row (worker_id : option Z) (id : Z) (d : db)
  : list service * db :=
  let t := map (fun s => if s_id s =? id
                         then service_set_worker worker_id s else s)
               (services d) in
  (filter (fun s => s_id s =? id) t, set_services d t).

(** *** worker_payments *)

(** DELETE FROM worker_payments WHERE worker_id = $1 *)
Definition delete_worker_payments (id : Z) (d : db) : unit * db :=
  (tt, set_worker_payments d
         (filter (fun p => negb (wp_worker_id p =? id))
                 (worker_payments d))).

(** INSERT INTO worker_payments (...) VALUES ($1, $2, $3, $4,
    COALESCE($5, NOW())) RETURNING ...; [now] is the clock of the store *)
Definition insert_worker_payment (worker_id : Z) (amount : jsnum)
    (method notes : jsval) (when : option Z) (now : Z) (d : db)
  : worker_payment * db :=
  let row := {| wp_id := seq_worker_payments (seqs d);
                wp_worker_id := worker_id; wp_amount := amount;
                wp_method := method; wp_notes := notes;
                wp_payment_date :=
                  match when with Some t => t | None => now end |} in
  (row, set_seqs (set_worker_payments d (worker_payments d ++ [row]))
                 (bump_worker_payments (seqs d))).

(** *** vehicles and their join tables *)

(** INSERT INTO vehicles (..., entry_time) VALUES ($1..$7,
    CURRENT_TIMESTAMP) RETURNING * *)
Definition insert_vehicle (plate make model_name year vin owner
                           contact_number : jsval) (now : Z) (d : db)
  : vehicle * db :=
  let row := {| v_id := seq_vehicles (seqs d); v_plate := plate;
                v_make := make; v_model_name := model_name;
                v_year := year; v_vin := vin; v_owner := owner;
                v_contact_number := contact_number;
                v_entry_time := Some now; v_exit_time := None |} in
  (row, set_seqs (set_vehicles d (vehicles d ++ [row]))
                 (bump_vehicles (seqs d))).

Definition vehicle_set (plate make model_name year vin owner
                        contact_number : jsval) (id : Z) (v : vehicle)
  : vehicle :=
  if v_id v =? id then
    {| v_id := v_id v; v_plate := plate; v_make := make;
       v_model_name := model_name; v_year := year; v_vin := vin;
       v_owner := owner; v_contact_number := contact_number;
       v_entry_time := v_entry_time v; v_exit_time := v_exit_time v |}
  else v.

(** UPDATE vehicles SET plate = $1, ... WHERE id = $8 RETURNING * *)
Definition update_vehicle_row (plate make model_name year vin owner
                               contact_number : jsval) (id : Z) (d : db)
  : list vehicle * db :=
  let t := map (vehicle_set plate make model_name year vin owner
                            contact_number id) (vehicles d) in
  (filter (fun v => v_id v =? id) t, set_vehicles d t).

Definition vehicle_set_exit (t : Z) (id : Z) (v : vehicle) : vehicle :=
  if v_id v =? id then
    {| v_id := v_id v; v_plate := v_plate v; v_make := v_make v;
       v_model_name := v_model_name v; v_year := v_year v;
       v_vin := v_vin v; v_owner := v_owner v;
       v_contact_number := v_contact_number v;
       v_entry_time := v_entry_time v; v_exit_time := Some t |}
  else v.

(** UPDATE vehicles SET exit_time = NOW() WHERE id = $1 *)
Definition set_exit_time (id : Z) (now : Z) (d : db) : unit * db :=
  (tt, set_vehicles d (map (vehicle_set_exit now id) (vehicles d))).

(** DELETE FROM vehicles WHERE id = $1 RETURNING id *)
Definition delete_vehicle_row (id : Z) (d : db) : nat * db :=
  (List.length (filter (fun v => v_id v =? id) (vehicles d)),
   set_vehicles d (filter (fun v => negb (v_id v =? id)) (vehicles d))).

(** INSERT INTO vehicle_services (vehicle_id, service_id, status)
    VALUES ($1, $2, 'pending') *)
Definition insert_vehicle_service (vehicle_id : Z) (service_id : option Z)
    (d : db) : unit * db :=
  (tt, set_vehicle_services d
         (vehicle_services d ++
          [{| vs_vehicle_id := vehicle_id; vs_service_id := service_id;
              vs_status := JStr "pending";
              vs_completed_time := JNull |}])).

(** INSERT INTO vehicle_parts (vehicle_id, part_id, quantity)
    VALUES ($1, $2, $3) *)
Definition insert_vehicle_part (vehicle_id : Z) (part_id : option Z)
    (quantity : jsval) (d : db) : unit * db :=
  (tt, set_vehicle_parts d
         (vehicle_parts d ++
          [{| vp_vehicle_id := vehicle_id; vp_part_id := part_id;
              vp_quantity := quantity |}])).

(** INSERT INTO vehicle_service_parts (vehicle_id, service_id, part_id,
    quantity) VALUES ($1, $2, $3, $4) *)
Definition insert_vehicle_service_part (vehicle_id : Z)
    (service_id part_id : option Z) (quantity : jsval) (d : db)
  : unit * db :=
  (tt, set_vehicle_service_parts d
         (vehicle_service_parts d ++
          [{| vsp_vehicle_id := vehicle_id; vsp_service_id := service_id;
              vsp_part_id := part_id; vsp_quantity := quantity |}])).

(** DELETE FROM vehicle_parts WHERE vehicle_id = $1 *)
Definition delete_vehicle_parts (id : Z) (d : db) : unit * db :=
  (tt, set_vehicle_parts d
         (filter (fun r => negb (vp_vehicle_id r =? id))
                 (vehicle_parts d))).

(** DELETE FROM vehicle_service_parts WHERE vehicle_id = $1 *)
Definition delete_vehicle_service_parts (id : Z) (d : db) : unit * db :=
  (tt, set_vehicle_service_parts d
         (filter (fun r => negb (vsp_vehicle_id r =? id))
                 (vehicle_service_parts d))).

(** A non-null text value differs from 'completed'
    ([status != 'completed'] is unknown, hence not selected, on NULL). *)
Definition not_completed (status : jsval) : bool :=
  match status with
  | JUndefined | JNull => false
  | JStr s => negb (String.eqb s "completed")
  | _ => true
  end.

(** SELECT COUNT( * ) FROM vehicle_services
    WHERE vehicle_id = $1 AND status != 'completed' *)
Definition count_open_services (id : Z) (d : db) : Z :=
  Z.of_nat (List.length (filter (fun r => (vs_vehicle_id r =? id)
                                     && not_completed (vs_status r))
                           (vehicle_services d))).

(** SELECT COUNT( * ) FROM invoices WHERE vehicle_id = $1 *)
Definition count_invoices (id : Z) (d : db) : Z :=
  Z.of_nat (List.length (filter (fun i => id_eqb (i_vehicle_id i) id)
                           (invoices d))).

Definition vehicle_service_set (status completed_time : jsval)
    (vehicle_id service_id : Z) (r : vehicle_service) : vehicle_service :=
  if (vs_vehicle_id r =? vehicle_id) && id_eqb (vs_service_id r) service_id
  then {| vs_vehicle_id := vs_vehicle_id r;
          vs_service_id := vs_service_id r;
          vs_status := status; vs_completed_time := completed_time |}
  else r.

(** UPDATE vehicle_services SET status = $1, completed_time = $2
    WHERE vehicle_id = $3 AND service_id = $4; the result is rowCount *)
Definition update_vehicle_service (status completed_time : jsval)
    (vehicle_id service_id : Z) (d : db) : nat * db :=
  (List.length (filter (fun r => (vs_vehicle_id r =? vehicle_id)
                            && id_eqb (vs_service_id r) service_id)
                  (vehicle_services d)),
   set_vehicle_services d
     (map (vehicle_service_set status completed_time vehicle_id service_id)
          (vehicle_services d))).

(** *** invoices and invoice_items *)

(** INSERT INTO invoices (vehicle_id, days_in_garage, garage_stay_rate,
    subtotal, tax, total) VALUES ($1, $2, 5000, 0, 0, 0) RETURNING id *)
Definition insert_invoice (vehicle_id : option Z) (days_in_garage : jsval)
    (d : db) : Z * db :=
  let row := {| i_id := seq_invoices (seqs d);
                i_vehicle_id := vehicle_id;
                i_days_in_garage := days_in_garage;
                i_garage_stay_rate := Num 5000;
                i_subtotal := Num 0; i_tax := Num 0; i_total := Num 0 |} in
  (i_id row, set_seqs (set_invoices d (invoices d ++ [row]))
                      (bump_invoices (seqs d))).

(** INSERT INTO invoice_items (invoice_id, item_type, item_id,
    description, quantity, purchased_cost, unit_price, total)
    VALUES (...) *)
Definition insert_invoice_item (invoice_id : Z) (kind : item_type)
    (item_id : option Z)
    (description quantity purchased_cost unit_price : jsval)
    (total : jsnum) (d : db) : unit * db :=
  let row := {| ii_id := seq_invoice_items (seqs d);
                ii_invoice_id := invoice_id; ii_item_type := kind;
                ii_item_id := item_id; ii_description := description;
                ii_quantity := quantity;
                ii_purchased_cost := purchased_cost;
                ii_unit_price := unit_price; ii_total := total |} in
  (tt, set_seqs (set_invoice_items d (invoice_items d ++ [row]))
                (bump_invoice_items (seqs d))).

Definition invoice_set_totals (subtotal tax total : jsnum) (id : Z)
    (i : invoice) : invoice :=
  if i_id i =? id then
    {| i_id := i_id i; i_vehicle_id := i_vehicle_id i;
       i_days_in_garage := i_days_in_garage i;
       i_garage_stay_rate := i_garage_stay_rate i;
       i_subtotal := subtotal; i_tax := tax; i_total := total |}
  else i.

(** UPDATE invoices SET subtotal = $1, tax = $2, total = $3 WHERE id = $4 *)
Definition update_invoice_totals (subtotal tax total : jsnum) (id : Z)
    (d : db) : unit * db :=
  (tt, set_invoices d
         (map (invoice_set_totals subtotal tax total id) (invoices d))).

(** SELECT i.*, v.* FROM invoices i LEFT JOIN vehicles v
    ON v.id = i.vehicle_id WHERE i.id = $1 LIMIT 1 *)
Definition select_invoice_with_vehicle (id : Z) (d : db)
  : list (invoice * option vehicle) :=
  firstn 1
    (flat_map
       (fun i =>
          match filter (fun v => id_eqb (i_vehicle_id i) (v_id v))
                       (vehicles d) with
          | [] => [(i, None)]
          | vs => map (fun v => (i, Some v)) vs
          end)
       (filter (fun i => i_id i =? id) (invoices d))).

Fixpoint insert_by_id (x : invoice_item) (l : list invoice_item)
  : list invoice_item :=
  match l with
  | [] => [x]
  | y :: rest =>
      if ii_id x <? ii_id y then x :: l else y :: insert_by_id x rest
  end.

(** ORDER BY id ASC *)
Definition order_by_id (l : list invoice_item) : list invoice_item :=
  fold_right insert_by_id [] l.

(** SELECT ... FROM invoice_items WHERE invoice_id = $1 ORDER BY id ASC *)
Definition select_invoice_items (id : Z) (d : db) : list invoice_item :=
  order_by_id (filter (fun it => ii_invoice_id it =? id) (invoice_items d)).

(** DELETE FROM invoice_items
    WHERE invoice_id IN (SELECT id FROM invoices WHERE vehicle_id = $1) *)
Definition delete_invoice_items_of_vehicle (id : Z) (d : db) : unit * db :=
  let ids := map i_id (filter (fun i => id_eqb (i_vehicle_id i) id)
                              (invoices d)) in
  (tt, set_invoice_items d
         (filter (fun it => negb (existsb (Z.eqb (ii_invoice_id it)) ids))
                 (invoice_items d))).

(** DELETE FROM invoices WHERE vehicle_id = $1 *)
Definition delete_invoices_of_vehicle (id : Z) (d : db) : unit * db :=
  (tt, set_invoices d
         (filter (fun i => negb (id_eqb (i_vehicle_id i) id))
                 (invoices d))).

(** DELETE FROM invoice_items WHERE invoice_id = $1 *)
Definition delete_invoice_items (id : Z) (d : db) : unit * db :=
  (tt, set_invoice_items d
         (filter (fun it => negb (ii_invoice_id it =? id))
                 (invoice_items d))).

(** DELETE FROM invoices WHERE id = $1 RETURNING id *)
Definition delete_invoice_row (id : Z) (d : db) : nat * db :=
  (List.length (filter (fun i => i_id i =? id) (invoices d)),
   set_invoices d (filter (fun i => negb (i_id i =? id)) (invoices d))).

End Sql.
Export Sql.

(* ================================================================== *)
(** ** The Express handlers                                            *)
(* ================================================================== *)

Module Server.

(** What the invoice PDF prints. *)
Record invoice_pdf : Type := {
  pdf_invoice_id : Z;
  pdf_vehicle : option vehicle;
  pdf_days_in_garage : jsval;
  pdf_garage_stay_rate : jsnum;
  pdf_items : list invoice_item;
  pdf_garage_stay : jsnum;
  pdf_subtotal : jsnum;
  pdf_tax : jsnum;
  pdf_total : jsnum
}.

Inductive content : Type :=
| Error (msg : string)                  (* { error: msg } *)
| Message (msg : string)                (* { message: msg } *)
| Empty                                 (* .send() *)
| PartRow (p : part)
| WorkerRow (w : worker)
| ServiceRow (s : service)
| VehicleRow (v : vehicle)
| PaymentRow (p : worker_payment)
| InvoiceCreated (invoice_id : Z)       (* { message, invoice_id } *)
| InvoicePdf (doc : invoice_pdf)
| NoRoute.                              (* no route matched *)

Record response : Type := {
  status : Z;
  sent : content
}.

Definition json_error (code : Z) (msg : string) : response :=
  {| status := code; sent := Error msg |}.

(** The [catch] block of the transactional handlers:
    [await client.query('ROLLBACK'); res.status(500).json({error})]. *)
Definition catch_rollback (msg : string) (c : conn) : response * conn :=
  (json_error 500 msg, rolled_back c).

(** [Number(r.col || 0)] for a NUMERIC column that is never NULL:
    node-postgres hands the column over as its decimal text, a non-empty
    string, and [Number] reads the stored number back. *)
Definition Number_of_numeric (stored : jsnum) : jsnum := stored.

Section Handlers.
Context {rt : Runtime}.

(** A value bound to an integer key column or compared with one.
    node-postgres sends [null] and [undefined] as NULL and every other
    value as its text; PostgreSQL reads the text of an integer and raises
    an error for any other text, which the statement throws.  [sql_int] is
    the integer that is read, [None] for NULL; [int_accepted] tells
    whether the value is one that PostgreSQL takes. *)
Definition int_of_num (n : jsnum) : option Z :=
  match n with
  | Num q => if is_integer q then Some (Qfloor q) else None
  | NaN => None
  end.

Definition sql_int (v : jsval) : option Z :=
  match v with
  | JNum n => int_of_num n
  | JStr s => integer_in s
  | _ => None
  end.

Definition int_accepted (v : jsval) : bool :=
  match v with
  | JUndefined | JNull => true
  | _ => match sql_int v with Some _ => true | None => false end
  end.

(** The parameter of a statement run on a client, as PostgreSQL reads
    it. *)
Definition bind_int (v : jsval) : tx (option Z) :=
  if int_accepted v then ret (sql_int v)
  else throw "invalid input syntax for type integer".

(** [x.name] inside a handler: reading a property of [null] or
    [undefined] throws a TypeError. *)
Definition prop (name : string) (x : jsval) : tx jsval :=
  match x with
  | JUndefined | JNull => throw "TypeError: Cannot read properties"
  | _ => ret (field name x)
  end.

(** [if (Array.isArray(xs)) { for (const x of xs) { ... } }] *)
Definition for_array (xs : jsval) (body : jsval -> tx unit) : tx unit :=
  match as_array xs with
  | Some l => for_of l body
  | None => ret tt
  end.

(** *** Parts *)

(** app.post('/api/parts') *)
Definition post_part (body : jsval) (d : db) : response * db :=
  let name := field "name" body in
  let part_number := field "part_number" body in
  let purchasing_cost := field "purchasing_cost" body in
  let selling_cost := field "selling_cost" body in
  let quantity_in_stock := field "quantity_in_stock" body in
  if negb (truthy name) || negb (truthy part_number)
     || eq_null purchasing_cost || eq_null selling_cost
  then (json_error 400 "All fields are required", d)
  else
    let '(row, d') :=
      insert_part name part_number purchasing_cost selling_cost
                  (or_else quantity_in_stock (JNum (Num 0))) d in
    ({| status := 201; sent := PartRow row |}, d').

(** app.put('/api/parts/:id') *)
Definition put_part (id : Z) (body : jsval) (d : db) : response * db :=
  let name := field "name" body in
  let part_number := field "part_number" body in
  let purchasing_cost := field "purchasing_cost" body in
  let selling_cost := field "selling_cost" body in
  let quantity_in_stock := field "quantity_in_stock" body in
  if negb (truthy name) || negb (truthy part_number)
     || eq_null purchasing_cost || eq_null selling_cost
  then (json_error 400 "All fields are required", d)
  else
    let '(rows, d') :=
      update_part name part_number purchasing_cost selling_cost
                  (or_else quantity_in_stock (JNum (Num 0))) id d in
    match rows with
    | [] => (json_error 404 "Part not found", d')
    | row :: _ => ({| status := 200; sent := PartRow row |}, d')
    end.

(** app.delete('/api/parts/:id') *)
Definition delete_part_handler (id : Z) (d : db) : response * db :=
  let '(rowCount, d') := delete_part id d in
  if Nat.eqb rowCount 0 then (json_error 404 "Part not found", d')
  else ({| status := 204; sent := Empty |}, d').

(** *** Workers *)

(** app.post('/api/workers') *)
Definition post_worker (body : jsval) (d : db) : response * db :=
  let name := field "name" body in
  let job_title := field "job_title" body in
  let phone := field "phone" body in
  let email := field "email" body in
  if negb (truthy name) then (json_error 400 "Name is required", d)
  else
    let '(row, d') :=
      insert_worker name (or_else job_title JNull) (or_else phone JNull)
                    (or_else email JNull) d in
    ({| status := 201; sent := WorkerRow row |}, d').

(** app.delete('/api/workers/:id') *)
Definition delete_worker (id : Z) : db -> response * db :=
  try_catch
    (BEGIN ;;;
     query (unassign_worker id) ;;;
     query (delete_worker_payments id) ;;;
     rowCount <- query (delete_worker_row id) ;;
     COMMIT ;;;
     if Nat.eqb rowCount 0 then ret (json_error 404 "Worker not found")
     else ret {| status := 204; sent := Empty |})%tx
    (catch_rollback "Server error").

(** *** Services *)

(** app.put('/api/services/:id/assign-worker') *)
Definition put_assign_worker (id : Z) (body : jsval) (d : db)
  : response * db :=
  let worker_id := field "worker_id" body in
  if negb (truthy worker_id)
  then (json_error 400 "worker_id is required", d)
  else if negb (int_accepted worker_id)
  then (json_error 500 "Failed to assign worker", d)
  else
    let '(rows, d') := assign_worker_row (sql_int worker_id) id d in
    match rows with
    | [] => (json_error 404 "Service not found", d')
    | row :: _ => ({| status := 200; sent := ServiceRow row |}, d')
    end.

(** *** Vehicles *)

(** The two insertion loops shared by vehicle creation and update. *)
Definition insert_standalone_parts (vehicle_id : Z)
    (standalone_parts : jsval) : tx unit :=
  for_array standalone_parts
    (fun part =>
       part_id <- prop "part_id" part ;;
       part_id <- bind_int part_id ;;
       query (insert_vehicle_part vehicle_id part_id
                                  (field "quantity" part)))%tx.

Definition insert_service_parts (vehicle_id : Z) (service_parts : jsval)
  : tx unit :=
  for_array service_parts
    (fun sp =>
       service_id <- prop "service_id" sp ;;
       service_id <- bind_int service_id ;;
       part_id <- bind_int (field "part_id" sp) ;;
       query (insert_vehicle_service_part vehicle_id service_id part_id
                (field "quantity" sp)))%tx.

(** app.post('/api/vehicles') *)
Definition post_vehicle (body : jsval) (now : Z) : db -> response * db :=
  let plate := field "plate" body in
  let make := field "make" body in
  let model_name := field "model_name" body in
  let year := field "year" body in
  let vin := field "vin" body in
  let owner := field "owner" body in
  let contact_number := field "contact_number" body in
  let service_ids := field "service_ids" body in
  let standalone_parts := field "standalone_parts" body in
  let service_parts := field "service_parts" body in
  try_catch
    (if negb (truthy plate) || negb (truthy owner)
        || negb (truthy contact_number)
     then ret (json_error 400
                 "Plate, owner, and contact number are required")
     else
       BEGIN ;;;
       vehicle <- query (insert_vehicle plate make model_name year vin
                                        owner contact_number now) ;;
       for_array service_ids
         (fun service_id =>
            service_id <- bind_int service_id ;;
            query (insert_vehicle_service (v_id vehicle) service_id)) ;;;
       insert_standalone_parts (v_id vehicle) standalone_parts ;;;
       insert_service_parts (v_id vehicle) service_parts ;;;
       COMMIT ;;;
       ret {| status := 201; sent := VehicleRow vehicle |})%tx
    (catch_rollback "Server error").

(** app.put('/api/vehicles/:id') *)
Definition put_vehicle (id : Z) (body : jsval) : db -> response * db :=
  let plate := field "plate" body in
  let make := field "make" body in
  let model_name := field "model_name" body in
  let year := field "year" body in
  let vin := field "vin" body in
  let owner := field "owner" body in
  let contact_number := field "contact_number" body in
  let standalone_parts := field "standalone_parts" body in
  let service_parts := field "service_parts" body in
  try_catch
    (if negb (truthy plate) || negb (truthy owner)
        || negb (truthy contact_number)
     then ret (json_error 400
                 "Plate, owner, and contact number are required")
     else
       BEGIN ;;;
       vehicleRows <- query (update_vehicle_row plate make model_name
                               year vin owner contact_number id) ;;
       match vehicleRows with
       | [] => ROLLBACK ;;; ret (json_error 404 "Vehicle not found")
       | row :: _ =>
           query (delete_vehicle_parts id) ;;;
           insert_standalone_parts id standalone_parts ;;;
           query (delete_vehicle_service_parts id) ;;;
           insert_service_parts id service_parts ;;;
           COMMIT ;;;
           ret {| status := 200; sent := VehicleRow row |}
       end)%tx
    (catch_rollback "Server error").

(** app.put('/api/vehicles/:id/exit') *)
Definition put_vehicle_exit (id : Z) (now : Z) (d : db)
  : response * db :=
  if count_open_services id d >? 0
  then (json_error 400 "All services must be completed before exiting.",
        d)
  else if count_invoices id d =? 0
  then (json_error 400 "Invoice must be generated before exiting.", d)
  else
    let '(_, d') := set_exit_time id now d in
    ({| status := 200; sent := Message "Vehicle exited successfully." |},
     d').

(** app.put('/api/vehicles/:vehicleId/services/:serviceId') *)
Definition put_vehicle_service (vehicleId serviceId : Z) (body : jsval)
    (d : db) : response * db :=
  let status_ := field "status" body in
  let completed_time := field "completed_time" body in
  let '(rowCount, d') :=
    update_vehicle_service status_ (or_else completed_time JNull)
                           vehicleId serviceId d in
  if Nat.eqb rowCount 0
  then (json_error 404 "Service record not found", d')
  else ({| status := 200;
           sent := Message "Service status updated successfully" |}, d').

(** app.delete('/api/vehicles/:id'), as registered in the VEHICLES
    block of the file. *)
Definition delete_vehicle_plain (id : Z) (d : db) : response * db :=
  let '(rowCount, d') := delete_vehicle_row id d in
  if Nat.eqb rowCount 0 then (json_error 404 "Vehicle not found", d')
  else ({| status := 204; sent := Empty |}, d').

(** app.delete('/api/vehicles/:id'), as registered again after the
    archive routes ("Delete vehicle (cascade invoices + items first)"). *)
Definition delete_vehicle_cascade (id : Z) : db -> response * db :=
  try_catch
    (BEGIN ;;;
     query (delete_invoice_items_of_vehicle id) ;;;
     query (delete_invoices_of_vehicle id) ;;;
     rowCount <- query (delete_vehicle_row id) ;;
     COMMIT ;;;
     if Nat.eqb rowCount 0 then ret (json_error 404 "Vehicle not found")
     else ret {| status := 204; sent := Empty |})%tx
    (catch_rollback "Server error deleting vehicle").

(** *** Invoices *)

(** One turn of the loop over [services]; [itemsTotal] is threaded. *)
Definition invoice_service_line (invoiceId : Z) (itemsTotal : jsnum)
    (svc : jsval) : tx jsnum :=
  (unit_price <- prop "unit_price" svc ;;
   let lineTotal := parseFloat (or_else unit_price (JNum (Num 0))) in
   let itemsTotal := add itemsTotal lineTotal in
   item_id <- bind_int (field "id" svc) ;;
   query (insert_invoice_item invoiceId ItService
            item_id (field "description" svc)
            (JNum (Num 1)) JNull (JNum lineTotal) lineTotal) ;;;
   ret itemsTotal)%tx.

(** One turn of the loop over [parts]. *)
Definition invoice_part_line (invoiceId : Z) (itemsTotal : jsnum)
    (part : jsval) : tx jsnum :=
  (part_id <- prop "id" part ;;
   part_id <- bind_int part_id ;;
   partRes <- query (select_part_costs part_id) ;;
   match partRes with
   | [] => throw "Part id not found"
   | row :: _ =>
       let purchasing_cost := p_purchasing_cost row in
       let selling_cost := p_selling_cost row in
       let lineTotal :=
         mul (Number selling_cost) (Number (field "quantity" part)) in
       let itemsTotal := add itemsTotal lineTotal in
       query (insert_invoice_item invoiceId ItPart part_id
                (field "description" part) (field "quantity" part)
                purchasing_cost selling_cost lineTotal) ;;;
       ret itemsTotal
   end)%tx.

(** [for (const x of xs)] guarded by [Array.isArray], with the running
    total as loop state. *)
Definition for_array_acc (xs : jsval) (body : jsnum -> jsval -> tx jsnum)
    (acc : jsnum) : tx jsnum :=
  match as_array xs with
  | Some l => for_of_acc l body acc
  | None => ret acc
  end.

(** app.post('/api/invoices') *)
Definition post_invoice (body : jsval) : db -> response * db :=
  let vehicle_id := field "vehicle_id" body in
  let days_in_garage := field "days_in_garage" body in
  let services_ := field "services" body in
  let parts_ := field "parts" body in
  try_catch
    (if negb (truthy vehicle_id) || negb (truthy days_in_garage)
     then ret (json_error 400
                 "Vehicle ID and days in garage are required.")
     else
       BEGIN ;;;
       vehicle_id <- bind_int vehicle_id ;;
       invoiceId <- query (insert_invoice vehicle_id days_in_garage) ;;
       itemsTotal <- for_array_acc services_
                       (invoice_service_line invoiceId) (Num 0) ;;
       itemsTotal <- for_array_acc parts_
                       (invoice_part_line invoiceId) itemsTotal ;;
       let garageStayTotal := mul (Number days_in_garage) (Num 5000) in
       let subtotal := add itemsTotal garageStayTotal in
       let tax := mul subtotal (Num (18 # 100)) in
       let total := add subtotal tax in
       query (update_invoice_totals subtotal tax total invoiceId) ;;;
       COMMIT ;;;
       ret {| status := 201; sent := InvoiceCreated invoiceId |})%tx
    (catch_rollback "Server error generating invoice").

(** app.get('/api/invoices/:id/pdf') *)
Definition get_invoice_pdf (id : Z) (d : db) : response * db :=
  match select_invoice_with_vehicle id d with
  | [] => (json_error 404 "Invoice not found", d)
  | (r, v) :: _ =>
      let items := select_invoice_items id d in
      let garageStayTotal :=
        mul (Number (or_else (i_days_in_garage r) (JNum (Num 0))))
            (Number_of_numeric (i_garage_stay_rate r)) in
      let subtotalRWF := Number_of_numeric (i_subtotal r) in
      let taxRWF := Math_round (mul subtotalRWF (Num (18 # 100))) in
      let totalRWF := add subtotalRWF taxRWF in
      ({| status := 200;
          sent := InvoicePdf
                    {| pdf_invoice_id := i_id r;
                       pdf_vehicle := v;
                       pdf_days_in_garage :=
                         or_else (i_days_in_garage r) (JNum (Num 0));
                       pdf_garage_stay_rate :=
                         Number_of_numeric (i_garage_stay_rate r);
                       pdf_items := items;
                       pdf_garage_stay := garageStayTotal;
                       pdf_subtotal := subtotalRWF;
                       pdf_tax := taxRWF;
                       pdf_total := totalRWF |} |}, d)
  end.

(** app.delete('/api/invoices/:id') *)
Definition delete_invoice (id : Z) : db -> response * db :=
  try_catch
    (BEGIN ;;;
     query (delete_invoice_items id) ;;;
     rowCount <- query (delete_invoice_row id) ;;
     COMMIT ;;;
     if Nat.eqb rowCount 0 then ret (json_error 404 "Invoice not found")
     else ret {| status := 204; sent := Empty |})%tx
    (catch_rollback "Server error deleting invoice").

(** *** Worker payments *)

(** app.post('/api/workers/:id/payments') *)
Definition post_worker_payment (id : Z) (body : jsval) (now : Z) (d : db)
  : response * db :=
  let amount := field "amount" body in
  let method := field "method" body in
  let notes := field "notes" body in
  let payment_date := field "payment_date" body in
  if negb (truthy amount) || isNaN (Number amount)
  then (json_error 400 "Invalid amount", d)
  else
    let when := if truthy payment_date then Date_time payment_date
                else None in
    let '(row, d') :=
      insert_worker_payment id (Number amount) (or_else method JNull)
                            (or_else notes JNull) when now d in
    ({| status := 201; sent := PaymentRow row |}, d').

End Handlers.
(** *** Routing *)

Inductive verb : Type := GET | POST | PUT | DELETE.

Definition verb_eqb (a b : verb) : bool :=
  match a, b with
  | GET, GET | POST, POST | PUT, PUT | DELETE, DELETE => true
  | _, _ => false
  end.

(** A segment of a route pattern: a literal or a [:name] parameter. *)
Inductive pattern_seg : Type :=
| Lit (s : string)
| Param.

(** A segment of a request path.  The parameters of the routes modelled
    here are row ids, which the client sends as integers. *)
Inductive path_seg : Type :=
| Seg (s : string)
| Id (z : Z).

Record request : Type := {
  method : verb;
  path : list path_seg;
  body : jsval
}.

Fixpoint match_path (pat : list pattern_seg) (p : list path_seg)
  : option (list Z) :=
  match pat, p with
  | [], [] => Some []
  | Lit s :: pat', Seg s' :: p' =>
      if String.eqb s s' then match_path pat' p' else None
  | Param :: pat', Id z :: p' =>
      match match_path pat' p' with
      | Some ps => Some (z :: ps)
      | None => None
      end
  | _, _ => None
  end.

(** A handler receives [req.params], [req.body] and the clock. *)
Definition handler : Type := list Z -> jsval -> Z -> db -> response * db.

Record route : Type := {
  r_method : verb;
  r_pattern : list pattern_seg;
  r_handler : handler
}.

Definition not_found (d : db) : response * db :=
  ({| status := 404; sent := NoRoute |}, d).

Definition with_id (k : Z -> db -> response * db) (ps : list Z)
  : db -> response * db :=
  match ps with
  | [id] => k id
  | _ => not_found
  end.

Definition with_ids (k : Z -> Z -> db -> response * db) (ps : list Z)
  : db -> response * db :=
  match ps with
  | [a; b] => k a b
  | _ => not_found
  end.

(** Express walks its stack in registration order and runs the first
    layer whose method and path match; none of the handlers calls
    [next()], so later layers are not reached. *)
Fixpoint dispatch (routes : list route) (rq : request) (now : Z) (d : db)
  : response * db :=
  match routes with
  | [] => not_found d
  | r :: rest =>
      if verb_eqb (r_method r) (method rq) then
        match match_path (r_pattern r) (path rq) with
        | Some ps => r_handler r ps (body rq) now d
        | None => dispatch rest rq now d
        end
      else dispatch rest rq now d
  end.

Section App.
Context {rt : Runtime}.

(** The routes of [server.js] that write to the store, and the invoice
    PDF, in the order in which the file registers them.  The remaining
    routes are GET routes that only issue SELECT statements. *)
Definition app : list route :=
  [ {| r_method := POST; r_pattern := [Lit "api"; Lit "parts"];
       r_handler := fun _ b _ => post_part b |};
    {| r_method := PUT; r_pattern := [Lit "api"; Lit "parts"; Param];
       r_handler := fun ps b _ => with_id (fun id => put_part id b) ps |};
    {| r_method := DELETE; r_pattern := [Lit "api"; Lit "parts"; Param];
       r_handler := fun ps _ _ => with_id delete_part_handler ps |};
    {| r_method := POST; r_pattern := [Lit "api"; Lit "workers"];
       r_handler := fun _ b _ => post_worker b |};
    {| r_method := DELETE; r_pattern := [Lit "api"; Lit "workers"; Param];
       r_handler := fun ps _ _ => with_id delete_worker ps |};
    {| r_method := PUT;
       r_pattern := [Lit "api"; Lit "services"; Param;
                     Lit "assign-worker"];
       r_handler := fun ps b _ =>
                      with_id (fun id => put_assign_worker id b) ps |};
    {| r_method := POST; r_pattern := [Lit "api"; Lit "vehicles"];
       r_handler := fun _ b now => post_vehicle b now |};
    {| r_method := PUT; r_pattern := [Lit "api"; Lit "vehicles"; Param];
       r_handler := fun ps b _ =>
                      with_id (fun id => put_vehicle id b) ps |};
    {| r_method := PUT;
       r_pattern := [Lit "api"; Lit "vehicles"; Param; Lit "exit"];
       r_handler := fun ps _ now =>
                      with_id (fun id => put_vehicle_exit id now) ps |};
    {| r_method := PUT;
       r_pattern := [Lit "api"; Lit "vehicles"; Param; Lit "services";
                     Param];
       r_handler := fun ps b _ =>
                      with_ids (fun v s => put_vehicle_service v s b)
                               ps |};
    {| r_method := DELETE;
       r_pattern := [Lit "api"; Lit "vehicles"; Param];
       r_handler := fun ps _ _ => with_id delete_vehicle_plain ps |};
    {| r_method := POST; r_pattern := [Lit "api"; Lit "invoices"];
       r_handler := fun _ b _ => post_invoice b |};
    {| r_method := GET;
       r_pattern := [Lit "api"; Lit "invoices"; Param; Lit "pdf"];
       r_handler := fun ps _ _ => with_id get_invoice_pdf ps |};
    {| r_method := POST;
       r_pattern := [Lit "api"; Lit "workers"; Param; Lit "payments"];
       r_handler := fun ps b now =>
                      with_id (fun id => post_worker_payment id b now)
                              ps |};
    {| r_method := DELETE;
       r_pattern := [Lit "api"; Lit "vehicles"; Param];
       r_handler := fun ps _ _ => with_id delete_vehicle_cascade ps |};
    {| r_method := DELETE;
       r_pattern := [Lit "api"; Lit "invoices"; Param];
       r_handler := fun ps _ _ => with_id delete_invoice ps |} ].

(** The server answering one request at store time [now]. *)
Definition serve (rq : request) (now : Z) (d : db) : response * db :=
  dispatch app rq now d.
End App.

End Server.
Export Server.

(* ================================================================== *)
(** ** Sample data                                                     *)
(* ================================================================== *)

Module Examples.

Definition digit (c : Ascii.ascii) : option Z :=
  let n := Z.of_nat (Ascii.nat_of_ascii c) in
  if (48 <=? n) && (n <=? 57) then Some (n - 48) else None.

Fixpoint digits (s : string) (acc : Z) : option Z :=
  match s with
  | EmptyString => Some acc
  | String c rest =>
      match digit c with
      | Some v => digits rest (10 * acc + v)
      | None => None
      end
  end.

(** A runtime for running the handlers on examples.  It reads unsigned
    decimal integer literals and takes dates as epoch milliseconds. *)
Definition runtime : Runtime :=
  {| StringToNumber := fun s =>
       match digits s 0 with
       | Some z => Num (inject_Z z)
       | None => NaN
       end;
     parseFloat_string := fun s =>
       match s with
       | EmptyString => NaN
       | _ => match digits s 0 with
              | Some z => Num (inject_Z z)
              | None => NaN
              end
       end;
     ToString := fun _ => "[object Object]";
     Date_time := fun v =>
       match v with
       | JNum (Num q) => Some (Qfloor q)
       | _ => None
       end;
     integer_in := fun s =>
       match s with
       | EmptyString => None
       | _ => digits s 0
       end |}.

Definition num (z : Z) : jsval := JNum (Num (inject_Z z)).

Definition brake_pad : part :=
  {| p_id := 5; p_name := JStr "Brake pad"; p_part_number := JStr "BP-5";
     p_purchasing_cost := num 700; p_selling_cost := num 1000;
     p_quantity_in_stock := num 12 |}.

Definition mechanic : worker :=
  {| w_id := 7; w_name := JStr "Aline"; w_job_title := JStr "Mechanic";
     w_phone := JNull; w_email := JNull |}.

Definition oil_change : service :=
  {| s_id := 1; s_name := JStr "Oil change"; s_category := JStr "Engine";
     s_worker_id := None |}.

Definition brakes : service :=
  {| s_id := 2; s_name := JStr "Brakes"; s_category := JStr "Safety";
     s_worker_id := Some 7 |}.

Definition car : vehicle :=
  {| v_id := 1; v_plate := JStr "RAB 123 A"; v_make := JStr "Toyota";
     v_model_name := JStr "Hilux"; v_year := num 2015; v_vin := JNull;
     v_owner := JStr "Jean"; v_contact_number := JStr "0788000000";
     v_entry_time := Some 1000; v_exit_time := None |}.

Definition payment (id : Z) (amount : Z) : worker_payment :=
  {| wp_id := id; wp_worker_id := 7; wp_amount := Num (inject_Z amount);
     wp_method := JStr "cash"; wp_notes := JNull;
     wp_payment_date := 500 |}.

(** A garage with one part, one worker assigned to one of two services
    and paid three times, and one vehicle whose only service is done. *)
Definition garage : db :=
  {| parts := [brake_pad];
     workers := [mechanic];
     services := [oil_change; brakes];
     vehicles := [car];
     vehicle_services :=
       [{| vs_vehicle_id := 1; vs_service_id := Some 1;
           vs_status := JStr "completed"; vs_completed_time := num 2000 |}];
     vehicle_parts := [];
     vehicle_service_parts := [];
     invoices := [];
     invoice_items := [];
     worker_payments := [payment 1 10000; payment 2 20000; payment 3 500];
     seqs := {| seq_parts := 6; seq_workers := 8; seq_vehicles := 2;
                seq_invoices := 1; seq_invoice_items := 1;
                seq_worker_payments := 4 |} |}.

(** The request of the example of the specification:
    { vehicle_id: 1, days_in_garage: 2,
      services: [{ id: 1, description: "Oil change", unit_price: 3000 }],
      parts: [{ id: 5, quantity: 2 }] } *)
Definition invoice_body : jsval :=
  JObj [("vehicle_id", num 1); ("days_in_garage", num 2);
        ("services",
         JArr [JObj [("id", num 1); ("description", JStr "Oil change");
                     ("unit_price", num 3000)]]);
        ("parts", JArr [JObj [("id", num 5); ("quantity", num 2)]])].

(** The same request with a second part line, for a part id that the
    store does not hold. *)
Definition bad_part_line : jsval :=
  JObj [("id", num 99); ("quantity", num 1)].

Definition bad_invoice_body : jsval :=
  JObj [("vehicle_id", num 1); ("days_in_garage", num 2);
        ("services",
         JArr [JObj [("id", num 1); ("description", JStr "Oil change");
                     ("unit_price", num 3000)]]);
        ("parts", JArr [JObj [("id", num 5); ("quantity", num 2)];
                        bad_part_line])].

(** A request whose subtotal is not a multiple of 50:
    { vehicle_id: 1, days_in_garage: 1,
      services: [{ id: 1, description: "Oil change", unit_price: 3010 }] } *)
Definition odd_invoice_body : jsval :=
  JObj [("vehicle_id", num 1); ("days_in_garage", num 1);
        ("services",
         JArr [JObj [("id", num 1); ("description", JStr "Oil change");
                     ("unit_price", num 3010)]])].

(** Two updates of the vehicle with different part lists. *)
Definition update_first : jsval :=
  JObj [("plate", JStr "RAB 123 A"); ("owner", JStr "Jean");
        ("contact_number", JStr "0788000000");
        ("standalone_parts",
         JArr [JObj [("part_id", num 5); ("quantity", num 1)]]);
        ("service_parts",
         JArr [JObj [("service_id", num 1); ("part_id", num 5);
                     ("quantity", num 2)]])].

Definition update_second : jsval :=
  JObj [("plate", JStr "RAB 123 A"); ("owner", JStr "Jean");
        ("contact_number", JStr "0788000000");
        ("standalone_parts",
         JArr [JObj [("part_id", num 5); ("quantity", num 3)];
               JObj [("part_id", num 5); ("quantity", num 4)]]);
        ("service_parts", JArr [])].

Definition garage_odd_invoiced : db :=
  Eval vm_compute in
    snd (post_invoice (rt := runtime) odd_invoice_body garage).

(** The garage once the invoice of [invoice_body] has been created. *)
Definition garage_invoiced : db :=
  Eval vm_compute in snd (post_invoice (rt := runtime) invoice_body garage).

(** The garage while the service of the vehicle is still pending. *)
Definition garage_pending : db :=
  set_vehicle_services garage_invoiced
    [{| vs_vehicle_id := 1; vs_service_id := Some 1;
        vs_status := JStr "pending"; vs_completed_time := JNull |}].

(** The invoiced garage after the vehicle left at time 100. *)
Definition garage_exited : db :=
  Eval vm_compute in snd (put_vehicle_exit 1 100 garage_invoiced).

(** A second vehicle arrives for an oil change and is invoiced; a status
    update for its service then carries a completion time and no status,
    and the vehicle asks to leave. *)
Definition arrival : request :=
  {| method := POST; path := [Seg "api"; Seg "vehicles"];
     body := JObj [("plate", JStr "RAD 789 C"); ("owner", JStr "Marie");
                   ("contact_number", JStr "0788111111");
                   ("service_ids", JArr [num 1])] |}.

Definition billing : request :=
  {| method := POST; path := [Seg "api"; Seg "invoices"];
     body := JObj [("vehicle_id", num 2); ("days_in_garage", num 1)] |}.

Definition update_without_status : request :=
  {| method := PUT;
     path := [Seg "api"; Seg "vehicles"; Id 2; Seg "services"; Id 1];
     body := JObj [("completed_time", JStr "2024-05-01T10:00:00Z")] |}.

Definition leaving : request :=
  {| method := PUT; path := [Seg "api"; Seg "vehicles"; Id 2; Seg "exit"];
     body := JUndefined |}.

Definition garage_billed : db :=
  Eval vm_compute in
    snd (serve (rt := runtime) billing 3100
           (snd (serve (rt := runtime) arrival 3000 garage))).

End Examples.

(* ================================================================== *)
(** ** Vocabulary of the properties                                    *)
(* ================================================================== *)

Module Spec.

(** The items of an invoice, the invoices of a vehicle. *)
Definition items_of (invoice_id : Z) (d : db) : list invoice_item :=
  filter (fun it => ii_invoice_id it =? invoice_id) (invoice_items d).

Definition invoices_of (vehicle_id : Z) (d : db) : list invoice :=
  filter (fun i => id_eqb (i_vehicle_id i) vehicle_id) (invoices d).

Definition invoice_rows (id : Z) (d : db) : list invoice :=
  filter (fun i => i_id i =? id) (invoices d).

(** Invoice ids in use were drawn from the invoice sequence. *)
Definition invoice_ids_drawn (d : db) : Prop :=
  (forall i, In i (invoices d) -> i_id i < seq_invoices (seqs d)) /\
  (forall it, In it (invoice_items d) ->
              ii_invoice_id it < seq_invoices (seqs d)).

(** The 18% tax rate. *)
Definition tax_rate : jsnum := Num (18 # 100).

(** A vehicle has a service whose status is a value, not NULL, other
    than the text 'completed'; every service of a vehicle has the status
    'completed'; a vehicle has an invoice. *)
Definition has_open_service (id : Z) (d : db) : Prop :=
  exists r, In r (vehicle_services d) /\ vs_vehicle_id r = id
            /\ vs_status r <> JNull /\ vs_status r <> JUndefined
            /\ vs_status r <> JStr "completed".

Definition all_services_completed (id : Z) (d : db) : Prop :=
  forall r, In r (vehicle_services d) -> vs_vehicle_id r = id ->
            vs_status r = JStr "completed".

Definition has_invoice (id : Z) (d : db) : Prop :=
  exists i, In i (invoices d) /\ i_vehicle_id i = Some id.

Definition vehicle_exists (id : Z) (d : db) : Prop :=
  exists v, In v (vehicles d) /\ v_id v = id.

Definition worker_exists (id : Z) (d : db) : Prop :=
  exists w, In w (workers d) /\ w_id w = id.

(** The exit_time of the vehicle row with a given id: [None] when there
    is no such row, [Some None] when the column is NULL. *)
Definition exit_time_of (id : Z) (d : db) : option (option Z) :=
  match filter (fun v => v_id v =? id) (vehicles d) with
  | v :: _ => Some (v_exit_time v)
  | [] => None
  end.

Definition path_seg_eqb (a b : path_seg) : bool :=
  match a, b with
  | Seg s, Seg s' => String.eqb s s'
  | Id x, Id y => x =? y
  | _, _ => false
  end.

Fixpoint path_eqb (a b : list path_seg) : bool :=
  match a, b with
  | [], [] => true
  | x :: a', y :: b' => path_seg_eqb x y && path_eqb a' b'
  | _, _ => false
  end.

(** PUT /api/vehicles/<id>/exit *)
Definition exit_request (id : Z) : request :=
  {| method := PUT;
     path := [Seg "api"; Seg "vehicles"; Id id; Seg "exit"];
     body := JUndefined |}.

Definition is_exit_request (id : Z) (rq : request) : bool :=
  verb_eqb (method rq) PUT && path_eqb (path rq) (path (exit_request id)).

(** DELETE /api/vehicles/<id> *)
Definition delete_vehicle_request (id : Z) : request :=
  {| method := DELETE; path := [Seg "api"; Seg "vehicles"; Id id];
     body := JUndefined |}.

(** The rows that a list of standalone parts, respectively service
    parts, of a request stands for. *)
Definition standalone_rows {rt : Runtime} (vehicle_id : Z) (xs : jsval)
  : list vehicle_part :=
  match as_array xs with
  | Some l =>
      map (fun part => {| vp_vehicle_id := vehicle_id;
                          vp_part_id := sql_int (field "part_id" part);
                          vp_quantity := field "quantity" part |}) l
  | None => []
  end.

Definition service_part_rows {rt : Runtime} (vehicle_id : Z) (xs : jsval)
  : list vehicle_service_part :=
  match as_array xs with
  | Some l =>
      map (fun sp => {| vsp_vehicle_id := vehicle_id;
                        vsp_service_id := sql_int (field "service_id" sp);
                        vsp_part_id := sql_int (field "part_id" sp);
                        vsp_quantity := field "quantity" sp |}) l
  | None => []
  end.

(** The required fields of a vehicle are present. *)
Definition vehicle_fields_present (body : jsval) : bool :=
  truthy (field "plate" body) && truthy (field "owner" body)
  && truthy (field "contact_number" body).

(** A part line of a request names a part the store does not hold. *)
Definition part_missing {rt : Runtime} (d : db) (part : jsval) : Prop :=
  forall p, In p (parts d) -> sql_int (field "id" part) <> Some (p_id p).

(** The client a computation leaves behind, and computations that leave
    an observation [f] of the client as they found it. *)
Definition conn_of {A} (o : outcome A) : conn :=
  match o with Done _ c => c | Thrown _ c => c end.

Definition keeps {A X} (f : conn -> X) (m : tx A) : Prop :=
  forall c, f (conn_of (m c)) = f c.

(** The store after [new] has been appended to invoice_items. *)
Definition with_items (d : db) (new : list invoice_item) : db :=
  set_seqs (set_invoice_items d (invoice_items d ++ new))
    {| seq_parts := seq_parts (seqs d);
       seq_workers := seq_workers (seqs d);
       seq_vehicles := seq_vehicles (seqs d);
       seq_invoices := seq_invoices (seqs d);
       seq_invoice_items :=
         seq_invoice_items (seqs d) + Z.of_nat (List.length new);
       seq_worker_payments := seq_worker_payments (seqs d) |}.

(** The running total of the loops of [post_invoice]. *)
Definition running_total (acc : jsnum) (items : list invoice_item)
  : jsnum :=
  fold_left (fun a it => add a (ii_total it)) items acc.

(** Invariants of a client relate the rows of the snapshot taken at BEGIN
    and the current rows; a computation preserves them. *)
Definition conn_ok (J : db -> db -> Prop) (c : conn) : Prop :=
  J (at_begin c) (current c).

Definition preserves {A} (J : db -> db -> Prop) (m : tx A) : Prop :=
  forall c, conn_ok J c -> conn_ok J (conn_of (m c)).

(** The invariant of a client that an invoice with id [invoiceId] is being
    built on: ids are drawn from the sequence, which only grows, and
    [invoiceId] has been drawn. *)
Definition invoice_ids_ok (invoiceId : option Z) (a c : db) : Prop :=
  invoice_ids_drawn a /\ invoice_ids_drawn c
  /\ seq_invoices (seqs a) <= seq_invoices (seqs c)
  /\ match invoiceId with
     | Some id => id < seq_invoices (seqs c)
     | None => True
     end.

(** A handler has left the invoices, their items and the invoice sequence
    as they were. *)
Definition same_invoicing (d d' : db) : Prop :=
  invoices d' = invoices d /\ invoice_items d' = invoice_items d
  /\ seq_invoices (seqs d') = seq_invoices (seqs d).

End Spec.
Export Spec.

(* ================================================================== *)
(** ** The read-only handlers                                          *)
(* ================================================================== *)

Module Reads.

(** What a GET handler answers: a 200 with a JSON value, or a status with
    { error: msg }. *)
Inductive reply (A : Type) : Type :=
| Found (a : A)
| Refused (code : Z) (msg : string).
Arguments Found {A} a.
Arguments Refused {A} code msg.

(** ORDER BY, as the insertion of each row before the first row that it
    is to precede. *)
Section OrderBy.
Context {A : Type} (before : A -> A -> bool).

Fixpoint insert_row (x : A) (l : list A) : list A :=
  match l with
  | [] => [x]
  | y :: rest => if before x y then x :: l else y :: insert_row x rest
  end.

Definition order_by (l : list A) : list A := fold_right insert_row [] l.
End OrderBy.

(** *** GET /api/invoices/:id *)

Record invoice_view : Type := {
  iv_invoice : invoice;
  iv_plate : jsval;
  iv_owner : jsval;
  iv_items : list invoice_item
}.

(** SELECT i.*, v.plate, v.owner FROM invoices i
    JOIN vehicles v ON i.vehicle_id = v.id WHERE i.id = $1 *)
Definition select_invoice_joined (id : Z) (d : db)
  : list (invoice * vehicle) :=
  flat_map
    (fun i => map (fun v => (i, v))
                  (filter (fun v => id_eqb (i_vehicle_id i) (v_id v))
                          (vehicles d)))
    (filter (fun i => i_id i =? id) (invoices d)).

(** app.get('/api/invoices/:id') *)
Definition get_invoice (id : Z) (d : db) : reply invoice_view :=
  match select_invoice_joined id d with
  | [] => Refused 404 "Invoice not found"
  | (i, v) :: _ =>
      Found {| iv_invoice := i; iv_plate := v_plate v; iv_owner := v_owner v;
               iv_items := select_invoice_items id d |}
  end.

(** app.get('/api/invoices'):
    SELECT i.*, v.plate, v.owner FROM invoices i
    JOIN vehicles v ON i.vehicle_id = v.id ORDER BY i.id DESC *)
Definition get_invoices (d : db) : list (invoice * vehicle) :=
  order_by (fun a b => i_id (fst b) <=? i_id (fst a))
    (flat_map
       (fun i => map (fun v => (i, v))
                     (filter (fun v => id_eqb (i_vehicle_id i) (v_id v))
                             (vehicles d)))
       (invoices d)).

(** *** Worker payments *)

(** ORDER BY payment_date DESC NULLS LAST, id DESC *)
Definition payment_before (a b : worker_payment) : bool :=
  (wp_payment_date b <? wp_payment_date a)
  || ((wp_payment_date b =? wp_payment_date a) && (wp_id b <=? wp_id a)).

(** SELECT ... FROM worker_payments WHERE worker_id = $1
    ORDER BY payment_date DESC NULLS LAST, id DESC *)
Definition select_worker_payments (id : Z) (d : db) : list worker_payment :=
  order_by payment_before
    (filter (fun p => wp_worker_id p =? id) (worker_payments d)).

(** [payments.reduce((s, p) => s + Number(p.amount || 0), 0)] *)
Definition reduce_amounts (payments : list worker_payment) : jsnum :=
  fold_left (fun s p => add s (Number_of_numeric (wp_amount p))) payments
            (Num 0).

Record payments_view : Type := {
  pv_worker : worker;
  pv_payments : list worker_payment;
  pv_total : jsnum
}.

(** app.get('/api/workers/:id/payments') *)
Definition get_worker_payments (id : Z) (d : db) : reply payments_view :=
  match filter (fun w => w_id w =? id) (workers d) with
  | [] => Refused 404 "Worker not found"
  | w :: _ =>
      let payments := select_worker_payments id d in
      Found {| pv_worker := w; pv_payments := payments;
               pv_total := reduce_amounts payments |}
  end.

(** SELECT COALESCE(SUM(amount), 0) AS total_paid FROM worker_payments
    WHERE worker_id = $1 *)
Definition sum_amounts (id : Z) (d : db) : jsnum :=
  fold_right (fun p acc => add (wp_amount p) acc) (Num 0)
    (filter (fun p => wp_worker_id p =? id) (worker_payments d)).

(** app.get('/api/workers/:id/payments/total'): { total_paid } *)
Definition get_worker_payments_total (id : Z) (d : db) : jsnum :=
  Number_of_numeric (sum_amounts id d).

(** The data of app.get('/api/workers/:id/payments/pdf'): the worker, the
    payment lines and the "Total Paid" line. *)
Definition get_worker_payments_pdf (id : Z) (d : db) : reply payments_view :=
  match filter (fun w => w_id w =? id) (workers d) with
  | [] => Refused 404 "Worker not found"
  | worker :: _ =>
      let payments := select_worker_payments id d in
      let total :=
        fold_left (fun sum p => add sum (Number_of_numeric (wp_amount p)))
                  payments (Num 0) in
      Found {| pv_worker := worker; pv_payments := payments;
               pv_total := total |}
  end.

End Reads.
Export Reads.

(* ================================================================== *)
(** ** Uploads, the archive and CORS                                   *)
(* ================================================================== *)

Module Uploads.

(** Text as JavaScript has it: a sequence of UTF-16 code units. *)
Definition text : Type := list Z.

Definition codes (s : string) : text :=
  map (fun a => Z.of_nat (Ascii.nat_of_ascii a)) (list_ascii_of_string s).

Fixpoint text_eqb (a b : text) : bool :=
  match a, b with
  | [], [] => true
  | x :: a', y :: b' => (x =? y) && text_eqb a' b'
  | _, _ => false
  end.

(** [\d] *)
Definition is_digit (c : Z) : bool := (48 <=? c) && (c <=? 57).

(** [\w]: [A-Za-z0-9_] *)
Definition is_word (c : Z) : bool :=
  is_digit c || ((65 <=? c) && (c <=? 90)) || ((97 <=? c) && (c <=? 122))
  || (c =? 95).

(** The class [\w.\-() ] of the file name filter. *)
Definition is_safe (c : Z) : bool :=
  is_word c || (c =? 46) || (c =? 45) || (c =? 40) || (c =? 41) || (c =? 32).

(** [s.replace(/[^\w.\-() ]+/g, '_')]: every maximal run of code units
    outside the class becomes one underscore.  [in_run] tells that the
    previous code unit was outside the class. *)
Fixpoint replace_unsafe (in_run : bool) (s : text) : text :=
  match s with
  | [] => []
  | c :: rest =>
      if is_safe c then c :: replace_unsafe false rest
      else if in_run then replace_unsafe true rest
           else 95 :: replace_unsafe true rest
  end.

(** White space and line terminators, what [trim] removes. *)
Definition is_space (c : Z) : bool :=
  ((9 <=? c) && (c <=? 13)) || (c =? 32) || (c =? 160) || (c =? 5760)
  || ((8192 <=? c) && (c <=? 8202)) || (c =? 8232) || (c =? 8233)
  || (c =? 8239) || (c =? 8287) || (c =? 12288) || (c =? 65279).

Fixpoint trim_start (s : text) : text :=
  match s with
  | [] => []
  | c :: rest => if is_space c then trim_start rest else s
  end.

Definition trim_end (s : text) : text := rev (trim_start (rev s)).

(** [s.trim()] *)
Definition trim (s : text) : text := trim_end (trim_start s).

(** [/^\d{4}$/.test(s)] *)
Definition is_year (s : text) : bool :=
  Nat.eqb (List.length s) 4 && forallb is_digit s.

Fixpoint uint_codes (u : Decimal.uint) : text :=
  match u with
  | Decimal.Nil => []
  | Decimal.D0 u => 48 :: uint_codes u
  | Decimal.D1 u => 49 :: uint_codes u
  | Decimal.D2 u => 50 :: uint_codes u
  | Decimal.D3 u => 51 :: uint_codes u
  | Decimal.D4 u => 52 :: uint_codes u
  | Decimal.D5 u => 53 :: uint_codes u
  | Decimal.D6 u => 54 :: uint_codes u
  | Decimal.D7 u => 55 :: uint_codes u
  | Decimal.D8 u => 56 :: uint_codes u
  | Decimal.D9 u => 57 :: uint_codes u
  end.

(** [String(n)] for a non-negative integer, as in [`${Date.now()}`]. *)
Definition decimal (n : Z) : text := uint_codes (N.to_uint (Z.to_N n)).

(** [storage.filename]: [`${Date.now()}_${safe}`] *)
Definition filename (now : Z) (originalname : text) : text :=
  decimal now ++ 95 :: replace_unsafe false originalname.

(** [String(req.body.year || '').trim()] for a form field that is absent
    or a string. *)
Definition year_of_body (year : option text) : text :=
  trim (match year with Some s => s | None => [] end).

(** [storage.destination]: the directory under INVOICE_DIR, or the error
    'Invalid year'. *)
Definition destination (year : option text) : option text :=
  let year := year_of_body year in
  if is_year year then Some year else None.

(** [`/uploads/invoices/${year}/${name}`] *)
Definition file_url (year name : text) : text :=
  codes "/uploads/invoices/" ++ year ++ 47 :: name.

(** The [url] that app.post('/api/archive/files') reports for a stored
    file. *)
Definition uploaded_url (year : option text) (stored : text) : text :=
  file_url (year_of_body year) stored.

(** app.get('/api/archive/files/:year'); [readdir] gives the names in the
    directory of a year under INVOICE_DIR, [None] when it does not
    exist. *)
Definition get_archive_files (readdir : text -> option (list text))
    (year : text) : reply (text * list (text * text)) :=
  if negb (is_year year) then Refused 400 "Invalid year"
  else match readdir year with
       | None => Found (year, [])
       | Some names =>
           Found (year, map (fun name => (name, file_url year name)) names)
       end.

(** *** CORS *)

(** [s.split(',')] for a separator of one code unit. *)
Fixpoint split (sep : Z) (s : text) : list text :=
  match s with
  | [] => [[]]
  | c :: rest =>
      if c =? sep then [] :: split sep rest
      else match split sep rest with
           | piece :: pieces => (c :: piece) :: pieces
           | [] => [[c]]
           end
  end.

Definition nonempty (s : text) : bool :=
  match s with [] => false | _ => true end.

(** [(process.env.CORS_ORIGIN || '').split(',').map(s => s.trim())
      .filter(Boolean)] *)
Definition ALLOWED_ORIGINS (CORS_ORIGIN : option text) : list text :=
  filter nonempty
    (map trim (split 44 (match CORS_ORIGIN with Some s => s | None => [] end))).

(** [corsOptions.origin]: [true] for [cb(null, true)], [false] for the
    error 'Not allowed by CORS'. *)
Definition cors_origin (allowed : list text) (origin : option text) : bool :=
  match origin with
  | None | Some [] => true
  | Some o =>
      match allowed with
      | [] => true
      | _ => existsb (text_eqb o) allowed
      end
  end.

(** A text that does not begin with white space. *)
Definition starts_clean (l : text) : Prop :=
  match l with [] => True | c :: _ => is_space c = false end.

End Uploads.
Export Uploads.

(* ================================================================== *)
(** ** Vocabulary of the further properties                            *)
(* ================================================================== *)

Module Wf.

(** The keys of a table are distinct and were drawn from its sequence. *)
Definition table_ok {R : Type} (key : R -> Z) (rows : list R) (next : Z)
  : Prop :=
  NoDup (map key rows) /\ Forall (fun r => key r < next) rows.

Definition ids_unique (d : db) : Prop :=
  table_ok p_id (parts d) (seq_parts (seqs d))
  /\ table_ok w_id (workers d) (seq_workers (seqs d))
  /\ table_ok v_id (vehicles d) (seq_vehicles (seqs d))
  /\ table_ok i_id (invoices d) (seq_invoices (seqs d))
  /\ table_ok ii_id (invoice_items d) (seq_invoice_items (seqs d))
  /\ table_ok wp_id (worker_payments d) (seq_worker_payments (seqs d)).

(** No sequence of [c] is behind the one of [a]. *)
Definition seqs_le (a c : db) : Prop :=
  seq_parts (seqs a) <= seq_parts (seqs c)
  /\ seq_workers (seqs a) <= seq_workers (seqs c)
  /\ seq_vehicles (seqs a) <= seq_vehicles (seqs c)
  /\ seq_invoices (seqs a) <= seq_invoices (seqs c)
  /\ seq_invoice_items (seqs a) <= seq_invoice_items (seqs c)
  /\ seq_worker_payments (seqs a) <= seq_worker_payments (seqs c).

(** The invariant of a client serving a request on a store [d0]. *)
Definition ids_ok (d0 a c : db) : Prop :=
  ids_unique a /\ ids_unique c /\ seqs_le a c /\ seqs_le d0 a.

(** A statement keeps the keys distinct and the sequences growing. *)
Definition grows {A} (stmt : db -> A * db) : Prop :=
  forall d, ids_unique d ->
            ids_unique (snd (stmt d)) /\ seqs_le d (snd (stmt d)).

(** The rows that a list of service ids of a request stands for. *)
Definition pending_rows {rt : Runtime} (vehicle_id : Z) (xs : jsval)
  : list vehicle_service :=
  match as_array xs with
  | Some l =>
      map (fun service_id =>
             {| vs_vehicle_id := vehicle_id;
                vs_service_id := sql_int service_id;
                vs_status := JStr "pending";
                vs_completed_time := JNull |}) l
  | None => []
  end.

(** A block that runs after BEGIN: when it throws it has left the
    snapshot taken at BEGIN alone, and when it returns its answer is
    neither a 400 nor a 500. *)
Definition aborts_clean (m : tx response) : Prop :=
  forall c, match m c with
            | Thrown _ c' => at_begin c' = at_begin c
            | Done r _ => status r <> 400 /\ status r <> 500
            end.

(** The answer is a 400 or a 500. *)
Definition failed (r : response) : Prop := status r = 400 \/ status r = 500.

End Wf.
Export Wf.

(* ================================================================== *)
(** ** Properties                                                      *)
(* ================================================================== *)

Lemma num_eq_refl (a : jsnum) : a =n= a.
Proof. destruct a; simpl; [exact I | reflexivity]. Qed.

Lemma num_eq_sym (a b : jsnum) : a =n= b -> b =n= a.
Proof. destruct a, b; simpl; auto. intros H; symmetry; exact H. Qed.

Lemma num_eq_trans (a b c : jsnum) : a =n= b -> b =n= c -> a =n= c.
Proof.
  destruct a, b, c; simpl; auto; try contradiction.
  intros H1 H2; rewrite H1; exact H2.
Qed.

Lemma add_compat (a a' b b' : jsnum) :
  a =n= a' -> b =n= b' -> add a b =n= add a' b'.
Proof.
  destruct a, a', b, b'; simpl; auto; try contradiction.
  intros H1 H2; rewrite H1, H2; reflexivity.
Qed.

Lemma add_assoc (a b c : jsnum) : add (add a b) c =n= add a (add b c).
Proof. destruct a, b, c; simpl; auto. symmetry; apply Qplus_assoc. Qed.

Lemma filter_nil_iff {A} (f : A -> bool) (l : list A) :
  filter f l = [] <-> (forall x, In x l -> f x = false).
Proof.
  induction l as [|a l IH]; simpl.
  - split; [intros _ x [] | reflexivity].
  - destruct (f a) eqn:Ha.
    + split; [discriminate|]. intros H. specialize (H a (or_introl eq_refl)).
      congruence.
    + rewrite IH. split.
      * intros H x [<-|Hx]; auto.
      * intros H x Hx; apply H; auto.
Qed.

Lemma length_filter_zero {A} (f : A -> bool) (l : list A) :
  Nat.eqb (List.length (filter f l)) 0 = true <->
  (forall x, In x l -> f x = false).
Proof.
  rewrite <- filter_nil_iff. destruct (filter f l); simpl; split;
    congruence || reflexivity || discriminate.
Qed.

(* ------------------------------------------------------------------ *)
(** *** Creating an invoice: validation                                 *)
(* ------------------------------------------------------------------ *)

(** C10.  A create-invoice request whose days_in_garage is the number 0 is
    answered 400 "Vehicle ID and days in garage are required." whatever its
    vehicle_id is, and the store is left exactly as it was: the guard
    [!days_in_garage] takes 0 for a missing value. *)
Theorem post_invoice_rejects_zero_days
    {rt : Runtime} (body : jsval) (q : Q) (d : db) :
  field "days_in_garage" body = JNum (Num q) ->
  q == 0 ->
  post_invoice body d =
    (json_error 400 "Vehicle ID and days in garage are required.", d).
Proof.
  intros Hdays Hq.
  unfold post_invoice, try_catch. rewrite Hdays.
  assert (Hfalsy : truthy (JNum (Num q)) = false).
  { simpl. unfold is_zero. apply negb_false_iff, Qeq_bool_iff, Hq. }
  rewrite Hfalsy. rewrite orb_true_r. reflexivity.
Qed.

Lemma post_invoice_rejects_zero_days_witness :
  truthy (field "vehicle_id"
            (JObj [("vehicle_id", Examples.num 1);
                   ("days_in_garage", Examples.num 0)])) = true /\
  post_invoice (rt := Examples.runtime)
    (JObj [("vehicle_id", Examples.num 1);
           ("days_in_garage", Examples.num 0)]) Examples.garage =
    (json_error 400 "Vehicle ID and days in garage are required.",
     Examples.garage).
Proof.
  split; [reflexivity|].
  apply (post_invoice_rejects_zero_days (rt := Examples.runtime)
           (JObj [("vehicle_id", Examples.num 1);
                  ("days_in_garage", Examples.num 0)]) (inject_Z 0)).
  - reflexivity.
  - reflexivity.
Defined.

(* ------------------------------------------------------------------ *)
(** *** Leaving the garage                                              *)
(* ------------------------------------------------------------------ *)

Lemma not_completed_text (s : string) :
  not_completed (JStr s) = true <-> s <> "completed".
Proof.
  simpl. rewrite negb_true_iff. split.
  - intros H ->. rewrite String.eqb_refl in H. discriminate.
  - intros H. apply String.eqb_neq. exact H.
Qed.

(** The test [status != 'completed'] of the exit guard holds of the
    values, NULL apart, that are not the text 'completed'. *)
Lemma not_completed_spec (st : jsval) :
  not_completed st = true <->
  st <> JNull /\ st <> JUndefined /\ st <> JStr "completed".
Proof.
  destruct st as [| |b|n|s|l|l]; simpl;
    try (split; [intros _; repeat split; discriminate | reflexivity]);
    try (split; [discriminate | intros (H1 & H2 & _); congruence]).
  rewrite negb_true_iff. split.
  - intros H. repeat split; try discriminate. intros E. inversion E; subst.
    rewrite String.eqb_refl in H. discriminate H.
  - intros (_ & _ & H). apply String.eqb_neq. congruence.
Qed.

Lemma count_open_services_pos (id : Z) (d : db) :
  (count_open_services id d >? 0) = true <-> has_open_service id d.
Proof.
  unfold count_open_services, has_open_service.
  set (f := fun r => (vs_vehicle_id r =? id) && not_completed (vs_status r)).
  split.
  - intros H. destruct (filter f (vehicle_services d)) as [|r l] eqn:E.
    + simpl in H. discriminate.
    + assert (Hr : In r (filter f (vehicle_services d)))
        by (rewrite E; left; reflexivity).
      apply filter_In in Hr. destruct Hr as [Hin Hf].
      unfold f in Hf. apply andb_true_iff in Hf. destruct Hf as [H1 H2].
      apply not_completed_spec in H2.
      exists r. split; [exact Hin|]. split; [apply Z.eqb_eq; exact H1|].
      exact H2.
  - intros (r & Hin & Hid & Hst).
    assert (Hr : In r (filter f (vehicle_services d))).
    { apply filter_In. split; auto. unfold f.
      rewrite (proj2 (not_completed_spec _) Hst), andb_true_r.
      apply Z.eqb_eq; exact Hid. }
    destruct (filter f (vehicle_services d)); [destruct Hr|].
    simpl List.length. apply Z.gtb_lt. lia.
Qed.

Lemma completed_not_open (id : Z) (d : db) :
  all_services_completed id d -> ~ has_open_service id d.
Proof.
  intros Hall (r & Hin & Hid & _ & _ & Hst). exact (Hst (Hall r Hin Hid)).
Qed.

Lemma count_invoices_zero (id : Z) (d : db) :
  (count_invoices id d =? 0) = true <-> ~ has_invoice id d.
Proof.
  unfold count_invoices, has_invoice.
  set (f := fun i => id_eqb (i_vehicle_id i) id).
  split.
  - intros H (i & Hin & Hid).
    assert (Hi : In i (filter f (invoices d))).
    { apply filter_In. split; auto. unfold f. rewrite Hid. simpl.
      apply Z.eqb_refl. }
    destruct (filter f (invoices d)); [destruct Hi|].
    simpl List.length in H. apply Z.eqb_eq in H. lia.
  - intros H. destruct (filter f (invoices d)) as [|i l] eqn:E.
    + reflexivity.
    + exfalso. apply H.
      assert (Hi : In i (filter f (invoices d)))
        by (rewrite E; left; reflexivity).
      apply filter_In in Hi. destruct Hi as [Hin Hf]. exists i. split; auto.
      unfold f, id_eqb in Hf. destruct (i_vehicle_id i); [|discriminate].
      apply Z.eqb_eq in Hf. congruence.
Qed.

Lemma vehicle_set_exit_id (t id : Z) (v : vehicle) :
  v_id (vehicle_set_exit t id v) = v_id v.
Proof. unfold vehicle_set_exit. destruct (v_id v =? id); reflexivity. Qed.

(** The guards of PUT /api/vehicles/:id/exit.  An exit request on a
    vehicle that has a service whose status is a value, not NULL, other
    than 'completed' is answered 400 and changes nothing.  When every
    service of the vehicle has the status 'completed': if the vehicle has
    no invoice the request is answered 400 and changes nothing, otherwise
    it is answered 200 and the exit_time of the vehicle is the current time
    of the store, every other row being left as it was.  In the two failing
    cases the store is the same afterwards, so an exit_time that was NULL
    is still NULL. *)
Theorem put_vehicle_exit_guards (id now : Z) (d : db) :
  (has_open_service id d ->
     put_vehicle_exit id now d =
       (json_error 400 "All services must be completed before exiting.", d))
  /\
  (all_services_completed id d -> ~ has_invoice id d ->
     put_vehicle_exit id now d =
       (json_error 400 "Invoice must be generated before exiting.", d))
  /\
  (all_services_completed id d -> has_invoice id d ->
     exists d',
       put_vehicle_exit id now d =
         ({| status := 200; sent := Message "Vehicle exited successfully." |},
          d')
       /\ (forall v', In v' (vehicles d') -> v_id v' = id ->
                      v_exit_time v' = Some now)
       /\ (vehicle_exists id d -> vehicle_exists id d')
       /\ (forall v, v_id v <> id ->
                     (In v (vehicles d') <-> In v (vehicles d)))
       /\ set_vehicles d' (vehicles d) = d).
Proof.
  unfold put_vehicle_exit. repeat split.
  - intros Ho. apply count_open_services_pos in Ho. rewrite Ho. reflexivity.
  - intros Hall Hni. pose proof (completed_not_open id d Hall) as Hno.
    destruct (count_open_services id d >? 0) eqn:E.
    { exfalso. apply Hno. apply count_open_services_pos. exact E. }
    apply count_invoices_zero in Hni. rewrite Hni. reflexivity.
  - intros Hall Hi. pose proof (completed_not_open id d Hall) as Hno.
    destruct (count_open_services id d >? 0) eqn:E.
    { exfalso. apply Hno. apply count_open_services_pos. exact E. }
    destruct (count_invoices id d =? 0) eqn:E2.
    { exfalso. apply count_invoices_zero in E2. contradiction. }
    simpl. eexists. split; [reflexivity|]. simpl. repeat split.
    + intros v' Hin Hid. apply in_map_iff in Hin.
      destruct Hin as (v & <- & Hv). rewrite vehicle_set_exit_id in Hid.
      unfold vehicle_set_exit. apply Z.eqb_eq in Hid. rewrite Hid.
      reflexivity.
    + intros (v & Hv & Hid). exists (vehicle_set_exit now id v). split.
      * apply in_map. exact Hv.
      * rewrite vehicle_set_exit_id. exact Hid.
    + intros Hin. apply in_map_iff in Hin. destruct Hin as (v0 & Heq & Hv0).
      unfold vehicle_set_exit in Heq. destruct (v_id v0 =? id) eqn:E3.
      * exfalso. apply H. rewrite <- Heq. simpl. apply Z.eqb_eq. exact E3.
      * subst. exact Hv0.
    + intros Hin. apply in_map_iff. exists v. split; auto.
      unfold vehicle_set_exit. apply Z.eqb_neq in H. rewrite H. reflexivity.
    + destruct d; reflexivity.
Qed.

Lemma put_vehicle_exit_guards_witness :
  (has_open_service 1 Examples.garage_pending /\
   put_vehicle_exit 1 5000 Examples.garage_pending =
     (json_error 400 "All services must be completed before exiting.",
      Examples.garage_pending))
  /\
  (all_services_completed 1 Examples.garage /\
   ~ has_invoice 1 Examples.garage /\
   put_vehicle_exit 1 5000 Examples.garage =
     (json_error 400 "Invoice must be generated before exiting.",
      Examples.garage))
  /\
  (all_services_completed 1 Examples.garage_invoiced /\
   has_invoice 1 Examples.garage_invoiced /\
   exists d',
     put_vehicle_exit 1 5000 Examples.garage_invoiced =
       ({| status := 200; sent := Message "Vehicle exited successfully." |},
        d')
     /\ (forall v', In v' (vehicles d') -> v_id v' = 1 ->
                    v_exit_time v' = Some 5000)).
Proof.
  assert (Hopen : has_open_service 1 Examples.garage_pending).
  { eexists. split; [left; reflexivity|]. split; [reflexivity|].
    repeat split; discriminate. }
  assert (Hdone : all_services_completed 1 Examples.garage).
  { intros r [<-|[]] _. reflexivity. }
  assert (Hnone : ~ has_invoice 1 Examples.garage).
  { apply count_invoices_zero. reflexivity. }
  assert (Hdone' : all_services_completed 1 Examples.garage_invoiced).
  { intros r [<-|[]] _. reflexivity. }
  assert (Hinv : has_invoice 1 Examples.garage_invoiced).
  { eexists. split; [left; reflexivity | reflexivity]. }
  split; [|split].
  - split; [exact Hopen|].
    exact (proj1 (put_vehicle_exit_guards 1 5000 Examples.garage_pending)
                 Hopen).
  - split; [exact Hdone|]. split; [exact Hnone|].
    exact (proj1 (proj2 (put_vehicle_exit_guards 1 5000 Examples.garage))
                 Hdone Hnone).
  - split; [exact Hdone'|]. split; [exact Hinv|].
    destruct (proj2 (proj2 (put_vehicle_exit_guards 1 5000
                              Examples.garage_invoiced)) Hdone' Hinv)
      as (d' & Heq & Hset & _).
    exists d'. split; [exact Heq | exact Hset].
Defined.

(** C4: a service that is not completed does not always hold the vehicle
    back.  A vehicle registered for an oil change and invoiced is refused
    the exit while the service is 'pending'.  A status update that carries
    no status is answered 200 and leaves the service without a status (NULL
    in the table); the service is not 'completed', yet the exit request
    that follows
    is answered 200 and stamps exit_time: the guard counts the rows with
    [status != 'completed'], which is not true of NULL. *)
Theorem exit_despite_unfinished_service :
  status (fst (serve (rt := Examples.runtime) Examples.arrival 3000
                 Examples.garage)) = 201
  /\ serve (rt := Examples.runtime) Examples.billing 3100
        (snd (serve (rt := Examples.runtime) Examples.arrival 3000
                Examples.garage))
     = ({| status := 201; sent := InvoiceCreated 1 |},
        Examples.garage_billed)
  /\ serve (rt := Examples.runtime) Examples.leaving 3200
        Examples.garage_billed
     = (json_error 400 "All services must be completed before exiting.",
        Examples.garage_billed)
  /\ status (fst (serve (rt := Examples.runtime)
                    Examples.update_without_status 3300
                    Examples.garage_billed)) = 200
  /\ (exists r,
        In r (vehicle_services
                (snd (serve (rt := Examples.runtime)
                        Examples.update_without_status 3300
                        Examples.garage_billed)))
        /\ vs_vehicle_id r = 2 /\ vs_status r <> JStr "completed")
  /\ exit_time_of 2
       (snd (serve (rt := Examples.runtime) Examples.update_without_status
               3300 Examples.garage_billed)) = Some None
  /\ status (fst (serve (rt := Examples.runtime) Examples.leaving 3400
                    (snd (serve (rt := Examples.runtime)
                            Examples.update_without_status 3300
                            Examples.garage_billed)))) = 200
  /\ exit_time_of 2
       (snd (serve (rt := Examples.runtime) Examples.leaving 3400
               (snd (serve (rt := Examples.runtime)
                       Examples.update_without_status 3300
                       Examples.garage_billed)))) = Some (Some 3400).
Proof.
  split; [reflexivity|]. split; [vm_compute; reflexivity|].
  split; [vm_compute; reflexivity|]. split; [reflexivity|].
  split.
  { eexists. split; [right; left; reflexivity|]. split; [reflexivity|].
    discriminate. }
  split; [reflexivity|]. split; reflexivity.
Qed.

(* ------------------------------------------------------------------ *)
(** *** Worker payments                                                 *)
(* ------------------------------------------------------------------ *)

(** C8 (as amended).  Adding a payment is answered 400 "Invalid amount"
    exactly when [amount] is falsy (absent, null, false, the empty string,
    and also the number 0) or [Number(amount)] is NaN.  Otherwise it is
    answered 201 and one row is appended whose payment_date is the time
    value of [new Date(payment_date)] when [payment_date] is truthy and
    that date is valid, and the current time of the store in every other
    case. *)
Theorem post_worker_payment_validation
    {rt : Runtime} (id : Z) (body : jsval) (now : Z) (d : db) :
  let amount := field "amount" body in
  let payment_date := field "payment_date" body in
  let result := post_worker_payment id body now d in
  (status (fst result) = 400 <->
     truthy amount = false \/ isNaN (Number amount) = true)
  /\
  (fst result = json_error 400 "Invalid amount" /\ snd result = d
   \/
   exists row,
     result = ({| status := 201; sent := PaymentRow row |},
               set_seqs (set_worker_payments d (worker_payments d ++ [row]))
                        (bump_worker_payments (seqs d)))
     /\ wp_worker_id row = id
     /\ wp_amount row = Number amount
     /\ (forall t, truthy payment_date = true ->
                   Date_time payment_date = Some t ->
                   wp_payment_date row = t)
     /\ (truthy payment_date = false \/ Date_time payment_date = None ->
         wp_payment_date row = now)).
Proof.
  intros amount payment_date result. subst result.
  unfold post_worker_payment. fold amount. fold payment_date.
  destruct (negb (truthy amount) || isNaN (Number amount)) eqn:E.
  - split.
    + simpl. split; [intros _|reflexivity].
      apply orb_true_iff in E. destruct E as [E|E]; [left|right]; auto.
      apply negb_true_iff; exact E.
    + left. split; reflexivity.
  - apply orb_false_iff in E. destruct E as [E1 E2].
    apply negb_false_iff in E1.
    split.
    + simpl. split; [discriminate|].
      intros [H|H]; congruence.
    + right. unfold insert_worker_payment. eexists. split; [reflexivity|].
      simpl. repeat split.
      * intros t Ht Hd. rewrite Ht, Hd. reflexivity.
      * intros [H|H].
        -- rewrite H. reflexivity.
        -- destruct (truthy payment_date); [rewrite H|]; reflexivity.
Qed.

Lemma post_worker_payment_validation_witness :
  truthy (Examples.num 1700000000000) = true /\
  Date_time (Runtime := Examples.runtime) (Examples.num 1700000000000)
    = Some 1700000000000 /\
  exists row d',
    post_worker_payment (rt := Examples.runtime) 7
      (JObj [("amount", Examples.num 2500);
             ("payment_date", Examples.num 1700000000000)])
      9000 Examples.garage
    = ({| status := 201; sent := PaymentRow row |}, d')
    /\ wp_payment_date row = 1700000000000.
Proof.
  split; [reflexivity|]. split; [reflexivity|].
  destruct (post_worker_payment_validation (rt := Examples.runtime) 7
              (JObj [("amount", Examples.num 2500);
                     ("payment_date", Examples.num 1700000000000)])
              9000 Examples.garage) as [_ [[H _]|(row & Heq & _ & _ & Hd & _)]].
  - discriminate H.
  - exists row. eexists. split; [exact Heq|].
    apply Hd; reflexivity.
Defined.

(** C8 as stated fails: the amount 0 is present and numeric, yet the
    request is answered 400. *)
Lemma post_worker_payment_rejects_zero_amount :
  let body := JObj [("amount", Examples.num 0)] in
  eq_null (field "amount" body) = false /\
  isNaN (Number (rt := Examples.runtime) (field "amount" body)) = false /\
  post_worker_payment (rt := Examples.runtime) 7 body 9000 Examples.garage
    = (json_error 400 "Invalid amount", Examples.garage).
Proof. repeat split. Qed.

(* ------------------------------------------------------------------ *)
(** *** Deleting a worker                                               *)
(* ------------------------------------------------------------------ *)

Lemma delete_worker_unfold (id : Z) (d : db) :
  delete_worker id d =
    (if Nat.eqb (List.length (filter (fun w => w_id w =? id) (workers d))) 0
     then json_error 404 "Worker not found"
     else {| status := 204; sent := Empty |},
     set_workers
       (set_worker_payments
          (set_services d
             (map (fun s => if id_eqb (s_worker_id s) id
                            then service_set_worker None s else s)
                  (services d)))
          (filter (fun p => negb (wp_worker_id p =? id)) (worker_payments d)))
       (filter (fun w => negb (w_id w =? id)) (workers d))).
Proof.
  unfold delete_worker, try_catch. cbn.
  destruct (Nat.eqb _ 0); reflexivity.
Qed.



(* ------------------------------------------------------------------ *)
(** *** Reasoning about a client                                        *)
(* ------------------------------------------------------------------ *)

Section Keeps.
Context {X : Type} (f : conn -> X).

Lemma keeps_ret {A} (a : A) : keeps f (ret a).
Proof. intros c; reflexivity. Qed.

Lemma keeps_throw {A} (msg : string) : keeps f (@throw A msg).
Proof. intros c; reflexivity. Qed.

Lemma keeps_bind {A B} (m : tx A) (k : A -> tx B) :
  keeps f m -> (forall a, keeps f (k a)) -> keeps f (bind m k).
Proof.
  intros Hm Hk c. unfold bind. specialize (Hm c).
  destruct (m c) as [a c'|msg c']; simpl in *.
  - rewrite Hk. exact Hm.
  - exact Hm.
Qed.

Lemma keeps_for_of {A} (l : list A) (body : A -> tx unit) :
  (forall x, keeps f (body x)) -> keeps f (for_of l body).
Proof.
  intros Hb. induction l as [|x l IH]; simpl.
  - apply keeps_ret.
  - apply keeps_bind; auto.
Qed.

Lemma keeps_for_of_acc {A S} (l : list A) (body : S -> A -> tx S) (s : S) :
  (forall s x, keeps f (body s x)) -> keeps f (for_of_acc l body s).
Proof.
  intros Hb. revert s. induction l as [|x l IH]; intros s; simpl.
  - apply keeps_ret.
  - apply keeps_bind; auto.
Qed.

Lemma keeps_prop (name : string) (x : jsval) :
  keeps f (prop name x).
Proof. destruct x; intros c; reflexivity. Qed.

Lemma keeps_bind_int {rt : Runtime} (v : jsval) : keeps f (bind_int v).
Proof. intros c. unfold bind_int. destruct (int_accepted v); reflexivity. Qed.

Lemma keeps_for_array (xs : jsval) (body : jsval -> tx unit) :
  (forall x, keeps f (body x)) -> keeps f (for_array xs body).
Proof.
  intros Hb. unfold for_array. destruct (as_array xs).
  - apply keeps_for_of; auto.
  - apply keeps_ret.
Qed.

Lemma keeps_for_array_acc (xs : jsval)
    (body : jsnum -> jsval -> tx jsnum) (acc : jsnum) :
  (forall s x, keeps f (body s x)) -> keeps f (for_array_acc xs body acc).
Proof.
  intros Hb. unfold for_array_acc. destruct (as_array xs).
  - apply keeps_for_of_acc; auto.
  - apply keeps_ret.
Qed.
End Keeps.

(** A statement leaves the snapshot taken at BEGIN alone. *)
Lemma keeps_begin_query {A} (stmt : db -> A * db) :
  keeps at_begin (query stmt).
Proof. intros c. unfold query. destruct (stmt (current c)). reflexivity. Qed.

(** A statement that does not write a table keeps it. *)
Lemma keeps_table_query {A X} (g : db -> X) (stmt : db -> A * db) :
  (forall d, g (snd (stmt d)) = g d) ->
  keeps (fun c => g (current c)) (query stmt).
Proof.
  intros H c. unfold query. specialize (H (current c)).
  destruct (stmt (current c)). exact H.
Qed.

Ltac keeps_tac :=
  repeat first
    [ apply keeps_ret
    | apply keeps_throw
    | apply keeps_prop
    | apply keeps_bind_int
    | apply keeps_begin_query
    | (apply keeps_table_query; intros; reflexivity)
    | (apply keeps_bind; [|intros])
    | (apply keeps_for_array; intros)
    | (apply keeps_for_array_acc; intros)
    | (apply keeps_for_of; intros)
    | (apply keeps_for_of_acc; intros) ].

(** What the loops of the handlers leave alone. *)

Lemma service_loop_keeps_begin {rt : Runtime} (id : Z) xs acc :
  keeps at_begin (for_array_acc xs (invoice_service_line id) acc).
Proof. unfold invoice_service_line. keeps_tac. Qed.

Lemma part_line_keeps_begin {rt : Runtime} (id : Z) acc part :
  keeps at_begin (invoice_part_line id acc part).
Proof.
  unfold invoice_part_line.
  apply keeps_bind; [apply keeps_prop|]. intros part_id.
  apply keeps_bind; [apply keeps_bind_int|]. intros pid.
  apply keeps_bind; [apply keeps_begin_query|]. intros rows.
  destruct rows as [|row rows]; [apply keeps_throw|]. keeps_tac.
Qed.

Lemma part_loop_keeps_begin {rt : Runtime} (id : Z) xs acc :
  keeps at_begin (for_array_acc xs (invoice_part_line id) acc).
Proof. apply keeps_for_array_acc; intros; apply part_line_keeps_begin. Qed.

Lemma service_loop_keeps_table {rt : Runtime} {X} (g : db -> X)
    (id : Z) xs acc :
  (forall d new,
     g (set_seqs (set_invoice_items d new) (bump_invoice_items (seqs d)))
     = g d) ->
  keeps (fun c => g (current c))
        (for_array_acc xs (invoice_service_line id) acc).
Proof.
  intros Hg. unfold invoice_service_line. keeps_tac.
  apply keeps_table_query. intros d. apply Hg.
Qed.

Lemma part_line_keeps_table {rt : Runtime} {X} (g : db -> X)
    (id : Z) acc part :
  (forall d new,
     g (set_seqs (set_invoice_items d new) (bump_invoice_items (seqs d)))
     = g d) ->
  keeps (fun c => g (current c)) (invoice_part_line id acc part).
Proof.
  intros Hg. unfold invoice_part_line.
  apply keeps_bind; [apply keeps_prop|]. intros part_id.
  apply keeps_bind; [apply keeps_bind_int|]. intros pid.
  apply keeps_bind; [apply keeps_table_query; reflexivity|]. intros rows.
  destruct rows as [|row rows]; [apply keeps_throw|].
  apply keeps_bind; [|intros; apply keeps_ret].
  apply keeps_table_query. intros d. apply Hg.
Qed.

Lemma part_loop_keeps_table {rt : Runtime} {X} (g : db -> X)
    (id : Z) xs acc :
  (forall d new,
     g (set_seqs (set_invoice_items d new) (bump_invoice_items (seqs d)))
     = g d) ->
  keeps (fun c => g (current c))
        (for_array_acc xs (invoice_part_line id) acc).
Proof.
  intros Hg. apply keeps_for_array_acc; intros.
  apply part_line_keeps_table. exact Hg.
Qed.

(* ------------------------------------------------------------------ *)
(** *** Creating an invoice: rollback                                   *)
(* ------------------------------------------------------------------ *)

Lemma part_line_missing {rt : Runtime} (id : Z) acc part c :
  part_missing (current c) part ->
  exists msg, invoice_part_line id acc part c = Thrown msg c.
Proof.
  intros Hm. unfold invoice_part_line, part_missing in *.
  assert (Hnone : filter (fun p => id_eqb (sql_int (field "id" part)) (p_id p))
                         (parts (current c)) = []).
  { apply filter_nil_iff. intros p Hp. specialize (Hm p Hp).
    destruct (sql_int (field "id" part)) as [x|]; simpl; auto.
    apply Z.eqb_neq. congruence. }
  destruct part; try (eexists; reflexivity);
    unfold bind, prop, ret, bind_int;
    (destruct (int_accepted _); [|eexists; reflexivity]);
    unfold ret, query, select_part_costs; simpl in *;
    rewrite Hnone; eexists; destruct c; reflexivity.
Qed.

Lemma part_loop_throws {rt : Runtime} (id : Z) l : forall acc c,
  (exists part, In part l /\ part_missing (current c) part) ->
  exists msg c', for_of_acc l (invoice_part_line id) acc c = Thrown msg c'.
Proof.
  induction l as [|x l IH]; intros acc c (part & Hin & Hm).
  - destruct Hin.
  - simpl. unfold bind.
    destruct (invoice_part_line id acc x c) as [s' c1|msg c1] eqn:E.
    + assert (Hp : parts (current c1) = parts (current c)).
      { pose proof (part_line_keeps_table parts id acc x
                      (fun _ _ => eq_refl) c) as H.
        rewrite E in H. exact H. }
      destruct Hin as [->|Hin].
      * destruct (part_line_missing id acc part c Hm) as (msg & Hthrow).
        congruence.
      * apply IH. exists part. split; auto.
        unfold part_missing in *. rewrite Hp. exact Hm.
    + eauto.
Qed.


Lemma post_invoice_refused {rt : Runtime} (body : jsval) (d : db) :
  truthy (field "vehicle_id" body) = true ->
  truthy (field "days_in_garage" body) = true ->
  int_accepted (field "vehicle_id" body) = false ->
  post_invoice body d =
    (json_error 500 "Server error generating invoice", rollback d d).
Proof.
  intros Hv Hd Ha. unfold post_invoice, try_catch. rewrite Hv, Hd.
  cbn [negb orb]. unfold bind at 1. cbn [BEGIN connect current at_begin].
  unfold bind at 1. unfold bind_int. rewrite Ha. reflexivity.
Qed.

Lemma post_invoice_run {rt : Runtime} (body : jsval) (d : db) :
  truthy (field "vehicle_id" body) = true ->
  truthy (field "days_in_garage" body) = true ->
  int_accepted (field "vehicle_id" body) = true ->
  let id := seq_invoices (seqs d) in
  let d1 := snd (insert_invoice (sql_int (field "vehicle_id" body))
                                (field "days_in_garage" body) d) in
  post_invoice body d =
    match for_array_acc (field "services" body) (invoice_service_line id)
            (Num 0) {| at_begin := d; current := d1 |} with
    | Thrown _ c =>
        (json_error 500 "Server error generating invoice",
         rollback (at_begin c) (current c))
    | Done t1 c1 =>
        match for_array_acc (field "parts" body) (invoice_part_line id)
                t1 c1 with
        | Thrown _ c =>
            (json_error 500 "Server error generating invoice",
             rollback (at_begin c) (current c))
        | Done t2 c2 =>
            let subtotal :=
              add t2 (mul (Number (field "days_in_garage" body)) (Num 5000)) in
            let tax := mul subtotal (Num (18 # 100)) in
            ({| status := 201; sent := InvoiceCreated id |},
             snd (update_invoice_totals subtotal tax (add subtotal tax) id
                    (current c2)))
        end
    end.
Proof.
  intros Hv Hd Ha id d1. unfold post_invoice, try_catch. rewrite Hv, Hd.
  cbn [negb orb]. unfold bind at 1. cbn [BEGIN connect current at_begin].
  unfold bind at 1. unfold bind_int. rewrite Ha. unfold ret at 1.
  unfold bind at 1. unfold query at 1. 
  cbn [current at_begin insert_invoice].
  cbn [i_id]. subst d1. cbn [insert_invoice snd i_id]. fold id.
  unfold bind at 1.
  destruct (for_array_acc (field "services" body) _ _ _) as [t1 c1|m1 c1];
    [|reflexivity].
  unfold bind at 1.
  destruct (for_array_acc (field "parts" body) _ _ _) as [t2 c2|m2 c2];
    [|reflexivity].
  reflexivity.
Qed.

(** C2.  A create-invoice request whose [parts] array holds a line whose
    id matches no row of parts fails (400 when the request does not pass
    validation, 500 otherwise) and leaves every table as it was; in
    particular invoices and invoice_items hold no new row: the placeholder
    invoice and the items inserted before the failing line are rolled
    back.  Only the id sequences may have advanced. *)
Theorem post_invoice_missing_part_rolls_back
    {rt : Runtime} (body : jsval) (d : db) (l : list jsval) :
  as_array (field "parts" body) = Some l ->
  (exists part, In part l /\ part_missing d part) ->
  (status (fst (post_invoice body d)) = 400 \/
   status (fst (post_invoice body d)) = 500)
  /\ same_rows d (snd (post_invoice body d))
  /\ invoices (snd (post_invoice body d)) = invoices d
  /\ invoice_items (snd (post_invoice body d)) = invoice_items d.
Proof.
  intros Harr Hmiss.
  destruct (truthy (field "vehicle_id" body)) eqn:Hv;
    [destruct (truthy (field "days_in_garage" body)) eqn:Hd;
     [destruct (int_accepted (field "vehicle_id" body)) eqn:Ha|]|].
  - rewrite (post_invoice_run body d Hv Hd Ha).
    set (id := seq_invoices (seqs d)).
    set (c0 := {| at_begin := d; current := _ |}).
    pose proof (service_loop_keeps_begin id (field "services" body) (Num 0) c0)
      as Hb1.
    pose proof (service_loop_keeps_table parts id (field "services" body)
                  (Num 0) (fun _ _ => eq_refl) c0) as Hp1.
    destruct (for_array_acc (field "services" body) _ _ c0) as [t1 c1|m1 c1];
      simpl in Hb1, Hp1.
    + pose proof (part_loop_keeps_begin id (field "parts" body) t1 c1) as Hb2.
      destruct (part_loop_throws id l t1 c1) as (msg & c2 & Hthrow).
      { destruct Hmiss as (part & Hin & Hm). exists part. split; auto.
        unfold part_missing in *. simpl in Hp1. rewrite Hp1. exact Hm. }
      unfold for_array_acc in *. rewrite Harr in *. rewrite Hthrow in *.
      simpl in Hb2. simpl. rewrite Hb2, Hb1. simpl.
      repeat split; auto. 
    + simpl. rewrite Hb1. simpl. repeat split; auto.
  - rewrite (post_invoice_refused body d Hv Hd Ha). simpl.
    repeat split; auto.
  - unfold post_invoice, try_catch. rewrite Hv, Hd. simpl.
    repeat split; auto. unfold same_rows. destruct d; reflexivity.
  - unfold post_invoice, try_catch. rewrite Hv. simpl.
    repeat split; auto. unfold same_rows. destruct d; reflexivity.
Qed.

Lemma post_invoice_missing_part_rolls_back_witness :
  as_array (field "parts" Examples.bad_invoice_body)
    = Some [JObj [("id", Examples.num 5); ("quantity", Examples.num 2)];
            Examples.bad_part_line] /\
  part_missing (rt := Examples.runtime) Examples.garage
    Examples.bad_part_line /\
  status (fst (post_invoice (rt := Examples.runtime)
                 Examples.bad_invoice_body Examples.garage)) = 500 /\
  invoices (snd (post_invoice (rt := Examples.runtime)
                   Examples.bad_invoice_body Examples.garage)) = [] /\
  invoice_items (snd (post_invoice (rt := Examples.runtime)
                        Examples.bad_invoice_body Examples.garage)) = [].
Proof.
  assert (Hm : part_missing (rt := Examples.runtime) Examples.garage
                 Examples.bad_part_line).
  { intros p [<-|[]]. discriminate. }
  split; [reflexivity|]. split; [exact Hm|].
  destruct (post_invoice_missing_part_rolls_back (rt := Examples.runtime)
              Examples.bad_invoice_body Examples.garage _ eq_refl)
    as (Hst & _ & Hinv & Hit).
  { exists Examples.bad_part_line. split; [right; left; reflexivity|exact Hm]. }
  split; [|split; [exact Hinv | exact Hit]].
  destruct Hst as [Hst|Hst]; [discriminate Hst | exact Hst].
Defined.

(* ------------------------------------------------------------------ *)
(** *** Creating an invoice: the stored totals                          *)
(* ------------------------------------------------------------------ *)

Lemma with_items_nil (d : db) : with_items d [] = d.
Proof.
  destruct d as [? ? ? ? ? ? ? ? ? ? []]. unfold with_items, set_seqs,
    set_invoice_items. simpl. rewrite app_nil_r, Z.add_0_r. reflexivity.
Qed.

Lemma with_items_app (d : db) (a b : list invoice_item) :
  with_items (with_items d a) b = with_items d (a ++ b).
Proof.
  unfold with_items, set_seqs, set_invoice_items. simpl.
  rewrite <- app_assoc, length_app, Nat2Z.inj_add, Z.add_assoc. reflexivity.
Qed.

Lemma running_total_app (acc : jsnum) (a b : list invoice_item) :
  running_total acc (a ++ b) = running_total (running_total acc a) b.
Proof. unfold running_total. apply fold_left_app. Qed.

Lemma service_line_done {rt : Runtime} (id : Z) acc svc c acc' c' :
  invoice_service_line id acc svc c = Done acc' c' ->
  exists it,
    c' = {| at_begin := at_begin c; current := with_items (current c) [it] |}
    /\ ii_invoice_id it = id /\ acc' = add acc (ii_total it).
Proof.
  unfold invoice_service_line.
  destruct svc; try discriminate;
    unfold bind, prop, ret, bind_int;
    (destruct (int_accepted _); [|discriminate]);
    unfold ret, query; simpl; intros H; inversion H; subst;
    eexists; (split; [reflexivity|]); split; reflexivity.
Qed.

Lemma part_line_done {rt : Runtime} (id : Z) acc part c acc' c' :
  invoice_part_line id acc part c = Done acc' c' ->
  exists it,
    c' = {| at_begin := at_begin c; current := with_items (current c) [it] |}
    /\ ii_invoice_id it = id /\ acc' = add acc (ii_total it).
Proof.
  unfold invoice_part_line.
  destruct part; try discriminate;
    unfold bind, prop, ret, bind_int;
    (destruct (int_accepted _); [|discriminate]);
    unfold ret, query, select_part_costs; simpl;
    match goal with |- context [filter ?f ?l] => destruct (filter f l) end;
    try discriminate;
    simpl; intros H; inversion H; subst;
    eexists; (split; [reflexivity|]); split; reflexivity.
Qed.

Lemma loop_done (line : jsnum -> jsval -> tx jsnum) (id : Z) :
  (forall acc x c acc' c',
     line acc x c = Done acc' c' ->
     exists it,
       c' = {| at_begin := at_begin c;
               current := with_items (current c) [it] |}
       /\ ii_invoice_id it = id /\ acc' = add acc (ii_total it)) ->
  forall l acc c acc' c',
    for_of_acc l line acc c = Done acc' c' ->
    exists new,
      c' = {| at_begin := at_begin c; current := with_items (current c) new |}
      /\ Forall (fun it => ii_invoice_id it = id) new
      /\ acc' = running_total acc new.
Proof.
  intros Hline. induction l as [|x l IH]; intros acc c acc' c' H.
  - simpl in H. inversion H; subst. exists []. rewrite with_items_nil.
    destruct c'; repeat split; constructor.
  - simpl in H. unfold bind in H.
    destruct (line acc x c) as [a1 c1|] eqn:E; [|discriminate].
    destruct (Hline _ _ _ _ _ E) as (it & -> & Hid & ->).
    destruct (IH _ _ _ _ H) as (new & -> & Hall & ->).
    exists (it :: new). simpl. rewrite with_items_app. simpl.
    repeat split; auto.
Qed.

Lemma array_loop_done (line : jsnum -> jsval -> tx jsnum)
    (id : Z) :
  (forall acc x c acc' c',
     line acc x c = Done acc' c' ->
     exists it,
       c' = {| at_begin := at_begin c;
               current := with_items (current c) [it] |}
       /\ ii_invoice_id it = id /\ acc' = add acc (ii_total it)) ->
  forall xs acc c acc' c',
    for_array_acc xs line acc c = Done acc' c' ->
    exists new,
      c' = {| at_begin := at_begin c; current := with_items (current c) new |}
      /\ Forall (fun it => ii_invoice_id it = id) new
      /\ acc' = running_total acc new.
Proof.
  intros Hline xs acc c acc' c' H. unfold for_array_acc in H.
  destruct (as_array xs).
  - eapply loop_done; eauto.
  - inversion H; subst. exists []. rewrite with_items_nil.
    destruct c'; repeat split; constructor.
Qed.

Lemma filter_all {A} (f : A -> bool) (l : list A) :
  (forall x, In x l -> f x = true) -> filter f l = l.
Proof.
  induction l as [|a l IH]; simpl; intros H; [reflexivity|].
  rewrite (H a (or_introl eq_refl)). f_equal. apply IH. intros; apply H; auto.
Qed.

Lemma filter_none {A} (f : A -> bool) (l : list A) :
  (forall x, In x l -> f x = false) -> filter f l = [].
Proof. apply filter_nil_iff. Qed.

Lemma map_unchanged {A} (f : A -> A) (l : list A) :
  (forall x, In x l -> f x = x) -> map f l = l.
Proof.
  induction l as [|a l IH]; simpl; intros H; [reflexivity|].
  rewrite (H a (or_introl eq_refl)). f_equal. apply IH. intros; apply H; auto.
Qed.

(** C1: the stored tax is not rounded.  The invoice created for a service
    of 3010 and one day in the garage has subtotal 8010; the handler stores
    the tax 8010 * 0.18 = 1441.8 as it is computed, where the rule
    tax = round(subtotal * 0.18), which the PDF route applies
    ([Math.round]), gives 1442. *)
Theorem post_invoice_tax_not_rounded :
  post_invoice (rt := Examples.runtime) Examples.odd_invoice_body
    Examples.garage
    = ({| status := 201; sent := InvoiceCreated 1 |},
       Examples.garage_odd_invoiced) /\
  exists inv,
    invoice_rows 1 Examples.garage_odd_invoiced = [inv]
    /\ i_subtotal inv =n= Num 8010
    /\ i_tax inv =n= Num (14418 # 10)
    /\ Math_round (mul (i_subtotal inv) tax_rate) =n= Num 1442
    /\ ~ (i_tax inv =n= Math_round (mul (i_subtotal inv) tax_rate)).
Proof.
  split; [vm_compute; reflexivity|].
  eexists. split; [reflexivity|].
  repeat split; try reflexivity.
  intros H. vm_compute in H. discriminate H.
Qed.

(* ------------------------------------------------------------------ *)
(** *** The invoice PDF                                                 *)
(* ------------------------------------------------------------------ *)

(** What the PDF prints for an invoice row: the stored subtotal, the tax
    recomputed from it and rounded, and their sum.  The stored tax and
    total are not read. *)
Lemma invoice_pdf_totals {rt : Runtime} (id : Z) (d : db) (inv : invoice)
    (v : option vehicle) (rest : list (invoice * option vehicle)) :
  select_invoice_with_vehicle id d = (inv, v) :: rest ->
  exists doc,
    get_invoice_pdf id d = ({| status := 200; sent := InvoicePdf doc |}, d)
    /\ pdf_subtotal doc = i_subtotal inv
    /\ pdf_tax doc = Math_round (mul (i_subtotal inv) tax_rate)
    /\ pdf_total doc = add (i_subtotal inv) (pdf_tax doc).
Proof.
  intros H. unfold get_invoice_pdf. rewrite H. eexists.
  split; [reflexivity|]. repeat split.
Qed.

Lemma Math_round_compat (a b : jsnum) :
  a =n= b -> Math_round a =n= Math_round b.
Proof.
  destruct a as [|x], b as [|y]; cbn [Math_round num_eq]; auto.
  intros H. rewrite H. reflexivity.
Qed.

(** The PDF of an invoice whose stored tax and total follow the rule of
    the create path prints the stored tax rounded to a whole number and
    the subtotal plus that rounded tax.  It shows the stored tax exactly
    when the stored tax is a whole number, and then it shows the stored
    total as well. *)
Lemma invoice_pdf_rounds_stored_tax {rt : Runtime} (id : Z) (d : db)
    (inv : invoice) (v : option vehicle)
    (rest : list (invoice * option vehicle)) :
  select_invoice_with_vehicle id d = (inv, v) :: rest ->
  i_tax inv =n= mul (i_subtotal inv) tax_rate ->
  i_total inv =n= add (i_subtotal inv) (i_tax inv) ->
  exists doc,
    get_invoice_pdf id d = ({| status := 200; sent := InvoicePdf doc |}, d)
    /\ pdf_tax doc =n= Math_round (i_tax inv)
    /\ pdf_total doc =n= add (i_subtotal inv) (Math_round (i_tax inv))
    /\ (pdf_tax doc =n= i_tax inv <-> Math_round (i_tax inv) =n= i_tax inv)
    /\ (pdf_tax doc =n= i_tax inv -> pdf_total doc =n= i_total inv).
Proof.
  intros Hsel Htax Htot.
  destruct (invoice_pdf_totals id d inv v rest Hsel)
    as (doc & Hpdf & Hsub & Hptax & Hptot).
  assert (Hround : pdf_tax doc =n= Math_round (i_tax inv)).
  { rewrite Hptax. apply Math_round_compat, num_eq_sym. exact Htax. }
  exists doc. split; [exact Hpdf|]. split; [exact Hround|].
  assert (Hptot' : pdf_total doc =n=
                   add (i_subtotal inv) (Math_round (i_tax inv))).
  { rewrite Hptot. apply add_compat; [apply num_eq_refl | exact Hround]. }
  split; [exact Hptot'|]. split.
  - split; intros H.
    + eapply num_eq_trans; [|exact H]. apply num_eq_sym. exact Hround.
    + eapply num_eq_trans; [exact Hround | exact H].
  - intros H. eapply num_eq_trans; [exact Hptot'|].
    eapply num_eq_trans; [|apply num_eq_sym; exact Htot].
    apply add_compat; [apply num_eq_refl|].
    eapply num_eq_trans; [|exact H]. apply num_eq_sym. exact Hround.
Qed.

(** C5: the two computations disagree.  For the invoice created from a
    service of 3010 and one day in the garage the store holds tax 1441.8
    and total 9451.8, and the PDF of that invoice prints tax 1442 and total
    9452. *)
Theorem invoice_pdf_disagrees_with_stored :
  post_invoice (rt := Examples.runtime) Examples.odd_invoice_body
    Examples.garage
    = ({| status := 201; sent := InvoiceCreated 1 |},
       Examples.garage_odd_invoiced) /\
  exists inv doc,
    invoice_rows 1 Examples.garage_odd_invoiced = [inv]
    /\ get_invoice_pdf (rt := Examples.runtime) 1 Examples.garage_odd_invoiced
       = ({| status := 200; sent := InvoicePdf doc |},
          Examples.garage_odd_invoiced)
    /\ i_tax inv =n= Num (14418 # 10)
    /\ pdf_tax doc =n= Num 1442
    /\ i_total inv =n= Num (94518 # 10)
    /\ pdf_total doc =n= Num 9452
    /\ ~ (pdf_tax doc =n= i_tax inv)
    /\ ~ (pdf_total doc =n= i_total inv).
Proof.
  split; [vm_compute; reflexivity|].
  eexists. eexists. split; [reflexivity|]. split; [reflexivity|].
  repeat split; try reflexivity;
    intros H; vm_compute in H; discriminate H.
Qed.

(* ------------------------------------------------------------------ *)
(** *** Updating a vehicle                                              *)
(* ------------------------------------------------------------------ *)

Lemma set_vehicle_parts_same (d : db) :
  set_vehicle_parts d (vehicle_parts d) = d.
Proof. destruct d; reflexivity. Qed.

Lemma set_vehicle_service_parts_same (d : db) :
  set_vehicle_service_parts d (vehicle_service_parts d) = d.
Proof. destruct d; reflexivity. Qed.

Lemma conn_eta (c : conn) :
  {| at_begin := at_begin c; current := current c |} = c.
Proof. destruct c; reflexivity. Qed.

(** A loop that appends one row per element, when it returns, has
    inserted the rows of all the elements, in order. *)
Lemma for_of_inserts {R : Type} (body : jsval -> tx unit) (row : jsval -> R)
    (put : db -> list R -> db) (get : db -> list R) :
  (forall x c,
     match body x c with
     | Done _ c' =>
         c' = {| at_begin := at_begin c;
                 current := put (current c) (get (current c) ++ [row x]) |}
     | Thrown _ _ => True
     end) ->
  (forall d l, get (put d l) = l) ->
  (forall d l l', put (put d l) l' = put d l') ->
  (forall d, put d (get d) = d) ->
  forall l c,
    match for_of l body c with
    | Done _ c' =>
        c' = {| at_begin := at_begin c;
                current := put (current c) (get (current c) ++ map row l) |}
    | Thrown _ _ => True
    end.
Proof.
  intros Hbody Hget Hput Hsame.
  induction l as [|x l IH]; intros c.
  - simpl. unfold ret. rewrite app_nil_r, Hsame, conn_eta. reflexivity.
  - cbn [for_of]. unfold bind. specialize (Hbody x c).
    destruct (body x c) as [u c1|msg c1]; [|exact I]. subst c1.
    specialize (IH {| at_begin := at_begin c;
                      current := put (current c)
                                     (get (current c) ++ [row x]) |}).
    destruct (for_of l body _) as [u' c'|msg c']; [|exact I].
    rewrite IH. cbn [at_begin current]. rewrite Hget, Hput.
    rewrite <- app_assoc. reflexivity.
Qed.

Lemma insert_standalone_parts_run {rt : Runtime} (id : Z) (xs : jsval) c :
  match insert_standalone_parts id xs c with
  | Done _ c' =>
      c' = {| at_begin := at_begin c;
              current :=
                set_vehicle_parts (current c)
                  (vehicle_parts (current c) ++ standalone_rows id xs) |}
  | Thrown _ c' => True
  end.
Proof.
  unfold insert_standalone_parts, for_array, standalone_rows.
  destruct xs; simpl;
    try (unfold ret; simpl;
         rewrite app_nil_r, set_vehicle_parts_same, conn_eta; reflexivity).
  apply (for_of_inserts _
           (fun part => {| vp_vehicle_id := id;
                           vp_part_id := sql_int (field "part_id" part);
                           vp_quantity := field "quantity" part |})
           set_vehicle_parts vehicle_parts).
  - intros x c0. unfold bind, prop, bind_int, ret.
    destruct x; try exact I; cbn [field];
      repeat match goal with
             | |- context [int_accepted ?v] => destruct (int_accepted v)
             end;
      first [reflexivity | exact I].
  - reflexivity.
  - reflexivity.
  - apply set_vehicle_parts_same.
Qed.

Lemma insert_service_parts_run {rt : Runtime} (id : Z) (xs : jsval) c :
  match insert_service_parts id xs c with
  | Done _ c' =>
      c' = {| at_begin := at_begin c;
              current :=
                set_vehicle_service_parts (current c)
                  (vehicle_service_parts (current c) ++
                   service_part_rows id xs) |}
  | Thrown _ c' => True
  end.
Proof.
  unfold insert_service_parts, for_array, service_part_rows.
  destruct xs; simpl;
    try (unfold ret; simpl;
         rewrite app_nil_r, set_vehicle_service_parts_same, conn_eta;
         reflexivity).
  apply (for_of_inserts _
           (fun sp => {| vsp_vehicle_id := id;
                         vsp_service_id := sql_int (field "service_id" sp);
                         vsp_part_id := sql_int (field "part_id" sp);
                         vsp_quantity := field "quantity" sp |})
           set_vehicle_service_parts vehicle_service_parts).
  - intros x c0. unfold bind, prop, bind_int, ret.
    destruct x; try exact I; cbn [field];
      repeat match goal with
             | |- context [int_accepted ?v] => destruct (int_accepted v)
             end;
      first [reflexivity | exact I].
  - reflexivity.
  - reflexivity.
  - apply set_vehicle_service_parts_same.
Qed.

Lemma put_vehicle_run {rt : Runtime} (id : Z) (body : jsval) (d : db) :
  vehicle_fields_present body = true ->
  let t := map (vehicle_set (field "plate" body) (field "make" body)
                  (field "model_name" body) (field "year" body)
                  (field "vin" body) (field "owner" body)
                  (field "contact_number" body) id) (vehicles d) in
  put_vehicle id body d =
    match filter (fun v => v_id v =? id) t with
    | [] => (json_error 404 "Vehicle not found", d)
    | row :: _ =>
        match insert_standalone_parts id (field "standalone_parts" body)
                {| at_begin := d;
                   current := snd (delete_vehicle_parts id
                                     (set_vehicles d t)) |} with
        | Thrown _ c =>
            (json_error 500 "Server error", rollback (at_begin c) (current c))
        | Done _ c1 =>
            match insert_service_parts id (field "service_parts" body)
                    {| at_begin := at_begin c1;
                       current := snd (delete_vehicle_service_parts id
                                         (current c1)) |} with
            | Thrown _ c =>
                (json_error 500 "Server error",
                 rollback (at_begin c) (current c))
            | Done _ c2 =>
                ({| status := 200; sent := VehicleRow row |}, current c2)
            end
        end
    end.
Proof.
  intros Hv t. unfold vehicle_fields_present in Hv.
  apply andb_true_iff in Hv. destruct Hv as [Hv H3].
  apply andb_true_iff in Hv. destruct Hv as [H1 H2].
  unfold put_vehicle, try_catch. rewrite H1, H2, H3. cbn [negb orb].
  unfold bind at 1. cbn [BEGIN connect current at_begin].
  unfold bind at 1. unfold query at 1.
  cbn [current at_begin update_vehicle_row]. fold t.
  destruct (filter (fun v => v_id v =? id) t) as [|row rows].
  - unfold bind, ROLLBACK, ret, rollback. cbn. destruct d; reflexivity.
  - unfold bind at 1. unfold query at 1.
    cbn [current at_begin delete_vehicle_parts snd].
    unfold bind at 1.
    destruct (insert_standalone_parts id _ _) as [u1 c1|m1 c1];
      [|reflexivity].
    unfold bind at 1. unfold query at 1.
    cbn [current at_begin delete_vehicle_service_parts snd].
    unfold bind at 1.
    destruct (insert_service_parts id _ _) as [u2 c2|m2 c2];
      [|reflexivity].
    reflexivity.
Qed.

Lemma insert_standalone_parts_keeps_begin {rt : Runtime} (id : Z) xs :
  keeps at_begin (insert_standalone_parts id xs).
Proof. unfold insert_standalone_parts. keeps_tac. Qed.

Lemma insert_service_parts_keeps_begin {rt : Runtime} (id : Z) xs :
  keeps at_begin (insert_service_parts id xs).
Proof. unfold insert_service_parts. keeps_tac. Qed.

Lemma vehicle_set_id plate make model_name year vin owner contact id v :
  v_id (vehicle_set plate make model_name year vin owner contact id v)
  = v_id v.
Proof. unfold vehicle_set. destruct (v_id v =? id); reflexivity. Qed.

Lemma vehicle_set_exit_time plate make model_name year vin owner contact id v :
  v_exit_time (vehicle_set plate make model_name year vin owner contact id v)
  = v_exit_time v.
Proof. unfold vehicle_set. destruct (v_id v =? id); reflexivity. Qed.

(** Whatever its answer, an update leaves the vehicles table as it was or
    with the seven updated columns of the row changed. *)
Lemma put_vehicle_vehicles {rt : Runtime} (id : Z) (body : jsval) (d : db) :
  vehicles (snd (put_vehicle id body d)) = vehicles d \/
  vehicles (snd (put_vehicle id body d)) =
    map (vehicle_set (field "plate" body) (field "make" body)
           (field "model_name" body) (field "year" body)
           (field "vin" body) (field "owner" body)
           (field "contact_number" body) id) (vehicles d).
Proof.
  destruct (vehicle_fields_present body) eqn:Hv.
  - rewrite (put_vehicle_run id body d Hv). cbv zeta.
    destruct (filter _ _) as [|row rows]; [left; reflexivity|].
    set (c0 := {| at_begin := d; current := _ |}).
    pose proof (insert_standalone_parts_keeps_begin id
                  (field "standalone_parts" body) c0) as Hb1.
    pose proof (insert_standalone_parts_run id
                  (field "standalone_parts" body) c0) as Hr1.
    destruct (insert_standalone_parts id _ c0) as [u1 c1|m1 c1];
      simpl in Hb1; [|left; simpl; rewrite Hb1; reflexivity].
    set (c1' := {| at_begin := at_begin c1; current := _ |}).
    pose proof (insert_service_parts_keeps_begin id
                  (field "service_parts" body) c1') as Hb2.
    pose proof (insert_service_parts_run id
                  (field "service_parts" body) c1') as Hr2.
    destruct (insert_service_parts id _ c1') as [u2 c2|m2 c2];
      simpl in Hb2; [|left; simpl; rewrite Hb2, Hb1; reflexivity].
    right. subst c2. subst c1'. subst c1. reflexivity.
  - left. unfold put_vehicle, try_catch. unfold vehicle_fields_present in Hv.
    destruct (truthy (field "plate" body)); simpl in *;
      [destruct (truthy (field "owner" body)); simpl in *;
       [rewrite Hv|]|]; reflexivity.
Qed.

Lemma put_vehicle_keeps_existence {rt : Runtime} (id id' : Z) (body : jsval)
    (d : db) :
  vehicle_exists id d -> vehicle_exists id (snd (put_vehicle id' body d)).
Proof.
  intros (v & Hv & Hid). unfold vehicle_exists.
  destruct (put_vehicle_vehicles id' body d) as [->| ->].
  - exists v; auto.
  - eexists. split; [apply in_map; exact Hv|].
    rewrite vehicle_set_id. exact Hid.
Qed.

Lemma filter_negb_idem {A} (f : A -> bool) (l : list A) :
  filter f (filter (fun x => negb (f x)) l) = [].
Proof.
  apply filter_nil_iff. intros x Hx. apply filter_In in Hx.
  destruct Hx as [_ Hx]. apply negb_true_iff. exact Hx.
Qed.

(** An update that is answered 200 has replaced the rows of the vehicle
    in both association tables by the rows of the request. *)
Lemma put_vehicle_answered_200 {rt : Runtime} (id : Z) (body : jsval)
    (d : db) :
  status (fst (put_vehicle id body d)) = 200 ->
  vehicle_parts (snd (put_vehicle id body d)) =
    filter (fun r => negb (vp_vehicle_id r =? id)) (vehicle_parts d)
    ++ standalone_rows id (field "standalone_parts" body)
  /\ vehicle_service_parts (snd (put_vehicle id body d)) =
       filter (fun r => negb (vsp_vehicle_id r =? id))
              (vehicle_service_parts d)
       ++ service_part_rows id (field "service_parts" body).
Proof.
  destruct (vehicle_fields_present body) eqn:Hv.
  - rewrite (put_vehicle_run id body d Hv). cbv zeta.
    destruct (filter _ _) as [|row rows]; [discriminate|].
    set (c0 := {| at_begin := d; current := _ |}).
    pose proof (insert_standalone_parts_run id
                  (field "standalone_parts" body) c0) as Hr1.
    destruct (insert_standalone_parts id _ c0) as [u1 c1|m1 c1];
      [|discriminate].
    set (c1' := {| at_begin := at_begin c1; current := _ |}).
    pose proof (insert_service_parts_run id
                  (field "service_parts" body) c1') as Hr2.
    destruct (insert_service_parts id _ c1') as [u2 c2|m2 c2];
      [|discriminate].
    intros _. subst c2. subst c1'. subst c1. split; reflexivity.
  - unfold put_vehicle, try_catch. unfold vehicle_fields_present in Hv.
    destruct (truthy (field "plate" body)); simpl in *;
      [destruct (truthy (field "owner" body)); simpl in *;
       [rewrite Hv|]|]; discriminate.
Qed.

(** C6.  For two successive update requests of a vehicle: whenever the
    second update is answered 200, the vehicle_parts and
    vehicle_service_parts rows of the vehicle are afterwards exactly the
    rows of the lists of the second request, in their order, and nothing of
    the lists of the first request remains (a list that is not an array
    counts as empty), whatever the first request was and however it was
    answered. *)
Theorem put_vehicle_replaces_parts
    {rt : Runtime} (id : Z) (first second : jsval) (d : db) :
  let d1 := snd (put_vehicle id first d) in
  let r2 := put_vehicle id second d1 in
  status (fst r2) = 200 ->
  filter (fun r => vp_vehicle_id r =? id) (vehicle_parts (snd r2))
  = standalone_rows id (field "standalone_parts" second)
  /\ filter (fun r => vsp_vehicle_id r =? id)
            (vehicle_service_parts (snd r2))
     = service_part_rows id (field "service_parts" second).
Proof.
  intros d1 r2 Hst. subst r2.
  destruct (put_vehicle_answered_200 id second d1 Hst) as [Hvp Hvsp].
  rewrite Hvp, Hvsp. split.
  - rewrite filter_app.
    rewrite (filter_negb_idem (fun r => vp_vehicle_id r =? id)).
    simpl. apply filter_all. intros r Hr. unfold standalone_rows in Hr.
    destruct (as_array _); [|destruct Hr].
    apply in_map_iff in Hr. destruct Hr as (x & <- & _). apply Z.eqb_refl.
  - rewrite filter_app.
    rewrite (filter_negb_idem (fun r => vsp_vehicle_id r =? id)).
    simpl. apply filter_all. intros r Hr. unfold service_part_rows in Hr.
    destruct (as_array _); [|destruct Hr].
    apply in_map_iff in Hr. destruct Hr as (x & <- & _). apply Z.eqb_refl.
Qed.

Lemma put_vehicle_replaces_parts_witness :
  let d1 := snd (put_vehicle (rt := Examples.runtime) 1
                   Examples.update_first Examples.garage) in
  let r2 := put_vehicle (rt := Examples.runtime) 1 Examples.update_second d1
  in
  status (fst (put_vehicle (rt := Examples.runtime) 1
                 Examples.update_first Examples.garage)) = 200
  /\ vehicle_parts d1 =
       [{| vp_vehicle_id := 1; vp_part_id := Some 5;
           vp_quantity := Examples.num 1 |}]
  /\ vehicle_service_parts d1 =
       [{| vsp_vehicle_id := 1; vsp_service_id := Some 1;
           vsp_part_id := Some 5; vsp_quantity := Examples.num 2 |}]
  /\ status (fst r2) = 200
  /\ filter (fun r => vp_vehicle_id r =? 1) (vehicle_parts (snd r2))
     = [{| vp_vehicle_id := 1; vp_part_id := Some 5;
           vp_quantity := Examples.num 3 |};
        {| vp_vehicle_id := 1; vp_part_id := Some 5;
           vp_quantity := Examples.num 4 |}]
  /\ filter (fun r => vsp_vehicle_id r =? 1)
            (vehicle_service_parts (snd r2)) = [].
Proof.
  intros d1 r2.
  assert (Hst : status (fst r2) = 200) by reflexivity.
  destruct (put_vehicle_replaces_parts (rt := Examples.runtime) 1
              Examples.update_first Examples.update_second Examples.garage
              Hst) as [Hvp Hvsp].
  do 3 (split; [reflexivity|]). split; [exact Hst|].
  split; [exact Hvp | exact Hvsp].
Defined.

(* ------------------------------------------------------------------ *)
(** *** Invariants of a transaction                                     *)
(* ------------------------------------------------------------------ *)

Section Invariant.
Variable J : db -> db -> Prop.
Hypothesis J_commit : forall a c, J a c -> J c c.
Hypothesis J_rollback :
  forall a c, J a c -> J (rollback a c) (rollback a c).

Lemma preserves_ret {A} (a : A) : preserves J (ret a).
Proof. intros c H; exact H. Qed.

Lemma preserves_throw {A} (msg : string) : preserves J (@throw A msg).
Proof. intros c H; exact H. Qed.

Lemma preserves_bind {A B} (m : tx A) (k : A -> tx B) :
  preserves J m -> (forall a, preserves J (k a)) -> preserves J (bind m k).
Proof.
  intros Hm Hk c Hc. unfold bind. specialize (Hm c Hc).
  destruct (m c) as [a c'|msg c']; simpl in *.
  - apply Hk. exact Hm.
  - exact Hm.
Qed.

Lemma preserves_query {A} (stmt : db -> A * db) :
  (forall a c, J a c -> J a (snd (stmt c))) -> preserves J (query stmt).
Proof.
  intros H c Hc. unfold query. specialize (H _ _ Hc).
  destruct (stmt (current c)). exact H.
Qed.

Lemma preserves_BEGIN : preserves J BEGIN.
Proof. intros c Hc. exact (J_commit _ _ Hc). Qed.

Lemma preserves_COMMIT : preserves J COMMIT.
Proof. intros c Hc. exact (J_commit _ _ Hc). Qed.

Lemma preserves_ROLLBACK : preserves J ROLLBACK.
Proof. intros c Hc. exact (J_rollback _ _ Hc). Qed.

Lemma preserves_prop (name : string) (x : jsval) :
  preserves J (prop name x).
Proof. destruct x; intros c H; exact H. Qed.

Lemma preserves_bind_int {rt : Runtime} (v : jsval) :
  preserves J (bind_int v).
Proof.
  unfold bind_int. destruct (int_accepted v); intros c H; exact H.
Qed.

Lemma preserves_for_of {A} (l : list A) (body : A -> tx unit) :
  (forall x, preserves J (body x)) -> preserves J (for_of l body).
Proof.
  intros Hb. induction l as [|x l IH]; simpl.
  - apply preserves_ret.
  - apply preserves_bind; auto.
Qed.

Lemma preserves_for_of_acc {A S} (l : list A) (body : S -> A -> tx S)
    (s : S) :
  (forall s x, preserves J (body s x)) -> preserves J (for_of_acc l body s).
Proof.
  intros Hb. revert s. induction l as [|x l IH]; intros s; simpl.
  - apply preserves_ret.
  - apply preserves_bind; auto.
Qed.

Lemma preserves_for_array (xs : jsval) (body : jsval -> tx unit) :
  (forall x, preserves J (body x)) -> preserves J (for_array xs body).
Proof.
  intros Hb. unfold for_array. destruct (as_array xs).
  - apply preserves_for_of; auto.
  - apply preserves_ret.
Qed.

Lemma preserves_for_array_acc (xs : jsval)
    (body : jsnum -> jsval -> tx jsnum) (acc : jsnum) :
  (forall s x, preserves J (body s x)) ->
  preserves J (for_array_acc xs body acc).
Proof.
  intros Hb. unfold for_array_acc. destruct (as_array xs).
  - apply preserves_for_of_acc; auto.
  - apply preserves_ret.
Qed.

(** What a [try] block run on a client [c] leaves when its [catch] block
    rolls back. *)
Lemma caught_preserves (body : tx response) (c : conn) :
  preserves J body -> conn_ok J c ->
  let d' := match body c with
            | Done _ c' => current c'
            | Thrown _ c' => rollback (at_begin c') (current c')
            end in
  J d' d'.
Proof.
  intros Hb Hc. specialize (Hb c Hc).
  destruct (body c) as [r c'|m c']; simpl in *.
  - exact (J_commit _ _ Hb).
  - exact (J_rollback _ _ Hb).
Qed.

(** A handler whose body preserves the invariant leaves a store that
    satisfies it, whether it commits or rolls back. *)
Lemma try_catch_preserves (body : tx response) (msg : string) (d : db) :
  preserves J body -> J d d ->
  J (snd (try_catch body (catch_rollback msg) d))
    (snd (try_catch body (catch_rollback msg) d)).
Proof.
  intros Hb Hd. unfold try_catch.
  pose proof (caught_preserves body (connect d) Hb Hd) as H.
  destruct (body (connect d)) as [r c|m c]; exact H.
Qed.
End Invariant.

(* ------------------------------------------------------------------ *)
(** *** Who writes exit_time                                            *)
(* ------------------------------------------------------------------ *)

Lemma exit_time_of_same (id : Z) (d d' : db) :
  vehicles d' = vehicles d -> exit_time_of id d' = exit_time_of id d.
Proof. intros H. unfold exit_time_of. rewrite H. reflexivity. Qed.

Lemma exit_time_of_map (f : vehicle -> vehicle) (id : Z) (d d' : db) :
  (forall v, v_id (f v) = v_id v) ->
  (forall v, v_id v = id -> v_exit_time (f v) = v_exit_time v) ->
  vehicles d' = map f (vehicles d) ->
  exit_time_of id d' = exit_time_of id d.
Proof.
  intros Hid Hex H. unfold exit_time_of. rewrite H. clear H.
  induction (vehicles d) as [|v l IH]; simpl; [reflexivity|].
  rewrite Hid. destruct (v_id v =? id) eqn:E.
  - rewrite Hex; [reflexivity | apply Z.eqb_eq; exact E].
  - exact IH.
Qed.

Lemma exit_time_of_app (id : Z) (d d' : db) (extra : list vehicle) e :
  vehicles d' = vehicles d ++ extra ->
  exit_time_of id d = Some e -> exit_time_of id d' = Some e.
Proof.
  intros H. unfold exit_time_of. rewrite H, filter_app.
  destruct (filter _ (vehicles d)); simpl; [discriminate|auto].
Qed.

Lemma exit_time_of_delete (id id' : Z) (d d' : db) :
  vehicles d' = filter (fun v => negb (v_id v =? id')) (vehicles d) ->
  exit_time_of id d' = if id =? id' then None else exit_time_of id d.
Proof.
  intros H. unfold exit_time_of. rewrite H. clear H.
  destruct (id =? id') eqn:E.
  - apply Z.eqb_eq in E. subst id'.
    rewrite (filter_negb_idem (fun v => v_id v =? id)). reflexivity.
  - induction (vehicles d) as [|v l IH]; simpl; [reflexivity|].
    destruct (v_id v =? id') eqn:E1; simpl.
    + destruct (v_id v =? id) eqn:E2; [|exact IH].
      apply Z.eqb_eq in E1, E2. apply Z.eqb_neq in E. congruence.
    + destruct (v_id v =? id); [reflexivity | exact IH].
Qed.

Lemma exit_time_of_set_exit (id now : Z) (d d' : db) e :
  vehicles d' = map (vehicle_set_exit now id) (vehicles d) ->
  exit_time_of id d = Some e -> exit_time_of id d' = Some (Some now).
Proof.
  intros H. unfold exit_time_of. rewrite H. clear H.
  induction (vehicles d) as [|v l IH]; simpl; [discriminate|].
  rewrite vehicle_set_exit_id. destruct (v_id v =? id) eqn:E.
  - intros _. unfold vehicle_set_exit. rewrite E. reflexivity.
  - exact IH.
Qed.

Lemma exit_time_of_set_exit_other (id id' now : Z) (d d' : db) :
  id <> id' ->
  vehicles d' = map (vehicle_set_exit now id') (vehicles d) ->
  exit_time_of id d' = exit_time_of id d.
Proof.
  intros Hne H. apply (exit_time_of_map (vehicle_set_exit now id')); auto.
  - intros v. apply vehicle_set_exit_id.
  - intros v Hv. unfold vehicle_set_exit.
    destruct (v_id v =? id') eqn:E; [|reflexivity].
    apply Z.eqb_eq in E. congruence.
Qed.

(** Handlers that never write the vehicles table. *)

Ltac split_ifs :=
  repeat match goal with
         | |- context [if ?b then _ else _] => destruct b
         | |- context [match ?x with [] => _ | _ :: _ => _ end] => destruct x
         end.

Lemma post_part_vehicles {rt : Runtime} body d :
  vehicles (snd (post_part body d)) = vehicles d.
Proof. unfold post_part. split_ifs; reflexivity. Qed.

Lemma put_part_vehicles {rt : Runtime} id body d :
  vehicles (snd (put_part id body d)) = vehicles d.
Proof. unfold put_part. cbn. split_ifs; reflexivity. Qed.

Lemma delete_part_vehicles id d :
  vehicles (snd (delete_part_handler id d)) = vehicles d.
Proof. unfold delete_part_handler. cbn. split_ifs; reflexivity. Qed.

Lemma post_worker_vehicles body d :
  vehicles (snd (post_worker body d)) = vehicles d.
Proof. unfold post_worker. split_ifs; reflexivity. Qed.

Lemma delete_worker_vehicles id d :
  vehicles (snd (delete_worker id d)) = vehicles d.
Proof. rewrite delete_worker_unfold. reflexivity. Qed.

Lemma put_assign_worker_vehicles {rt : Runtime} id body d :
  vehicles (snd (put_assign_worker id body d)) = vehicles d.
Proof. unfold put_assign_worker. cbn. split_ifs; reflexivity. Qed.

Lemma put_vehicle_service_vehicles v s body d :
  vehicles (snd (put_vehicle_service v s body d)) = vehicles d.
Proof. unfold put_vehicle_service. cbn. split_ifs; reflexivity. Qed.

Lemma get_invoice_pdf_same {rt : Runtime} id d :
  snd (get_invoice_pdf id d) = d.
Proof.
  unfold get_invoice_pdf.
  destruct (select_invoice_with_vehicle id d) as [|[r v] l]; reflexivity.
Qed.

Lemma post_worker_payment_vehicles {rt : Runtime} id body now d :
  vehicles (snd (post_worker_payment id body now d)) = vehicles d.
Proof. unfold post_worker_payment. split_ifs; reflexivity. Qed.

Lemma delete_invoice_vehicles id d :
  vehicles (snd (delete_invoice id d)) = vehicles d.
Proof.
  unfold delete_invoice, try_catch. cbn. split_ifs; reflexivity.
Qed.

(** Invariants that only read the vehicles table. *)
Section VehiclesFrame.
Variable F : list vehicle -> Prop.
Let Inv : db -> db -> Prop := fun a c => F (vehicles a) /\ F (vehicles c).

Lemma frame_commit (a c : db) : Inv a c -> Inv c c.
Proof. intros [_ H]; split; exact H. Qed.

Lemma frame_rollback (a c : db) :
  Inv a c -> Inv (rollback a c) (rollback a c).
Proof. intros [H _]; split; exact H. Qed.

Lemma frame_query {A} (stmt : db -> A * db) :
  (forall d, vehicles (snd (stmt d)) = vehicles d) ->
  preserves Inv (query stmt).
Proof.
  intros H. apply preserves_query. intros a c [Ha Hc]. split; [exact Ha|].
  rewrite H. exact Hc.
Qed.

Lemma frame_service_loop {rt : Runtime} (id : Z) xs acc :
  preserves Inv (for_array_acc xs (invoice_service_line id) acc).
Proof.
  apply preserves_for_array_acc. intros s x. unfold invoice_service_line.
  apply preserves_bind; [apply preserves_prop|]. intros a.
  apply preserves_bind; [apply preserves_bind_int|]. intros item_id.
  apply preserves_bind; [|intros; apply preserves_ret].
  apply frame_query. reflexivity.
Qed.

Lemma frame_part_loop {rt : Runtime} (id : Z) xs acc :
  preserves Inv (for_array_acc xs (invoice_part_line id) acc).
Proof.
  apply preserves_for_array_acc. intros s x. unfold invoice_part_line.
  apply preserves_bind; [apply preserves_prop|]. intros a.
  apply preserves_bind; [apply preserves_bind_int|]. intros part_id.
  apply preserves_bind; [apply frame_query; reflexivity|]. intros rows.
  destruct rows as [|row rows]; [apply preserves_throw|].
  apply preserves_bind; [|intros; apply preserves_ret].
  apply frame_query. reflexivity.
Qed.

Lemma frame_standalone_parts {rt : Runtime} (id : Z) xs :
  preserves Inv (insert_standalone_parts id xs).
Proof.
  apply preserves_for_array. intros x.
  apply preserves_bind; [apply preserves_prop|]. intros a.
  apply preserves_bind; [apply preserves_bind_int|]. intros part_id.
  apply frame_query. reflexivity.
Qed.

Lemma frame_service_parts {rt : Runtime} (id : Z) xs :
  preserves Inv (insert_service_parts id xs).
Proof.
  apply preserves_for_array. intros x.
  apply preserves_bind; [apply preserves_prop|]. intros a.
  apply preserves_bind; [apply preserves_bind_int|]. intros service_id.
  apply preserves_bind; [apply preserves_bind_int|]. intros part_id.
  apply frame_query. reflexivity.
Qed.

Lemma frame_vehicle_services {rt : Runtime} (id : Z) xs :
  preserves Inv
    (for_array xs
       (fun service_id =>
          service_id <- bind_int service_id ;;
          query (insert_vehicle_service id service_id))%tx).
Proof.
  apply preserves_for_array. intros x.
  apply preserves_bind; [apply preserves_bind_int|]. intros service_id.
  apply frame_query. reflexivity.
Qed.
End VehiclesFrame.

Lemma post_invoice_vehicles {rt : Runtime} body d :
  vehicles (snd (post_invoice body d)) = vehicles d.
Proof.
  set (F := fun l => l = vehicles d).
  set (J := fun a c : db => F (vehicles a) /\ F (vehicles c)).
  unfold post_invoice.
  apply (try_catch_preserves J (frame_commit F) (frame_rollback F));
    [|split; reflexivity].
  destruct (_ || _); [apply preserves_ret|].
  apply preserves_bind; [apply preserves_BEGIN, (frame_commit F)|].
  intros _.
  apply preserves_bind; [apply preserves_bind_int|]. intros vehicle_id.
  apply preserves_bind; [apply (frame_query F); reflexivity|].
  intros invoiceId.
  apply preserves_bind; [apply (frame_service_loop F)|]. intros t1.
  apply preserves_bind; [apply (frame_part_loop F)|]. intros t2.
  apply preserves_bind; [apply (frame_query F); reflexivity|].
  intros _.
  apply preserves_bind; [apply preserves_COMMIT, (frame_commit F)|].
  intros _. apply preserves_ret.
Qed.

(** Creating a vehicle appends at most one row, whose exit_time is NULL. *)
Lemma post_vehicle_vehicles {rt : Runtime} body now d :
  vehicles (snd (post_vehicle body now d)) = vehicles d \/
  exists row, vehicles (snd (post_vehicle body now d)) = vehicles d ++ [row]
              /\ v_exit_time row = None.
Proof.
  set (row := {| v_id := seq_vehicles (seqs d);
                 v_plate := field "plate" body;
                 v_make := field "make" body;
                 v_model_name := field "model_name" body;
                 v_year := field "year" body;
                 v_vin := field "vin" body;
                 v_owner := field "owner" body;
                 v_contact_number := field "contact_number" body;
                 v_entry_time := Some now; v_exit_time := None |}).
  set (F := fun l => l = vehicles d \/ l = vehicles d ++ [row]).
  set (J := fun a c : db => F (vehicles a) /\ F (vehicles c)).
  assert (H : F (vehicles (snd (post_vehicle body now d)))).
  { unfold post_vehicle, try_catch.
    destruct (_ || _); [left; reflexivity|].
    unfold bind at 1. cbn [BEGIN connect current at_begin].
    unfold bind at 1. unfold query at 1.
    cbn [current at_begin insert_vehicle v_id]. fold row.
    match goal with
    | |- context [?m {| at_begin := d; current := ?d1 |}] =>
        set (rest := m); set (c1 := {| at_begin := d; current := d1 |})
    end.
    assert (Hrest : preserves J rest).
    { unfold rest.
      apply preserves_bind; [apply (frame_vehicle_services F)|]. intros _.
      apply preserves_bind; [apply (frame_standalone_parts F)|]. intros _.
      apply preserves_bind; [apply (frame_service_parts F)|]. intros _.
      apply preserves_bind; [apply preserves_COMMIT, (frame_commit F)|].
      intros _. apply preserves_ret. }
    assert (Hc1 : conn_ok J c1).
    { split; [left; reflexivity | right; reflexivity]. }
    pose proof (caught_preserves J (frame_commit F) (frame_rollback F)
                  rest c1 Hrest Hc1) as Hres.
    destruct (rest c1) as [r c|m c]; simpl in *; apply Hres. }
  destruct H as [H|H]; [left; exact H|right].
  exists row. split; [exact H | reflexivity].
Qed.

Lemma delete_vehicle_plain_vehicles id d :
  vehicles (snd (delete_vehicle_plain id d)) =
  filter (fun v => negb (v_id v =? id)) (vehicles d).
Proof. unfold delete_vehicle_plain. cbn. split_ifs; reflexivity. Qed.

Lemma delete_vehicle_cascade_unfold (id : Z) (d : db) :
  delete_vehicle_cascade id d =
    (if Nat.eqb (List.length (filter (fun v => v_id v =? id) (vehicles d))) 0
     then json_error 404 "Vehicle not found"
     else {| status := 204; sent := Empty |},
     set_vehicles
       (set_invoices
          (set_invoice_items d
             (filter (fun it =>
                        negb (existsb (Z.eqb (ii_invoice_id it))
                                (map i_id (invoices_of id d))))
                     (invoice_items d)))
          (filter (fun i => negb (id_eqb (i_vehicle_id i) id)) (invoices d)))
       (filter (fun v => negb (v_id v =? id)) (vehicles d))).
Proof.
  unfold delete_vehicle_cascade, try_catch. cbn.
  destruct (Nat.eqb _ 0); reflexivity.
Qed.

Lemma put_vehicle_exit_vehicles id now d :
  vehicles (snd (put_vehicle_exit id now d)) = vehicles d \/
  (status (fst (put_vehicle_exit id now d)) = 200 /\
   vehicles (snd (put_vehicle_exit id now d))
   = map (vehicle_set_exit now id) (vehicles d)).
Proof.
  unfold put_vehicle_exit.
  destruct (_ >? 0); [left; reflexivity|].
  destruct (_ =? 0); [left; reflexivity|].
  right. split; reflexivity.
Qed.

(** A property of the answer of every route that can match holds of the
    answer of the server. *)
Lemma dispatch_ind (P : response * db -> Prop) (routes : list route)
    (rq : request) (now : Z) (d : db) :
  P (not_found d) ->
  (forall r ps, In r routes ->
                verb_eqb (r_method r) (method rq) = true ->
                match_path (r_pattern r) (path rq) = Some ps ->
                P (r_handler r ps (body rq) now d)) ->
  P (dispatch routes rq now d).
Proof.
  intros Hnf. induction routes as [|r rest IH]; intros H; simpl.
  - exact Hnf.
  - destruct (verb_eqb (r_method r) (method rq)) eqn:Ev.
    + destruct (match_path (r_pattern r) (path rq)) as [ps|] eqn:Em.
      * apply H; auto. left; reflexivity.
      * apply IH. intros r' ps' Hin. apply H. right; exact Hin.
    + apply IH. intros r' ps' Hin. apply H. right; exact Hin.
Qed.

Lemma path_eqb_eq (a b : list path_seg) : path_eqb a b = true -> a = b.
Proof.
  revert b. induction a as [|x a IH]; intros [|y b]; simpl;
    try discriminate; [reflexivity|].
  intros H. apply andb_true_iff in H. destruct H as [Hxy Hab].
  f_equal; [|apply IH; exact Hab].
  destruct x, y; simpl in Hxy; try discriminate.
  - apply String.eqb_eq in Hxy. congruence.
  - apply Z.eqb_eq in Hxy. congruence.
Qed.

Lemma match_lit (s : string) pat p ps :
  match_path (Lit s :: pat) p = Some ps ->
  exists p', p = Seg s :: p' /\ match_path pat p' = Some ps.
Proof.
  destruct p as [|[s'|z] p']; simpl; try discriminate.
  destruct (String.eqb s s') eqn:E; [|discriminate].
  apply String.eqb_eq in E. subst. intros H. exists p'. split; auto.
Qed.

Lemma match_param pat p ps :
  match_path (Param :: pat) p = Some ps ->
  exists z p' ps', p = Id z :: p' /\ ps = z :: ps'
                   /\ match_path pat p' = Some ps'.
Proof.
  destruct p as [|[s'|z] p']; simpl; try discriminate.
  destruct (match_path pat p') as [ps'|] eqn:E; [|discriminate].
  intros H. inversion H; subst. exists z, p', ps'. auto.
Qed.

Lemma match_nil p ps : match_path [] p = Some ps -> p = [] /\ ps = [].
Proof. destruct p; simpl; [|discriminate]. intros H; inversion H; auto. Qed.

(** The pattern /api/vehicles/:id/exit matches exactly the exit paths. *)
Lemma match_exit_pattern (p : list path_seg) (ps : list Z) :
  match_path [Lit "api"; Lit "vehicles"; Param; Lit "exit"] p = Some ps ->
  exists id, ps = [id] /\
             p = [Seg "api"; Seg "vehicles"; Id id; Seg "exit"].
Proof.
  intros H.
  apply match_lit in H. destruct H as (p1 & -> & H).
  apply match_lit in H. destruct H as (p2 & -> & H).
  apply match_param in H. destruct H as (z & p3 & ps' & -> & -> & H).
  apply match_lit in H. destruct H as (p4 & -> & H).
  apply match_nil in H. destruct H as [-> ->].
  exists z. split; reflexivity.
Qed.

Lemma serve_exit_request {rt : Runtime} (id : Z) (rq : request) now d :
  is_exit_request id rq = true ->
  serve rq now d = put_vehicle_exit id now d.
Proof.
  unfold is_exit_request. intros H. apply andb_true_iff in H.
  destruct H as [Hm Hp]. apply path_eqb_eq in Hp.
  destruct rq as [m p b]. simpl in *. subst p.
  destruct m; try discriminate. reflexivity.
Qed.

Lemma serve_delete_vehicle {rt : Runtime} (id : Z) now d :
  serve (delete_vehicle_request id) now d = delete_vehicle_plain id d.
Proof. reflexivity. Qed.

Lemma verb_eqb_eq (a b : verb) : verb_eqb a b = true -> a = b.
Proof. destruct a, b; simpl; congruence. Qed.

(** C9 (as amended).  exit_time is written by the exit operation only, and
    by every successful one.  For a vehicle row that exists: a request that
    is not an exit request for that vehicle leaves its exit_time as it was
    for as long as the row exists (a delete removes the row); an exit
    request for it either succeeds and sets exit_time to the time of that
    request, also when exit_time was already set, or is answered 400 and
    changes nothing. *)
Theorem exit_time_written_by_exit_only
    {rt : Runtime} (id : Z) (rq : request) (now : Z) (d : db)
    (e : option Z) :
  exit_time_of id d = Some e ->
  (is_exit_request id rq = false ->
     exit_time_of id (snd (serve rq now d)) = Some e \/
     exit_time_of id (snd (serve rq now d)) = None)
  /\
  (is_exit_request id rq = true ->
     (status (fst (serve rq now d)) = 200 /\
      exit_time_of id (snd (serve rq now d)) = Some (Some now))
     \/
     (status (fst (serve rq now d)) = 400 /\ snd (serve rq now d) = d)).
Proof.
  intros He. split.
  - intros Hnot. unfold serve.
    apply (dispatch_ind
             (fun r => exit_time_of id (snd r) = Some e \/
                       exit_time_of id (snd r) = None));
      [left; exact He|].
    intros r ps Hin Hverb Hmatch.
    assert (Hsame : forall d', vehicles d' = vehicles d ->
                               exit_time_of id d' = Some e \/
                               exit_time_of id d' = None).
    { intros d' H. left. rewrite (exit_time_of_same id d d' H). exact He. }
    assert (Hdel : forall id' d',
               vehicles d' = filter (fun v => negb (v_id v =? id'))
                                    (vehicles d) ->
               exit_time_of id d' = Some e \/ exit_time_of id d' = None).
    { intros id' d' H. rewrite (exit_time_of_delete id id' d d' H).
      destruct (id =? id'); [right; reflexivity | left; exact He]. }
    unfold app in Hin. simpl in Hin.
    repeat (destruct Hin as [<-|Hin]); [..|destruct Hin];
      cbn [r_handler r_pattern r_method] in *;
      try (destruct ps as [|id' [|? ?]]; [apply Hsame; reflexivity| |
                                          apply Hsame; reflexivity]).
    + apply Hsame, post_part_vehicles.
    + apply Hsame, put_part_vehicles.
    + apply Hsame, delete_part_vehicles.
    + apply Hsame, post_worker_vehicles.
    + apply Hsame, delete_worker_vehicles.
    + apply Hsame, put_assign_worker_vehicles.
    + destruct (post_vehicle_vehicles (body rq) now d) as [H|(row & H & _)].
      * apply Hsame, H.
      * left. eapply exit_time_of_app; eauto.
    + simpl. destruct (put_vehicle_vehicles id' (body rq) d) as [H|H].
      * apply Hsame, H.
      * left. rewrite <- He. eapply exit_time_of_map; [| |exact H].
        -- intros v. apply vehicle_set_id.
        -- intros v _. apply vehicle_set_exit_time.
    + simpl. apply match_exit_pattern in Hmatch.
      destruct Hmatch as (z & Hps & Hpath). inversion Hps; subst z.
      destruct (Z.eq_dec id id') as [->|Hne].
      * exfalso. unfold is_exit_request in Hnot.
        apply verb_eqb_eq in Hverb. rewrite <- Hverb, Hpath in Hnot.
        simpl in Hnot. rewrite Z.eqb_refl in Hnot. discriminate.
      * destruct (put_vehicle_exit_vehicles id' now d) as [H|[_ H]].
        -- apply Hsame, H.
        -- left. rewrite <- He.
           apply (exit_time_of_set_exit_other id id' now d _ Hne H).
    + unfold with_ids. destruct ps as [|a [|b [|? ?]]];
        try (apply Hsame; reflexivity).
      apply Hsame, put_vehicle_service_vehicles.
    + simpl. apply (Hdel id'), delete_vehicle_plain_vehicles.
    + apply Hsame, post_invoice_vehicles.
    + simpl. apply Hsame. rewrite get_invoice_pdf_same. reflexivity.
    + simpl. apply Hsame, post_worker_payment_vehicles.
    + simpl. apply (Hdel id'). rewrite delete_vehicle_cascade_unfold.
      reflexivity.
    + simpl. apply Hsame, delete_invoice_vehicles.
  - intros Hexit. rewrite (serve_exit_request id rq now d Hexit).
    unfold put_vehicle_exit.
    destruct (_ >? 0); [right; split; reflexivity|].
    destruct (_ =? 0); [right; split; reflexivity|].
    left. split; [reflexivity|].
    eapply exit_time_of_set_exit; [reflexivity | exact He].
Qed.

Lemma exit_time_written_by_exit_only_witness :
  exit_time_of 1 Examples.garage_exited = Some (Some 100) /\
  is_exit_request 1 (delete_vehicle_request 2) = false /\
  is_exit_request 1 (exit_request 1) = true /\
  (exit_time_of 1
     (snd (serve (rt := Examples.runtime) (delete_vehicle_request 2) 200
             Examples.garage_exited)) = Some (Some 100) \/
   exit_time_of 1
     (snd (serve (rt := Examples.runtime) (delete_vehicle_request 2) 200
             Examples.garage_exited)) = None) /\
  exit_time_of 1
    (snd (serve (rt := Examples.runtime) (exit_request 1) 200
            Examples.garage_exited)) = Some (Some 200).
Proof.
  split; [reflexivity|]. split; [reflexivity|]. split; [reflexivity|].
  split.
  - exact (proj1 (exit_time_written_by_exit_only (rt := Examples.runtime)
                    1 (delete_vehicle_request 2) 200 Examples.garage_exited
                    (Some 100) eq_refl) eq_refl).
  - destruct (proj2 (exit_time_written_by_exit_only (rt := Examples.runtime)
                       1 (exit_request 1) 200 Examples.garage_exited
                       (Some 100) eq_refl) eq_refl) as [[_ H]|[H _]].
    + exact H.
    + discriminate H.
Defined.

(** C9 as stated fails: the vehicle left at time 100; a second exit request
    at time 200 is answered 200 and its exit_time is now 200. *)
Lemma repeated_exit_overwrites_exit_time :
  exit_time_of 1 Examples.garage_invoiced = Some None /\
  serve (rt := Examples.runtime) (exit_request 1) 100 Examples.garage_invoiced
    = ({| status := 200; sent := Message "Vehicle exited successfully." |},
       Examples.garage_exited) /\
  exit_time_of 1 Examples.garage_exited = Some (Some 100) /\
  status (fst (serve (rt := Examples.runtime) (exit_request 1) 200
                 Examples.garage_exited)) = 200 /\
  exit_time_of 1
    (snd (serve (rt := Examples.runtime) (exit_request 1) 200
            Examples.garage_exited)) = Some (Some 200) /\
  exit_time_of 1
    (snd (serve (rt := Examples.runtime) (exit_request 1) 200
            Examples.garage_exited)) <> exit_time_of 1 Examples.garage_exited.
Proof. repeat split. discriminate. Qed.

(* ------------------------------------------------------------------ *)
(** *** Deleting a vehicle                                              *)
(* ------------------------------------------------------------------ *)

(** The handler that is registered second deletes the invoices of the
    vehicle and their items together with the vehicle row. *)
Lemma delete_vehicle_cascade_no_orphans (id : Z) (d : db) :
  vehicle_exists id d ->
  exists d',
    delete_vehicle_cascade id d = ({| status := 204; sent := Empty |}, d')
    /\ ~ vehicle_exists id d'
    /\ invoices_of id d' = []
    /\ (forall it i, In it (invoice_items d') -> In i (invoices d) ->
                     i_vehicle_id i = Some id ->
                     ii_invoice_id it <> i_id i).
Proof.
  intros (v & Hv & Hid). rewrite delete_vehicle_cascade_unfold.
  destruct (Nat.eqb _ 0) eqn:E.
  { exfalso. rewrite length_filter_zero in E. specialize (E v Hv).
    simpl in E. apply Z.eqb_neq in E. contradiction. }
  eexists. split; [reflexivity|]. cbn. repeat split.
  - intros (v' & Hv' & Hid'). apply filter_In in Hv'. destruct Hv' as [_ H].
    apply negb_true_iff, Z.eqb_neq in H. contradiction.
  - unfold invoices_of. cbn.
    apply (filter_negb_idem (fun i => id_eqb (i_vehicle_id i) id)).
  - intros it i Hit Hi Hvid Heq. apply filter_In in Hit.
    destruct Hit as [_ Hit]. apply negb_true_iff in Hit.
    assert (Hex : existsb (Z.eqb (ii_invoice_id it))
                    (map i_id (invoices_of id d)) = true).
    { apply existsb_exists. exists (i_id i). split.
      - apply in_map. unfold invoices_of. apply filter_In. split; auto.
        rewrite Hvid. simpl. apply Z.eqb_refl.
      - apply Z.eqb_eq. exact Heq. }
    congruence.
Qed.

(** C3: a DELETE /api/vehicles/<id> request is answered by the handler that
    was registered first, which deletes the vehicle row only.  For the
    invoiced garage the request for vehicle 1 is answered 204, the vehicle
    row is gone, and the invoice of the vehicle and its two items are still
    there. *)
Theorem delete_vehicle_request_leaves_orphans :
  (forall (rt : Runtime) (id now : Z) (d : db),
     serve (delete_vehicle_request id) now d = delete_vehicle_plain id d)
  /\
  let after := serve (rt := Examples.runtime) (delete_vehicle_request 1) 0
                 Examples.garage_invoiced in
  has_invoice 1 Examples.garage_invoiced
  /\ fst after = {| status := 204; sent := Empty |}
  /\ ~ vehicle_exists 1 (snd after)
  /\ invoices_of 1 (snd after) = invoices Examples.garage_invoiced
  /\ List.length (invoices_of 1 (snd after)) = 1%nat
  /\ items_of 1 (snd after) = invoice_items Examples.garage_invoiced
  /\ List.length (items_of 1 (snd after)) = 2%nat
  /\ snd (delete_vehicle_cascade 1 Examples.garage_invoiced)
     <> snd after.
Proof.
  split; [intros; apply serve_delete_vehicle|].
  cbv zeta. split.
  { eexists. split; [left; reflexivity | reflexivity]. }
  split; [reflexivity|]. split.
  { intros (v & Hv & _). destruct Hv. }
  repeat split. discriminate.
Qed.

(* ------------------------------------------------------------------ *)
(** *** Invoice ids are drawn from the sequence                         *)
(* ------------------------------------------------------------------ *)

Lemma drawn_same (d d' : db) :
  same_invoicing d d' -> invoice_ids_drawn d -> invoice_ids_drawn d'.
Proof.
  intros (Hi & Hit & Hs) [H1 H2]. unfold invoice_ids_drawn.
  rewrite Hi, Hit, Hs. split; assumption.
Qed.

Lemma drawn_subset (d d' : db) :
  (forall i, In i (invoices d') -> In i (invoices d)) ->
  (forall it, In it (invoice_items d') -> In it (invoice_items d)) ->
  seq_invoices (seqs d) <= seq_invoices (seqs d') ->
  invoice_ids_drawn d -> invoice_ids_drawn d'.
Proof.
  intros Hi Hit Hs [H1 H2]. split.
  - intros i Hin. specialize (H1 i (Hi i Hin)). lia.
  - intros it Hin. specialize (H2 it (Hit it Hin)). lia.
Qed.

Section InvoiceIds.
Variable invoiceId : option Z.
Let Inv : db -> db -> Prop := invoice_ids_ok invoiceId.

Lemma ids_commit (a c : db) : Inv a c -> Inv c c.
Proof.
  intros (Ha & Hc & Hle & Hid). repeat split; try apply Hc; auto. lia.
Qed.

Lemma ids_rollback (a c : db) :
  Inv a c -> Inv (rollback a c) (rollback a c).
Proof.
  intros (Ha & Hc & Hle & Hid).
  assert (Hr : invoice_ids_drawn (rollback a c)).
  { apply (drawn_subset a); auto. }
  repeat split; try apply Hr; auto. simpl. lia.
Qed.

Lemma ids_frame_query {A} (stmt : db -> A * db) :
  (forall d, same_invoicing d (snd (stmt d))) -> preserves Inv (query stmt).
Proof.
  intros H. apply preserves_query. intros a c (Ha & Hc & Hle & Hid).
  destruct (H c) as (Hi & Hit & Hs).
  split; [exact Ha|]. split; [apply (drawn_same c); auto; apply H|].
  rewrite Hs. split; assumption.
Qed.

Lemma ids_standalone_parts {rt : Runtime} (id : Z) xs :
  preserves Inv (insert_standalone_parts id xs).
Proof.
  apply preserves_for_array. intros x.
  apply preserves_bind; [apply preserves_prop|]. intros a.
  apply preserves_bind; [apply preserves_bind_int|]. intros part_id.
  apply ids_frame_query. intros d. repeat split.
Qed.

Lemma ids_service_parts {rt : Runtime} (id : Z) xs :
  preserves Inv (insert_service_parts id xs).
Proof.
  apply preserves_for_array. intros x.
  apply preserves_bind; [apply preserves_prop|]. intros a.
  apply preserves_bind; [apply preserves_bind_int|]. intros service_id.
  apply preserves_bind; [apply preserves_bind_int|]. intros part_id.
  apply ids_frame_query. intros d. repeat split.
Qed.

Lemma ids_vehicle_services {rt : Runtime} (id : Z) xs :
  preserves Inv
    (for_array xs
       (fun service_id =>
          service_id <- bind_int service_id ;;
          query (insert_vehicle_service id service_id))%tx).
Proof.
  apply preserves_for_array. intros x.
  apply preserves_bind; [apply preserves_bind_int|]. intros service_id.
  apply ids_frame_query. intros d. repeat split.
Qed.
End InvoiceIds.

(** An item inserted for an invoice id that has been drawn. *)
Lemma ids_insert_item (id : Z) kind item_id description quantity
    purchased_cost unit_price total :
  preserves (invoice_ids_ok (Some id))
    (query (insert_invoice_item id kind item_id description quantity
              purchased_cost unit_price total)).
Proof.
  apply preserves_query. intros a c (Ha & [Hc1 Hc2] & Hle & Hid).
  split; [exact Ha|]. split; [|split; [exact Hle | exact Hid]].
  split.
  - exact Hc1.
  - intros it Hit. simpl in Hit. apply in_app_or in Hit.
    destruct Hit as [Hit|[<-|[]]]; [apply Hc2; exact Hit | exact Hid].
Qed.

Lemma ids_service_loop {rt : Runtime} (id : Z) xs acc :
  preserves (invoice_ids_ok (Some id))
    (for_array_acc xs (invoice_service_line id) acc).
Proof.
  apply preserves_for_array_acc. intros s x. unfold invoice_service_line.
  apply preserves_bind; [apply preserves_prop|]. intros a.
  apply preserves_bind; [apply preserves_bind_int|]. intros item_id.
  apply preserves_bind; [|intros; apply preserves_ret].
  apply ids_insert_item.
Qed.

Lemma ids_part_loop {rt : Runtime} (id : Z) xs acc :
  preserves (invoice_ids_ok (Some id))
    (for_array_acc xs (invoice_part_line id) acc).
Proof.
  apply preserves_for_array_acc. intros s x. unfold invoice_part_line.
  apply preserves_bind; [apply preserves_prop|]. intros a.
  apply preserves_bind; [apply preserves_bind_int|]. intros part_id.
  apply preserves_bind;
    [apply ids_frame_query; intros d; repeat split|].
  intros rows. destruct rows as [|row rows]; [apply preserves_throw|].
  apply preserves_bind; [|intros; apply preserves_ret].
  apply ids_insert_item.
Qed.

Lemma invoice_set_totals_id subtotal tax total id i :
  i_id (invoice_set_totals subtotal tax total id i) = i_id i.
Proof. unfold invoice_set_totals. destruct (i_id i =? id); reflexivity. Qed.

Lemma ids_update_totals (oid : option Z) subtotal tax total id :
  preserves (invoice_ids_ok oid)
    (query (update_invoice_totals subtotal tax total id)).
Proof.
  apply preserves_query. intros a c (Ha & [Hc1 Hc2] & Hle & Hid).
  split; [exact Ha|]. split; [|split; [exact Hle | exact Hid]].
  split.
  - intros i Hi. simpl in Hi. apply in_map_iff in Hi.
    destruct Hi as (i0 & <- & Hi0). rewrite invoice_set_totals_id.
    apply Hc1; exact Hi0.
  - exact Hc2.
Qed.

Lemma post_invoice_keeps_ids_drawn {rt : Runtime} body d :
  invoice_ids_drawn d -> invoice_ids_drawn (snd (post_invoice body d)).
Proof.
  intros Hd. unfold post_invoice, try_catch.
  destruct (_ || _); [exact Hd|].
  unfold bind at 1. cbn [BEGIN connect current at_begin].
  unfold bind at 1. unfold bind_int.
  destruct (int_accepted (field "vehicle_id" body));
    [unfold ret at 1
    |simpl; apply (drawn_subset d); auto; simpl; lia].
  unfold bind at 1. unfold query at 1.
  cbn [current at_begin insert_invoice i_id].
  set (id := seq_invoices (seqs d)).
  match goal with
  | |- context [?m {| at_begin := d; current := ?d1 |}] =>
      set (rest := m); set (c1 := {| at_begin := d; current := d1 |})
  end.
  assert (Hrest : preserves (invoice_ids_ok (Some id)) rest).
  { unfold rest.
    apply preserves_bind; [apply ids_service_loop|]. intros t1.
    apply preserves_bind; [apply ids_part_loop|]. intros t2.
    apply preserves_bind; [apply ids_update_totals|]. intros _.
    apply preserves_bind; [apply preserves_COMMIT, ids_commit|].
    intros _. apply preserves_ret. }
  assert (Hc1 : conn_ok (invoice_ids_ok (Some id)) c1).
  { destruct Hd as [H1 H2]. unfold conn_ok, c1, invoice_ids_ok.
    cbn [at_begin current]. split; [split; assumption|].
    split; [|simpl; fold id; lia].
    split.
    - intros i Hi. simpl in Hi. apply in_app_or in Hi.
      destruct Hi as [Hi|[<-|[]]]; simpl.
      + specialize (H1 i Hi). lia.
      + fold id. lia.
    - intros it Hit. simpl in *. specialize (H2 it Hit). lia. }
  pose proof (caught_preserves _ (ids_commit (Some id))
                (ids_rollback (Some id)) rest c1 Hrest Hc1) as Hres.
  destruct (rest c1) as [r c|m c]; simpl in *; apply Hres.
Qed.

Lemma post_vehicle_keeps_ids_drawn {rt : Runtime} body now d :
  invoice_ids_drawn d -> invoice_ids_drawn (snd (post_vehicle body now d)).
Proof.
  intros Hd. unfold post_vehicle.
  apply (try_catch_preserves (invoice_ids_ok None) (ids_commit None)
           (ids_rollback None)).
  - destruct (_ || _); [apply preserves_ret|].
    apply preserves_bind; [apply preserves_BEGIN, ids_commit|]. intros _.
    apply preserves_bind;
      [apply ids_frame_query; intros d0; repeat split|]. intros vehicle.
    apply preserves_bind; [apply ids_vehicle_services|]. intros _.
    apply preserves_bind; [apply ids_standalone_parts|]. intros _.
    apply preserves_bind; [apply ids_service_parts|]. intros _.
    apply preserves_bind; [apply preserves_COMMIT, ids_commit|]. intros _.
    apply preserves_ret.
  - repeat split; try apply Hd. lia.
Qed.

Lemma put_vehicle_keeps_ids_drawn {rt : Runtime} id body d :
  invoice_ids_drawn d -> invoice_ids_drawn (snd (put_vehicle id body d)).
Proof.
  intros Hd. unfold put_vehicle.
  apply (try_catch_preserves (invoice_ids_ok None) (ids_commit None)
           (ids_rollback None)).
  - destruct (_ || _); [apply preserves_ret|].
    apply preserves_bind; [apply preserves_BEGIN, ids_commit|]. intros _.
    apply preserves_bind;
      [apply ids_frame_query; intros d0; repeat split|]. intros rows.
    destruct rows as [|row rows].
    { apply preserves_bind; [apply preserves_ROLLBACK, ids_rollback|].
      intros _. apply preserves_ret. }
    apply preserves_bind;
      [apply ids_frame_query; intros d0; repeat split|]. intros _.
    apply preserves_bind; [apply ids_standalone_parts|]. intros _.
    apply preserves_bind;
      [apply ids_frame_query; intros d0; repeat split|]. intros _.
    apply preserves_bind; [apply ids_service_parts|]. intros _.
    apply preserves_bind; [apply preserves_COMMIT, ids_commit|]. intros _.
    apply preserves_ret.
  - repeat split; try apply Hd. lia.
Qed.

Lemma delete_invoice_unfold (id : Z) (d : db) :
  delete_invoice id d =
    (if Nat.eqb (List.length (filter (fun i => i_id i =? id) (invoices d))) 0
     then json_error 404 "Invoice not found"
     else {| status := 204; sent := Empty |},
     set_invoices
       (set_invoice_items d
          (filter (fun it => negb (ii_invoice_id it =? id))
                  (invoice_items d)))
       (filter (fun i => negb (i_id i =? id)) (invoices d))).
Proof.
  unfold delete_invoice, try_catch. cbn.
  destruct (Nat.eqb _ 0); reflexivity.
Qed.

Lemma filter_incl_In {A} (f : A -> bool) (l : list A) (x : A) :
  In x (filter f l) -> In x l.
Proof. intros H. apply filter_In in H. tauto. Qed.

(** Every request leaves the invoice ids drawn from the sequence, so the
    property holds of every store the server reaches from one without
    invoices. *)
Lemma serve_keeps_ids_drawn {rt : Runtime} (rq : request) (now : Z)
    (d : db) :
  invoice_ids_drawn d -> invoice_ids_drawn (snd (serve rq now d)).
Proof.
  intros Hd. unfold serve.
  apply (dispatch_ind (fun r => invoice_ids_drawn (snd r))); [exact Hd|].
  intros r ps Hin _ _.
  assert (Hsame : forall d', same_invoicing d d' -> invoice_ids_drawn d').
  { intros d' H. exact (drawn_same d d' H Hd). }
  assert (Hrefl : same_invoicing d d) by (repeat split).
  unfold app in Hin. simpl in Hin.
  repeat (destruct Hin as [<-|Hin]); [..|destruct Hin];
    cbn [r_handler r_pattern r_method] in *;
    try (destruct ps as [|id' [|? ?]]; [exact Hd| |exact Hd]);
    simpl.
  - apply Hsame. unfold post_part. split_ifs; repeat split.
  - apply Hsame. unfold put_part. cbn. split_ifs; repeat split.
  - apply Hsame. unfold delete_part_handler. cbn. split_ifs; repeat split.
  - apply Hsame. unfold post_worker. split_ifs; repeat split.
  - apply Hsame. rewrite delete_worker_unfold. repeat split.
  - apply Hsame. unfold put_assign_worker. cbn. split_ifs; repeat split.
  - apply post_vehicle_keeps_ids_drawn, Hd.
  - apply put_vehicle_keeps_ids_drawn, Hd.
  - apply Hsame. unfold put_vehicle_exit. split_ifs; repeat split.
  - unfold with_ids. destruct ps as [|a [|b [|? ?]]]; try exact Hd.
    apply Hsame. unfold put_vehicle_service. cbn. split_ifs; repeat split.
  - apply Hsame. unfold delete_vehicle_plain. cbn. split_ifs; repeat split.
  - apply post_invoice_keeps_ids_drawn, Hd.
  - rewrite get_invoice_pdf_same. exact Hd.
  - apply Hsame. unfold post_worker_payment. split_ifs; repeat split.
  - rewrite delete_vehicle_cascade_unfold. simpl snd.
    apply (drawn_subset d); auto; try (simpl; lia);
      intros x Hx; simpl in Hx; eapply filter_incl_In; exact Hx.
  - rewrite delete_invoice_unfold. simpl snd.
    apply (drawn_subset d); auto; try (simpl; lia);
      intros x Hx; simpl in Hx; eapply filter_incl_In; exact Hx.
Qed.

Lemma no_invoices_ids_drawn (d : db) :
  invoices d = [] -> invoice_items d = [] -> invoice_ids_drawn d.
Proof. intros H1 H2. split; intros x Hx; rewrite ?H1, ?H2 in Hx; destruct Hx. Qed.

(* ================================================================== *)
(** ** Further properties                                              *)
(* ================================================================== *)

(* ------------------------------------------------------------------ *)
(** *** ORDER BY                                                        *)
(* ------------------------------------------------------------------ *)

Section OrderByFacts.
Context {A : Type} (before : A -> A -> bool).
Hypothesis before_total : forall a b, before a b = true \/ before b a = true.
Hypothesis before_trans :
  forall a b c, before a b = true -> before b c = true -> before a c = true.

Lemma insert_row_perm (x : A) (l : list A) :
  Permutation (insert_row before x l) (x :: l).
Proof.
  induction l as [|y l IH]; simpl; [reflexivity|].
  destruct (before x y); [reflexivity|].
  rewrite IH. apply perm_swap.
Qed.

Lemma order_by_perm (l : list A) : Permutation (order_by before l) l.
Proof.
  induction l as [|x l IH]; simpl; [reflexivity|].
  rewrite insert_row_perm. apply perm_skip, IH.
Qed.

Lemma insert_row_sorted (x : A) (l : list A) :
  StronglySorted (fun a b => before a b = true) l ->
  StronglySorted (fun a b => before a b = true) (insert_row before x l).
Proof.
  induction l as [|y l IH]; intros Hs; simpl.
  - constructor; constructor.
  - inversion Hs as [|? ? Hl Hy]; subst.
    destruct (before x y) eqn:E.
    + constructor; [exact Hs|]. constructor; [exact E|].
      rewrite Forall_forall in *. intros z Hz.
      apply (before_trans x y z E). apply Hy; exact Hz.
    + constructor; [apply IH; exact Hl|].
      rewrite Forall_forall in *. intros z Hz.
      apply (Permutation_in _ (insert_row_perm x l)) in Hz.
      destruct Hz as [<-|Hz]; [|apply Hy; exact Hz].
      destruct (before_total x y) as [H|H]; [congruence | exact H].
Qed.

Lemma order_by_sorted (l : list A) :
  StronglySorted (fun a b => before a b = true) (order_by before l).
Proof.
  induction l as [|x l IH]; simpl; [constructor|].
  apply insert_row_sorted, IH.
Qed.
End OrderByFacts.

Lemma payment_before_total (a b : worker_payment) :
  payment_before a b = true \/ payment_before b a = true.
Proof.
  unfold payment_before.
  destruct (Z.lt_trichotomy (wp_payment_date a) (wp_payment_date b))
    as [H|[H|H]].
  - right. apply orb_true_iff. left. apply Z.ltb_lt. exact H.
  - destruct (Z.le_ge_cases (wp_id a) (wp_id b)) as [Hi|Hi].
    + right. apply orb_true_iff. right. apply andb_true_iff. split.
      * apply Z.eqb_eq. exact H.
      * apply Z.leb_le. exact Hi.
    + left. apply orb_true_iff. right. apply andb_true_iff. split.
      * apply Z.eqb_eq. symmetry. exact H.
      * apply Z.leb_le. exact Hi.
  - left. apply orb_true_iff. left. apply Z.ltb_lt. exact H.
Qed.

Lemma payment_before_spec (a b : worker_payment) :
  payment_before a b = true <->
  wp_payment_date b < wp_payment_date a \/
  (wp_payment_date b = wp_payment_date a /\ wp_id b <= wp_id a).
Proof.
  unfold payment_before.
  rewrite orb_true_iff, andb_true_iff, Z.ltb_lt, Z.eqb_eq, Z.leb_le.
  reflexivity.
Qed.

Lemma payment_before_trans (a b c : worker_payment) :
  payment_before a b = true -> payment_before b c = true ->
  payment_before a c = true.
Proof. rewrite !payment_before_spec. lia. Qed.

(* ------------------------------------------------------------------ *)
(** *** Reading the payments of a worker                                *)
(* ------------------------------------------------------------------ *)

(** The payments of a worker are listed from the latest payment_date to
    the earliest, payments of one date from the highest id to the lowest;
    the list holds the payments of that worker, each once, and no other.
    A worker id without a row is answered 404. *)
Theorem get_worker_payments_lists_latest_first (id : Z) (d : db) :
  (~ worker_exists id d ->
     get_worker_payments id d = Refused 404 "Worker not found")
  /\
  (worker_exists id d ->
     exists v,
       get_worker_payments id d = Found v
       /\ In (pv_worker v) (workers d) /\ w_id (pv_worker v) = id
       /\ Permutation (pv_payments v)
            (filter (fun p => wp_worker_id p =? id) (worker_payments d))
       /\ StronglySorted
            (fun a b =>
               wp_payment_date b < wp_payment_date a \/
               (wp_payment_date b = wp_payment_date a /\ wp_id b <= wp_id a))
            (pv_payments v)).
Proof.
  unfold get_worker_payments. split.
  - intros Hno.
    destruct (filter (fun w => w_id w =? id) (workers d)) as [|w l] eqn:F;
      [reflexivity|].
    exfalso. apply Hno.
    assert (Hw : In w (filter (fun w => w_id w =? id) (workers d)))
      by (rewrite F; left; reflexivity).
    apply filter_In in Hw. destruct Hw as [Hin Hw].
    exists w. split; auto. apply Z.eqb_eq. exact Hw.
  - intros (w0 & Hw0 & Hid0).
    destruct (filter (fun w => w_id w =? id) (workers d)) as [|w l] eqn:F.
    { exfalso. rewrite filter_nil_iff in F. specialize (F w0 Hw0).
      simpl in F. apply Z.eqb_neq in F. contradiction. }
    assert (Hw : In w (filter (fun w => w_id w =? id) (workers d)))
      by (rewrite F; left; reflexivity).
    apply filter_In in Hw. destruct Hw as [Hin Hw]. apply Z.eqb_eq in Hw.
    eexists. split; [reflexivity|]. cbn [pv_worker pv_payments].
    split; [exact Hin|]. split; [exact Hw|]. split.
    + apply order_by_perm.
    + unfold select_worker_payments.
      pose proof (order_by_sorted payment_before payment_before_total
                    payment_before_trans
                    (filter (fun p => wp_worker_id p =? id)
                            (worker_payments d))) as Hs.
      induction Hs as [|a l' Hl IH Ha]; constructor; auto.
      rewrite Forall_forall in *. intros b Hb.
      apply payment_before_spec. apply Ha; exact Hb.
Qed.

Lemma get_worker_payments_lists_latest_first_witness :
  worker_exists 7 Examples.garage /\
  ~ worker_exists 8 Examples.garage /\
  get_worker_payments 8 Examples.garage = Refused 404 "Worker not found" /\
  exists v,
    get_worker_payments 7 Examples.garage = Found v
    /\ map wp_id (pv_payments v) = [3; 2; 1].
Proof.
  assert (H7 : worker_exists 7 Examples.garage).
  { exists Examples.mechanic. split; [left; reflexivity | reflexivity]. }
  assert (H8 : ~ worker_exists 8 Examples.garage).
  { intros (w & [<-|[]] & Hid). discriminate Hid. }
  split; [exact H7|]. split; [exact H8|]. split.
  - exact (proj1 (get_worker_payments_lists_latest_first 8 Examples.garage)
                 H8).
  - destruct (proj2 (get_worker_payments_lists_latest_first 7
                       Examples.garage) H7) as (v & Heq & _).
    exists v. split; [exact Heq|].
    vm_compute in Heq. inversion Heq. reflexivity.
Defined.


(** Recording a payment adds its amount to what the worker was paid and
    shows the new row in the listing; what the other workers were paid is
    not changed. *)
Theorem post_worker_payment_adds_to_total
    {rt : Runtime} (id : Z) (body : jsval) (now : Z) (d : db) :
  status (fst (post_worker_payment id body now d)) = 201 ->
  let d' := snd (post_worker_payment id body now d) in
  get_worker_payments_total id d' =n=
    add (get_worker_payments_total id d) (Number (field "amount" body))
  /\ (forall other, other <> id ->
        get_worker_payments_total other d' =
        get_worker_payments_total other d)
  /\ (worker_exists id d ->
      exists row listing,
        sent (fst (post_worker_payment id body now d)) = PaymentRow row
        /\ get_worker_payments id d' = Found listing
        /\ In row (pv_payments listing)
        /\ List.length (pv_payments listing) =
           S (List.length (filter (fun p => wp_worker_id p =? id)
                                  (worker_payments d)))).
Proof.
  unfold post_worker_payment.
  destruct (negb (truthy (field "amount" body))
            || isNaN (Number (field "amount" body))); [discriminate|].
  intros _. cbn [snd fst insert_worker_payment sent].
  unfold get_worker_payments_total, Number_of_numeric, sum_amounts.
  cbn [worker_payments set_seqs set_worker_payments].
  repeat split.
  - rewrite filter_app. cbn [filter wp_worker_id]. rewrite Z.eqb_refl.
    set (old := filter _ (worker_payments d)).
    induction old as [|p l IH]; cbn [app fold_right wp_amount].
    + destruct (Number (field "amount" body)); simpl; auto. ring.
    + eapply num_eq_trans;
        [apply add_compat; [apply num_eq_refl | exact IH]|].
      apply num_eq_sym, add_assoc.
  - intros other Hne. rewrite filter_app. cbn [filter wp_worker_id].
    apply Z.eqb_neq in Hne. rewrite Z.eqb_sym, Hne, app_nil_r. reflexivity.
  - intros (w & Hw & Hid). unfold get_worker_payments.
    cbn [workers set_seqs set_worker_payments].
    destruct (filter (fun w => w_id w =? id) (workers d)) as [|w' l] eqn:F.
    { exfalso. rewrite filter_nil_iff in F. specialize (F w Hw).
      simpl in F. apply Z.eqb_neq in F. contradiction. }
    eexists. eexists. split; [reflexivity|]. split; [reflexivity|].
    cbn [pv_payments]. unfold select_worker_payments.
    cbn [worker_payments set_seqs set_worker_payments].
    rewrite filter_app. cbn [filter wp_worker_id]. rewrite Z.eqb_refl.
    split.
    + apply (Permutation_in _ (Permutation_sym (order_by_perm _ _))).
      apply in_or_app. right. left. reflexivity.
    + rewrite (Permutation_length (order_by_perm _ _)), length_app.
      simpl. lia.
Qed.

Lemma post_worker_payment_adds_to_total_witness :
  let body := JObj [("amount", Examples.num 2500)] in
  let d' := snd (post_worker_payment (rt := Examples.runtime) 7 body 9000
                   Examples.garage) in
  status (fst (post_worker_payment (rt := Examples.runtime) 7 body 9000
                 Examples.garage)) = 201 /\
  get_worker_payments_total 7 d' =n= Num 33000 /\
  exists listing,
    get_worker_payments 7 d' = Found listing
    /\ List.length (pv_payments listing) = 4%nat.
Proof.
  intros body d'.
  destruct (post_worker_payment_adds_to_total (rt := Examples.runtime) 7
              body 9000 Examples.garage eq_refl) as (Htot & _ & Hlist).
  split; [reflexivity|]. split.
  - eapply num_eq_trans; [exact Htot | reflexivity].
  - destruct Hlist as (row & listing & _ & Heq & _ & Hlen).
    { exists Examples.mechanic. split; [left; reflexivity | reflexivity]. }
    exists listing. split; [exact Heq | exact Hlen].
Defined.

(** Once a worker has been deleted, with whatever answer, the payments
    listing and the payments PDF of that id are answered 404 and the total
    paid reads 0. *)
Theorem deleted_worker_has_no_payments (id : Z) (d : db) :
  let d' := snd (delete_worker id d) in
  get_worker_payments id d' = Refused 404 "Worker not found"
  /\ get_worker_payments_pdf id d' = Refused 404 "Worker not found"
  /\ get_worker_payments_total id d' = Num 0.
Proof.
  rewrite delete_worker_unfold. cbn [snd].
  unfold get_worker_payments, get_worker_payments_pdf,
    get_worker_payments_total, sum_amounts, Number_of_numeric.
  cbn [workers worker_payments set_workers set_worker_payments].
  rewrite (filter_negb_idem (fun w => w_id w =? id)).
  rewrite (filter_negb_idem (fun p => wp_worker_id p =? id)).
  repeat split.
Qed.

(* ------------------------------------------------------------------ *)
(** *** Reading invoices                                                *)
(* ------------------------------------------------------------------ *)

Lemma insert_by_id_perm (x : invoice_item) (l : list invoice_item) :
  Permutation (insert_by_id x l) (x :: l).
Proof.
  induction l as [|y l IH]; simpl; [reflexivity|].
  destruct (ii_id x <? ii_id y); [reflexivity|].
  rewrite IH. apply perm_swap.
Qed.

Lemma order_by_id_perm (l : list invoice_item) :
  Permutation (order_by_id l) l.
Proof.
  induction l as [|x l IH]; simpl; [reflexivity|].
  rewrite insert_by_id_perm. apply perm_skip, IH.
Qed.

Lemma insert_by_id_sorted (x : invoice_item) (l : list invoice_item) :
  StronglySorted (fun a b => ii_id a <= ii_id b) l ->
  StronglySorted (fun a b => ii_id a <= ii_id b) (insert_by_id x l).
Proof.
  induction l as [|y l IH]; intros Hs; simpl.
  - constructor; constructor.
  - inversion Hs as [|? ? Hl Hy]; subst.
    destruct (ii_id x <? ii_id y) eqn:E.
    + apply Z.ltb_lt in E. constructor; [exact Hs|].
      constructor; [lia|].
      rewrite Forall_forall in *. intros z Hz. specialize (Hy z Hz). lia.
    + apply Z.ltb_ge in E. constructor; [apply IH; exact Hl|].
      rewrite Forall_forall in *. intros z Hz.
      apply (Permutation_in _ (insert_by_id_perm x l)) in Hz.
      destruct Hz as [<-|Hz]; [exact E | apply Hy; exact Hz].
Qed.

Lemma order_by_id_sorted (l : list invoice_item) :
  StronglySorted (fun a b => ii_id a <= ii_id b) (order_by_id l).
Proof.
  induction l as [|x l IH]; simpl; [constructor|].
  apply insert_by_id_sorted, IH.
Qed.

(** The lines of an invoice, in GET /api/invoices/:id and in its PDF, are
    the items of that invoice, each once and no item of another invoice,
    in the order of their ids. *)
Theorem invoice_lines_in_id_order {rt : Runtime} (id : Z) (d : db) :
  (forall view,
     get_invoice id d = Found view ->
     Permutation (iv_items view) (items_of id d)
     /\ StronglySorted (fun a b => ii_id a <= ii_id b) (iv_items view))
  /\
  (forall doc,
     sent (fst (get_invoice_pdf id d)) = InvoicePdf doc ->
     Permutation (pdf_items doc) (items_of id d)
     /\ StronglySorted (fun a b => ii_id a <= ii_id b) (pdf_items doc)).
Proof.
  split.
  - intros view. unfold get_invoice.
    destruct (select_invoice_joined id d) as [|[i v] l]; [discriminate|].
    intros H. inversion H; subst. cbn [iv_items]. split.
    + apply order_by_id_perm.
    + apply order_by_id_sorted.
  - intros doc. unfold get_invoice_pdf.
    destruct (select_invoice_with_vehicle id d) as [|[r v] l];
      [discriminate|].
    cbn [fst sent]. intros H. inversion H; subst. cbn [pdf_items]. split.
    + apply order_by_id_perm.
    + apply order_by_id_sorted.
Qed.

Lemma invoice_lines_in_id_order_witness :
  exists view doc,
    get_invoice 1 Examples.garage_invoiced = Found view
    /\ sent (fst (get_invoice_pdf (rt := Examples.runtime) 1
                    Examples.garage_invoiced)) = InvoicePdf doc
    /\ Permutation (iv_items view) (items_of 1 Examples.garage_invoiced)
    /\ Permutation (pdf_items doc) (items_of 1 Examples.garage_invoiced)
    /\ map ii_id (iv_items view) = [1; 2].
Proof.
  eexists. eexists. split; [reflexivity|]. split; [reflexivity|].
  destruct (invoice_lines_in_id_order (rt := Examples.runtime) 1
              Examples.garage_invoiced) as [Hv Hd].
  split; [exact (proj1 (Hv _ eq_refl))|].
  split; [exact (proj1 (Hd _ eq_refl))|]. reflexivity.
Defined.

Lemma in_joined (d : db) (l : list invoice) (i : invoice) (v : vehicle) :
  In (i, v)
     (flat_map
        (fun i => map (fun v => (i, v))
                      (filter (fun v => id_eqb (i_vehicle_id i) (v_id v))
                              (vehicles d))) l)
  <-> In i l /\ In v (vehicles d) /\ i_vehicle_id i = Some (v_id v).
Proof.
  rewrite in_flat_map. split.
  - intros (i0 & Hi0 & Hin). apply in_map_iff in Hin.
    destruct Hin as (v0 & Heq & Hv0). inversion Heq; subst.
    apply filter_In in Hv0. destruct Hv0 as [Hv Hid].
    split; [exact Hi0|]. split; [exact Hv|].
    unfold id_eqb in Hid. destruct (i_vehicle_id i); [|discriminate].
    apply Z.eqb_eq in Hid. congruence.
  - intros (Hi & Hv & Hid). exists i. split; [exact Hi|].
    apply in_map. apply filter_In. split; [exact Hv|].
    rewrite Hid. simpl. apply Z.eqb_refl.
Qed.

(** GET /api/invoices lists exactly the invoices whose vehicle_id is the
    id of a vehicle row, paired with that vehicle, from the highest
    invoice id to the lowest.  An invoice whose vehicle row is missing is
    not listed. *)
Theorem get_invoices_lists_joined (d : db) :
  (forall i v,
     In (i, v) (get_invoices d) <->
     In i (invoices d) /\ In v (vehicles d)
     /\ i_vehicle_id i = Some (v_id v))
  /\ StronglySorted (fun a b => i_id (fst b) <= i_id (fst a))
       (get_invoices d).
Proof.
  unfold get_invoices.
  set (before := fun a b : invoice * vehicle =>
                   i_id (fst b) <=? i_id (fst a)).
  split.
  - intros i v. rewrite <- in_joined. split; intros H.
    + exact (Permutation_in _ (order_by_perm before _) H).
    + exact (Permutation_in _ (Permutation_sym (order_by_perm before _)) H).
  - assert (Ht : forall a b, before a b = true \/ before b a = true).
    { intros a b. unfold before. rewrite !Z.leb_le. lia. }
    assert (Htr : forall a b c, before a b = true -> before b c = true ->
                                before a c = true).
    { intros a b c. unfold before. rewrite !Z.leb_le. lia. }
    pose proof (order_by_sorted before Ht Htr
                  (flat_map
                     (fun i => map (fun v => (i, v))
                                 (filter (fun v => id_eqb (i_vehicle_id i)
                                                          (v_id v))
                                         (vehicles d)))
                     (invoices d))) as Hs.
    induction Hs as [|a l' Hl IH Ha]; constructor; auto.
    rewrite Forall_forall in *. intros b Hb.
    specialize (Ha b Hb). unfold before in Ha. apply Z.leb_le. exact Ha.
Qed.

(** An invoice row can always be rendered as a PDF, but it can be fetched
    with GET /api/invoices/:id only while its vehicle row exists: the PDF
    query joins the vehicle with LEFT JOIN, the JSON query with JOIN, so an
    invoice whose vehicle row is missing is answered 404 "Invoice not
    found" there and is absent from the list of invoices. *)
Theorem get_invoice_needs_vehicle_row
    {rt : Runtime} (id : Z) (d : db) (inv : invoice) :
  invoice_rows id d = [inv] ->
  status (fst (get_invoice_pdf id d)) = 200
  /\ ((exists v, In v (vehicles d) /\ i_vehicle_id inv = Some (v_id v)) ->
      exists view, get_invoice id d = Found view /\ iv_invoice view = inv)
  /\ ((forall v, In v (vehicles d) -> i_vehicle_id inv <> Some (v_id v)) ->
      get_invoice id d = Refused 404 "Invoice not found"
      /\ (forall v, ~ In (inv, v) (get_invoices d))
      /\ exists doc, sent (fst (get_invoice_pdf id d)) = InvoicePdf doc
                     /\ pdf_vehicle doc = None
                     /\ pdf_invoice_id doc = i_id inv).
Proof.
  intros Hrow. unfold invoice_rows in Hrow.
  assert (Hjoin : forall l,
            filter (fun v => id_eqb (i_vehicle_id inv) (v_id v)) (vehicles d)
            = l ->
            select_invoice_joined id d = map (fun v => (inv, v)) l).
  { intros l <-. unfold select_invoice_joined. rewrite Hrow. simpl.
    apply app_nil_r. }
  split; [|split].
  - unfold get_invoice_pdf, select_invoice_with_vehicle. rewrite Hrow.
    simpl. destruct (filter _ (vehicles d)); reflexivity.
  - intros (v & Hv & Hid). unfold get_invoice.
    destruct (filter (fun v => id_eqb (i_vehicle_id inv) (v_id v))
                     (vehicles d)) as [|v0 l] eqn:F.
    { exfalso. rewrite filter_nil_iff in F. specialize (F v Hv).
      simpl in F. rewrite Hid in F. simpl in F. rewrite Z.eqb_refl in F.
      discriminate. }
    rewrite (Hjoin _ eq_refl). simpl. eexists. split; reflexivity.
  - intros Hnone.
    assert (F : filter (fun v => id_eqb (i_vehicle_id inv) (v_id v))
                       (vehicles d) = []).
    { apply filter_nil_iff. intros v Hv. specialize (Hnone v Hv).
      unfold id_eqb. destruct (i_vehicle_id inv) as [x|]; [|reflexivity].
      apply Z.eqb_neq. congruence. }
    split; [|split].
    + unfold get_invoice. rewrite (Hjoin _ F). reflexivity.
    + intros v Hin. unfold get_invoices in Hin.
      apply (Permutation_in _ (order_by_perm _ _)) in Hin.
      apply in_joined in Hin.
      destruct Hin as (_ & Hv & Hid). exact (Hnone v Hv Hid).
    + unfold get_invoice_pdf, select_invoice_with_vehicle. rewrite Hrow.
      simpl. rewrite F. simpl. eexists. repeat split.
Qed.

Lemma get_invoice_needs_vehicle_row_witness :
  get_invoice 1 (snd (delete_vehicle_plain 1 Examples.garage_invoiced))
  = Refused 404 "Invoice not found"
  /\ status (fst (get_invoice_pdf (rt := Examples.runtime) 1
                    (snd (delete_vehicle_plain 1 Examples.garage_invoiced))))
     = 200
  /\ exists view, get_invoice 1 Examples.garage_invoiced = Found view.
Proof.
  edestruct (get_invoice_needs_vehicle_row (rt := Examples.runtime) 1
               (snd (delete_vehicle_plain 1 Examples.garage_invoiced)))
    as (H200 & _ & Horphan); [reflexivity|].
  edestruct (get_invoice_needs_vehicle_row (rt := Examples.runtime) 1
               Examples.garage_invoiced)
    as (_ & Hfound & _); [reflexivity|].
  split; [apply Horphan; intros v []|]. split; [exact H200|].
  destruct Hfound as (view & Hview & _).
  - exists Examples.car. split; [left; reflexivity | reflexivity].
  - exists view. exact Hview.
Defined.

(* ------------------------------------------------------------------ *)
(** *** Uploaded files and the archive                                  *)
(* ------------------------------------------------------------------ *)

Lemma is_digit_safe (c : Z) : is_digit c = true -> is_safe c = true.
Proof. intros H. unfold is_safe, is_word. rewrite H. reflexivity. Qed.

Lemma uint_codes_digits (u : Decimal.uint) :
  forallb is_digit (uint_codes u) = true.
Proof. induction u; simpl; auto. Qed.

Lemma replace_unsafe_safe (s : text) : forall in_run,
  forallb is_safe (replace_unsafe in_run s) = true.
Proof.
  induction s as [|c s IH]; intros b; simpl; [reflexivity|].
  destruct (is_safe c) eqn:E.
  - simpl. rewrite E. apply IH.
  - destruct b; simpl; apply IH.
Qed.

Lemma replace_unsafe_length (s : text) : forall in_run,
  (List.length (replace_unsafe in_run s) <= List.length s)%nat.
Proof.
  induction s as [|c s IH]; intros b; simpl; [lia|].
  destruct (is_safe c); [|destruct b]; simpl;
    match goal with |- context [replace_unsafe ?b s] =>
      specialize (IH b) end; lia.
Qed.

Lemma replace_unsafe_id (s : text) : forall in_run,
  forallb is_safe s = true -> replace_unsafe in_run s = s.
Proof.
  induction s as [|c s IH]; intros b H; simpl in *; [reflexivity|].
  apply andb_prop in H. destruct H as [Hc Hs]. rewrite Hc.
  f_equal. apply IH. exact Hs.
Qed.

Lemma is_safe_separators (c : Z) :
  is_safe c = true -> c <> 47 /\ c <> 92 /\ c <> 0.
Proof.
  unfold is_safe, is_word, is_digit. intros H.
  repeat split; intros ->; discriminate H.
Qed.

(** The name under which an uploaded file is stored: whatever the name
    the client gave, every code unit of the stored name is a letter, a
    digit or one of [_ . - ( )] and the space, so the stored name holds
    no [/], no backslash and no NUL; it holds an underscore, so it is
    none of the empty name, [.] and [..]. *)
Theorem stored_filename_is_safe (now : Z) (originalname : text) :
  forallb (fun c => is_safe c && negb (c =? 47) && negb (c =? 92)
                    && negb (c =? 0))
          (filename now originalname) = true
  /\ In 95 (filename now originalname).
Proof.
  split.
  - assert (H : forallb is_safe (filename now originalname) = true).
    { unfold filename, decimal. rewrite forallb_app. simpl.
      rewrite replace_unsafe_safe, andb_true_r.
      generalize (uint_codes_digits (N.to_uint (Z.to_N now))).
      generalize (uint_codes (N.to_uint (Z.to_N now))).
      intros l. induction l as [|c l IH]; simpl; [reflexivity|].
      intros Hd. apply andb_prop in Hd. destruct Hd as [Hc Hl].
      rewrite (is_digit_safe c Hc). apply IH; exact Hl. }
    rewrite forallb_forall in *. intros c Hc. specialize (H c Hc).
    destruct (is_safe_separators c H) as (H1 & H2 & H3). rewrite H.
    apply Z.eqb_neq in H1, H2, H3. rewrite H1, H2, H3. reflexivity.
  - unfold filename. apply in_or_app. right. left. reflexivity.
Qed.

(** The file name filter leaves a name as it is exactly when every code
    unit of the name is in the class of the filter; it never makes a name
    longer, and filtering twice gives what filtering once gives. *)
Theorem replace_unsafe_keeps_safe_names (s : text) :
  (replace_unsafe false s = s <-> forallb is_safe s = true)
  /\ (List.length (replace_unsafe false s) <= List.length s)%nat
  /\ replace_unsafe false (replace_unsafe false s) = replace_unsafe false s.
Proof.
  split; [split|split].
  - intros H. rewrite <- H. apply replace_unsafe_safe.
  - apply replace_unsafe_id.
  - apply replace_unsafe_length.
  - apply replace_unsafe_id, replace_unsafe_safe.
Qed.

Lemma replace_unsafe_keeps_safe_names_witness :
  replace_unsafe false (codes "Invoice (3) - May.pdf")
  = codes "Invoice (3) - May.pdf"
  /\ forallb is_safe (codes "a/b") = false.
Proof.
  split.
  - apply (proj2 (proj1 (replace_unsafe_keeps_safe_names
                           (codes "Invoice (3) - May.pdf")))).
    reflexivity.
  - destruct (forallb is_safe (codes "a/b")) eqn:E; [|reflexivity].
    apply (proj2 (proj1 (replace_unsafe_keeps_safe_names (codes "a/b"))))
      in E. discriminate E.
Defined.

Lemma is_year_digits (s : text) :
  is_year s = true -> List.length s = 4%nat /\ forallb is_digit s = true.
Proof.
  unfold is_year. intros H. apply andb_prop in H. destruct H as [H1 H2].
  apply Nat.eqb_eq in H1. split; assumption.
Qed.

(** A file uploaded for a year is found in the listing of that year under
    the URL that the upload reported.  The directory that the upload
    accepts is the trimmed year field, made of four digits, hence a single
    path segment under INVOICE_DIR, and it is a year that the listing
    accepts. *)
Theorem archive_upload_is_listed
    (readdir : text -> option (list text)) (year : option text)
    (dir stored : text) (names : list text) :
  destination year = Some dir ->
  readdir dir = Some names ->
  In stored names ->
  List.length dir = 4%nat
  /\ forallb is_digit dir = true
  /\ exists listing,
       get_archive_files readdir dir = Found (dir, listing)
       /\ In (stored, uploaded_url year stored) listing.
Proof.
  unfold destination. intros Hdest Hdir Hin.
  destruct (is_year (year_of_body year)) eqn:Hy; [|discriminate].
  inversion Hdest; subst dir. clear Hdest.
  destruct (is_year_digits _ Hy) as [Hl Hd].
  split; [exact Hl|]. split; [exact Hd|].
  unfold get_archive_files. rewrite Hy, Hdir. simpl.
  eexists. split; [reflexivity|].
  unfold uploaded_url.
  apply (in_map (fun name => (name, file_url (year_of_body year) name))).
  exact Hin.
Qed.

Lemma archive_upload_is_listed_witness :
  exists listing,
    get_archive_files
      (fun dir => if text_eqb dir (codes "2024")
                  then Some [filename 1700000000000 (codes "a b?.pdf")]
                  else None)
      (codes "2024") = Found (codes "2024", listing)
    /\ In (codes "1700000000000_a b_.pdf",
           codes "/uploads/invoices/2024/1700000000000_a b_.pdf") listing.
Proof.
  destruct (archive_upload_is_listed
              (fun dir => if text_eqb dir (codes "2024")
                          then Some [filename 1700000000000
                                              (codes "a b?.pdf")]
                          else None)
              (Some (codes " 2024 ")) (codes "2024")
              (filename 1700000000000 (codes "a b?.pdf"))
              [filename 1700000000000 (codes "a b?.pdf")]
              eq_refl eq_refl (or_introl eq_refl))
    as (_ & _ & listing & H1 & H2).
  exists listing. split; [exact H1 | exact H2].
Defined.

(* ------------------------------------------------------------------ *)
(** *** CORS                                                            *)
(* ------------------------------------------------------------------ *)

Lemma trim_start_clean (l : text) : starts_clean (trim_start l).
Proof.
  induction l as [|c l IH]; simpl; [exact I|].
  destruct (is_space c) eqn:E; [exact IH | exact E].
Qed.

Lemma trim_start_id (l : text) : starts_clean l -> trim_start l = l.
Proof. destruct l as [|c l]; simpl; [reflexivity|]. intros ->. reflexivity. Qed.

Lemma trim_start_suffix (l : text) :
  exists sp, l = sp ++ trim_start l.
Proof.
  induction l as [|c l [sp IH]]; simpl; [exists []; reflexivity|].
  destruct (is_space c).
  - exists (c :: sp). simpl. f_equal. exact IH.
  - exists []. reflexivity.
Qed.

Lemma trim_end_prefix (l : text) : exists sp, l = trim_end l ++ sp.
Proof.
  unfold trim_end. destruct (trim_start_suffix (rev l)) as [sp H].
  exists (rev sp). rewrite <- rev_app_distr, <- H, rev_involutive.
  reflexivity.
Qed.

Lemma trim_end_starts_clean (l : text) :
  starts_clean l -> starts_clean (trim_end l).
Proof.
  intros H. destruct (trim_end_prefix l) as [sp E].
  destruct (trim_end l) as [|c t]; [exact I|].
  rewrite E in H. exact H.
Qed.

Lemma trim_idem (s : text) : trim (trim s) = trim s.
Proof.
  unfold trim.
  rewrite (trim_start_id (trim_end (trim_start s))).
  2:{ apply trim_end_starts_clean, trim_start_clean. }
  unfold trim_end at 1. unfold trim_end.
  rewrite rev_involutive.
  rewrite (trim_start_id (trim_start (rev (trim_start s)))).
  - reflexivity.
  - apply trim_start_clean.
Qed.

Lemma trim_incl (s : text) (c : Z) : In c (trim s) -> In c s.
Proof.
  unfold trim. intros H.
  destruct (trim_end_prefix (trim_start s)) as [sp1 E1].
  destruct (trim_start_suffix s) as [sp2 E2].
  rewrite E2, E1. apply in_or_app. right. apply in_or_app. left. exact H.
Qed.

Lemma split_no_sep (sep : Z) (s : text) :
  Forall (fun piece => ~ In sep piece) (split sep s).
Proof.
  induction s as [|c s IH]; simpl.
  - constructor; [intros []|constructor].
  - destruct (c =? sep) eqn:E.
    + constructor; [intros []|exact IH].
    + apply Z.eqb_neq in E. destruct (split sep s) as [|piece pieces].
      * constructor; [|constructor]. intros [H|[]]. congruence.
      * inversion IH; subst. constructor; [|assumption].
        intros [H|H]; [congruence|contradiction].
Qed.

Lemma text_eqb_eq (a b : text) : text_eqb a b = true <-> a = b.
Proof.
  revert b. induction a as [|x a IH]; intros [|y b]; simpl;
    try (split; [discriminate|discriminate]); [tauto|].
  rewrite andb_true_iff, Z.eqb_eq, IH. split.
  - intros [-> ->]. reflexivity.
  - intros H. inversion H. auto.
Qed.

(** The origins that CORS_ORIGIN allows are its comma-separated entries
    with the white space around them removed: none is empty, none has
    white space at either end, none holds a comma.  A request that names
    its origin is let through exactly when no origin is configured or
    its Origin header is one of these entries, compared as it stands. *)
Theorem cors_allows_configured_origins
    (CORS_ORIGIN : option text) (c : Z) (origin : text) :
  Forall (fun o => nonempty o = true /\ trim o = o /\ ~ In 44 o)
         (ALLOWED_ORIGINS CORS_ORIGIN)
  /\ (cors_origin (ALLOWED_ORIGINS CORS_ORIGIN) (Some (c :: origin)) = true
      <-> ALLOWED_ORIGINS CORS_ORIGIN = []
          \/ In (c :: origin) (ALLOWED_ORIGINS CORS_ORIGIN)).
Proof.
  split.
  - unfold ALLOWED_ORIGINS. rewrite Forall_forall. intros o Ho.
    apply filter_In in Ho. destruct Ho as [Ho Hne].
    apply in_map_iff in Ho. destruct Ho as (piece & <- & Hp).
    split; [exact Hne|]. split; [apply trim_idem|].
    intros H. apply trim_incl in H.
    pose proof (split_no_sep 44
                  (match CORS_ORIGIN with Some s => s | None => [] end)) as F.
    rewrite Forall_forall in F. exact (F piece Hp H).
  - unfold cors_origin.
    destruct (ALLOWED_ORIGINS CORS_ORIGIN) as [|a l] eqn:E.
    + split; [left; reflexivity | reflexivity].
    + rewrite existsb_exists. split.
      * intros (x & Hx & Heq). apply text_eqb_eq in Heq. subst x.
        right. exact Hx.
      * intros [H|H]; [discriminate|]. exists (c :: origin).
        split; [exact H | apply text_eqb_eq; reflexivity].
Qed.

Lemma cors_allows_configured_origins_witness :
  cors_origin (ALLOWED_ORIGINS (Some (codes " https://a.rw , ,https://b.rw")))
              (Some (codes "https://b.rw")) = true
  /\ ALLOWED_ORIGINS (Some (codes " https://a.rw , ,https://b.rw"))
     = [codes "https://a.rw"; codes "https://b.rw"].
Proof.
  split; [|reflexivity].
  apply (proj2 (cors_allows_configured_origins
                  (Some (codes " https://a.rw , ,https://b.rw"))
                  104 (codes "ttps://b.rw"))).
  right. right. left. reflexivity.
Defined.

(* ------------------------------------------------------------------ *)
(** *** Keys stay distinct                                              *)
(* ------------------------------------------------------------------ *)

Lemma table_ok_mono {R} (key : R -> Z) (rows : list R) (n n' : Z) :
  table_ok key rows n -> n <= n' -> table_ok key rows n'.
Proof.
  intros [H1 H2] Hle. split; [exact H1|].
  rewrite Forall_forall in *. intros r Hr. specialize (H2 r Hr). lia.
Qed.

Lemma table_ok_filter {R} (key : R -> Z) (f : R -> bool) (rows : list R)
    (n : Z) :
  table_ok key rows n -> table_ok key (filter f rows) n.
Proof.
  intros [H1 H2]. split.
  - clear H2. induction rows as [|r rows IH]; simpl; [constructor|].
    inversion H1 as [|? ? Hnot Hrest]; subst.
    destruct (f r); simpl; [|apply IH; exact Hrest].
    constructor; [|apply IH; exact Hrest].
    intros Hin. apply Hnot. apply in_map_iff in Hin.
    destruct Hin as (x & Hx & Hin). apply in_map_iff. exists x.
    split; [exact Hx|]. apply filter_In in Hin. tauto.
  - rewrite Forall_forall in *. intros r Hr. apply filter_In in Hr.
    apply H2. tauto.
Qed.

Lemma table_ok_map {R} (key : R -> Z) (f : R -> R) (rows : list R) (n : Z) :
  (forall r, key (f r) = key r) ->
  table_ok key rows n -> table_ok key (map f rows) n.
Proof.
  intros Hf [H1 H2]. split.
  - rewrite map_map. rewrite (map_ext _ key Hf). exact H1.
  - rewrite Forall_forall in *. intros r Hr. apply in_map_iff in Hr.
    destruct Hr as (x & <- & Hx). rewrite Hf. apply H2. exact Hx.
Qed.

Lemma table_ok_insert {R} (key : R -> Z) (rows : list R) (n : Z) (row : R) :
  table_ok key rows n -> key row = n ->
  table_ok key (rows ++ [row]) (n + 1).
Proof.
  intros [H1 H2] Hk. split.
  - rewrite map_app. simpl. rewrite Hk.
    rewrite Forall_forall in H2. clear Hk.
    induction rows as [|r rows IH]; simpl.
    + constructor; [intros []|constructor].
    + inversion H1 as [|? ? Hnot Hrest]; subst. constructor.
      * intros Hin. apply in_app_or in Hin. destruct Hin as [Hin|[Hin|[]]].
        -- exact (Hnot Hin).
        -- specialize (H2 r (or_introl eq_refl)). lia.
      * apply IH; [exact Hrest|]. intros x Hx. apply H2. right. exact Hx.
  - rewrite Forall_forall in *. intros r Hr. apply in_app_or in Hr.
    destruct Hr as [Hr|[<-|[]]]; [specialize (H2 r Hr)|]; lia.
Qed.

Lemma seqs_le_refl (d : db) : seqs_le d d.
Proof. unfold seqs_le. lia. Qed.

Lemma seqs_le_trans (a b c : db) : seqs_le a b -> seqs_le b c -> seqs_le a c.
Proof. unfold seqs_le. lia. Qed.

Lemma ids_unique_seqs (a c : db) :
  ids_unique a -> seqs_le a c -> ids_unique (rollback a c).
Proof.
  intros (Hp & Hw & Hv & Hi & Hii & Hwp) (L1 & L2 & L3 & L4 & L5 & L6).
  unfold ids_unique, rollback. simpl.
  split; [|split; [|split; [|split; [|split]]]];
    eapply table_ok_mono; eassumption.
Qed.

Local Arguments table_ok : simpl never.

Ltac key_kept :=
  intros ?r;
  unfold part_set, vehicle_set, vehicle_set_exit, invoice_set_totals;
  try match goal with |- context [if ?b then _ else _] => destruct b end;
  reflexivity.

Ltac grows_tac :=
  intros d (Hp & Hw & Hv & Hi & Hii & Hwp);
  split;
  [ unfold ids_unique; cbn;
    (split; [|split; [|split; [|split; [|split]]]]);
    first [ assumption
          | apply table_ok_filter; assumption
          | apply table_ok_map; [key_kept | assumption]
          | apply table_ok_insert; [assumption | reflexivity] ]
  | unfold seqs_le; cbn; lia ].

Lemma grows_insert_part a b c e f : grows (insert_part a b c e f).
Proof. grows_tac. Qed.

Lemma grows_update_part a b c e f id : grows (update_part a b c e f id).
Proof. grows_tac. Qed.

Lemma grows_delete_part id : grows (delete_part id).
Proof. grows_tac. Qed.

Lemma grows_select_part_costs id : grows (select_part_costs id).
Proof. grows_tac. Qed.

Lemma grows_insert_worker a b c e : grows (insert_worker a b c e).
Proof. grows_tac. Qed.

Lemma grows_delete_worker_row id : grows (delete_worker_row id).
Proof. grows_tac. Qed.

Lemma grows_unassign_worker id : grows (unassign_worker id).
Proof. grows_tac. Qed.

Lemma grows_assign_worker_row w id : grows (assign_worker_row w id).
Proof. grows_tac. Qed.

Lemma grows_delete_worker_payments id : grows (delete_worker_payments id).
Proof. grows_tac. Qed.

Lemma grows_insert_worker_payment id amount m n w now :
  grows (insert_worker_payment id amount m n w now).
Proof. grows_tac. Qed.

Lemma grows_insert_vehicle a b c e f g h now :
  grows (insert_vehicle a b c e f g h now).
Proof. grows_tac. Qed.

Lemma grows_update_vehicle_row a b c e f g h id :
  grows (update_vehicle_row a b c e f g h id).
Proof. grows_tac. Qed.

Lemma grows_set_exit_time id now : grows (set_exit_time id now).
Proof. grows_tac. Qed.

Lemma grows_delete_vehicle_row id : grows (delete_vehicle_row id).
Proof. grows_tac. Qed.

Lemma grows_insert_vehicle_service id s : grows (insert_vehicle_service id s).
Proof. grows_tac. Qed.

Lemma grows_insert_vehicle_part id p q : grows (insert_vehicle_part id p q).
Proof. grows_tac. Qed.

Lemma grows_insert_vehicle_service_part id s p q :
  grows (insert_vehicle_service_part id s p q).
Proof. grows_tac. Qed.

Lemma grows_delete_vehicle_parts id : grows (delete_vehicle_parts id).
Proof. grows_tac. Qed.

Lemma grows_delete_vehicle_service_parts id :
  grows (delete_vehicle_service_parts id).
Proof. grows_tac. Qed.

Lemma grows_update_vehicle_service s t v sid :
  grows (update_vehicle_service s t v sid).
Proof. grows_tac. Qed.

Lemma grows_insert_invoice v days : grows (insert_invoice v days).
Proof. grows_tac. Qed.

Lemma grows_insert_invoice_item id k i desc q p u t :
  grows (insert_invoice_item id k i desc q p u t).
Proof. grows_tac. Qed.

Lemma grows_update_invoice_totals s t tot id :
  grows (update_invoice_totals s t tot id).
Proof. grows_tac. Qed.

Lemma grows_delete_invoice_items_of_vehicle id :
  grows (delete_invoice_items_of_vehicle id).
Proof. grows_tac. Qed.

Lemma grows_delete_invoices_of_vehicle id :
  grows (delete_invoices_of_vehicle id).
Proof. grows_tac. Qed.

Lemma grows_delete_invoice_items id : grows (delete_invoice_items id).
Proof. grows_tac. Qed.

Lemma grows_delete_invoice_row id : grows (delete_invoice_row id).
Proof. grows_tac. Qed.

Section UniqueIds.
Variable d0 : db.

Lemma uids_commit (a c : db) : ids_ok d0 a c -> ids_ok d0 c c.
Proof.
  intros (Ha & Hc & Hle & H0). repeat split; try apply Hc;
    try apply seqs_le_refl; apply (seqs_le_trans d0 a c); assumption.
Qed.

Lemma uids_rollback (a c : db) :
  ids_ok d0 a c -> ids_ok d0 (rollback a c) (rollback a c).
Proof.
  intros (Ha & Hc & Hle & H0).
  assert (Hr : ids_unique (rollback a c)) by (apply ids_unique_seqs; auto).
  split; [exact Hr|]. split; [exact Hr|]. split; [apply seqs_le_refl|].
  apply (seqs_le_trans d0 a); [exact H0|]. exact Hle.
Qed.

Lemma uids_query {A} (stmt : db -> A * db) :
  grows stmt -> preserves (ids_ok d0) (query stmt).
Proof.
  intros H. apply preserves_query. intros a c (Ha & Hc & Hle & H0).
  destruct (H c Hc) as [Hu Hs].
  split; [exact Ha|]. split; [exact Hu|].
  split; [apply (seqs_le_trans a c); assumption | exact H0].
Qed.

Lemma uids_start : ids_unique d0 -> ids_ok d0 d0 d0.
Proof. intros H. repeat split; try apply H; apply seqs_le_refl. Qed.

Lemma uids_try_catch (body : tx response) (msg : string) :
  ids_unique d0 -> preserves (ids_ok d0) body ->
  ids_unique (snd (try_catch body (catch_rollback msg) d0))
  /\ seqs_le d0 (snd (try_catch body (catch_rollback msg) d0)).
Proof.
  intros Hd Hb.
  pose proof (try_catch_preserves (ids_ok d0) uids_commit uids_rollback
                body msg d0 Hb (uids_start Hd)) as (H1 & _ & _ & H4).
  split; assumption.
Qed.

Lemma uids_statement {A} (stmt : db -> A * db) :
  grows stmt -> ids_unique d0 ->
  ids_unique (snd (stmt d0)) /\ seqs_le d0 (snd (stmt d0)).
Proof. intros H Hd. exact (H d0 Hd). Qed.

Lemma uids_same : ids_unique d0 -> ids_unique d0 /\ seqs_le d0 d0.
Proof. intros H. split; [exact H | apply seqs_le_refl]. Qed.
End UniqueIds.

Ltac uids_tac :=
  repeat first
    [ apply preserves_ret
    | apply preserves_throw
    | apply preserves_prop
    | apply preserves_bind_int
    | (apply preserves_BEGIN; apply uids_commit)
    | (apply preserves_COMMIT; apply uids_commit)
    | (apply preserves_ROLLBACK; apply uids_rollback)
    | (apply uids_query;
       first [ apply grows_insert_vehicle
             | apply grows_update_vehicle_row
             | apply grows_insert_vehicle_service
             | apply grows_insert_vehicle_part
             | apply grows_insert_vehicle_service_part
             | apply grows_delete_vehicle_parts
             | apply grows_delete_vehicle_service_parts
             | apply grows_insert_invoice
             | apply grows_insert_invoice_item
             | apply grows_update_invoice_totals
             | apply grows_select_part_costs
             | apply grows_unassign_worker
             | apply grows_delete_worker_payments
             | apply grows_delete_worker_row
             | apply grows_delete_invoice_items_of_vehicle
             | apply grows_delete_invoices_of_vehicle
             | apply grows_delete_vehicle_row
             | apply grows_delete_invoice_items
             | apply grows_delete_invoice_row ])
    | (apply preserves_bind; [|intros])
    | (apply preserves_for_array; intros)
    | (apply preserves_for_array_acc; intros)
    | match goal with
      | |- preserves _ (if ?b then _ else _) => destruct b
      | |- preserves _ (match ?x with [] => _ | _ :: _ => _ end) =>
          destruct x
      end ].

Lemma post_vehicle_ids {rt : Runtime} body now d :
  ids_unique d ->
  ids_unique (snd (post_vehicle body now d))
  /\ seqs_le d (snd (post_vehicle body now d)).
Proof.
  intros Hd. unfold post_vehicle. apply uids_try_catch; [exact Hd|].
  unfold insert_standalone_parts, insert_service_parts. uids_tac.
Qed.

Lemma put_vehicle_ids {rt : Runtime} id body d :
  ids_unique d ->
  ids_unique (snd (put_vehicle id body d))
  /\ seqs_le d (snd (put_vehicle id body d)).
Proof.
  intros Hd. unfold put_vehicle. apply uids_try_catch; [exact Hd|].
  unfold insert_standalone_parts, insert_service_parts. uids_tac.
Qed.

Lemma post_invoice_ids {rt : Runtime} body d :
  ids_unique d ->
  ids_unique (snd (post_invoice body d))
  /\ seqs_le d (snd (post_invoice body d)).
Proof.
  intros Hd. unfold post_invoice. apply uids_try_catch; [exact Hd|].
  unfold invoice_service_line, invoice_part_line. uids_tac.
Qed.

Lemma delete_worker_ids id d :
  ids_unique d ->
  ids_unique (snd (delete_worker id d))
  /\ seqs_le d (snd (delete_worker id d)).
Proof.
  intros Hd. unfold delete_worker. apply uids_try_catch; [exact Hd|].
  uids_tac.
Qed.

Lemma delete_vehicle_cascade_ids id d :
  ids_unique d ->
  ids_unique (snd (delete_vehicle_cascade id d))
  /\ seqs_le d (snd (delete_vehicle_cascade id d)).
Proof.
  intros Hd. unfold delete_vehicle_cascade.
  apply uids_try_catch; [exact Hd|]. uids_tac.
Qed.

Lemma delete_invoice_ids id d :
  ids_unique d ->
  ids_unique (snd (delete_invoice id d))
  /\ seqs_le d (snd (delete_invoice id d)).
Proof.
  intros Hd. unfold delete_invoice. apply uids_try_catch; [exact Hd|].
  uids_tac.
Qed.

(** Whatever the request, the server leaves the ids of the rows of every
    table with an id column pairwise distinct and below the next value of
    the sequence of the table, and no sequence goes back: an id is never
    given twice, also not after a rollback or the deletion of a row. *)
Theorem serve_keeps_ids_unique {rt : Runtime} (rq : request) (now : Z)
    (d : db) :
  ids_unique d ->
  ids_unique (snd (serve rq now d)) /\ seqs_le d (snd (serve rq now d)).
Proof.
  intros Hd. unfold serve.
  apply (dispatch_ind
           (fun r => ids_unique (snd r) /\ seqs_le d (snd r)));
    [exact (uids_same d Hd)|].
  intros r ps Hin _ _.
  unfold app in Hin. simpl in Hin.
  repeat (destruct Hin as [<-|Hin]); [..|destruct Hin];
    cbn [r_handler r_pattern r_method] in *;
    try (destruct ps as [|id' [|? ?]];
         [exact (uids_same d Hd)| |exact (uids_same d Hd)]);
    simpl.
  - unfold post_part. split_ifs; try exact (uids_same d Hd).
    apply (uids_statement d _ (grows_insert_part _ _ _ _ _) Hd).
  - unfold put_part.
    destruct (_ || _); [exact (uids_same d Hd)|].
    pose proof (uids_statement d _
                  (grows_update_part (field "name" (body rq))
                     (field "part_number" (body rq))
                     (field "purchasing_cost" (body rq))
                     (field "selling_cost" (body rq))
                     (or_else (field "quantity_in_stock" (body rq))
                              (JNum (Num 0))) id') Hd) as H.
    cbn in *. split_ifs; exact H.
  - unfold delete_part_handler.
    pose proof (uids_statement d _ (grows_delete_part id') Hd) as H.
    cbn in *. split_ifs; exact H.
  - unfold post_worker. split_ifs; try exact (uids_same d Hd).
    apply (uids_statement d _ (grows_insert_worker _ _ _ _) Hd).
  - apply delete_worker_ids, Hd.
  - unfold put_assign_worker.
    destruct (negb _); [exact (uids_same d Hd)|].
    pose proof (uids_statement d _
                  (grows_assign_worker_row
                     (sql_int (field "worker_id" (body rq))) id') Hd) as H.
    cbn in *. split_ifs; exact H.
  - apply post_vehicle_ids, Hd.
  - apply put_vehicle_ids, Hd.
  - unfold put_vehicle_exit.
    destruct (_ >? 0); [exact (uids_same d Hd)|].
    destruct (_ =? 0); [exact (uids_same d Hd)|].
    apply (uids_statement d _ (grows_set_exit_time id' now) Hd).
  - unfold with_ids.
    destruct ps as [|a [|b [|? ?]]]; try exact (uids_same d Hd).
    unfold put_vehicle_service.
    pose proof (uids_statement d _
                  (grows_update_vehicle_service
                     (field "status" (body rq))
                     (or_else (field "completed_time" (body rq)) JNull)
                     a b) Hd) as H.
    cbn in *. split_ifs; exact H.
  - unfold delete_vehicle_plain.
    pose proof (uids_statement d _ (grows_delete_vehicle_row id') Hd) as H.
    cbn in *. split_ifs; exact H.
  - apply post_invoice_ids, Hd.
  - rewrite get_invoice_pdf_same. exact (uids_same d Hd).
  - unfold post_worker_payment. split_ifs; try exact (uids_same d Hd);
      apply (uids_statement d _
               (grows_insert_worker_payment _ _ _ _ _ _) Hd).
  - apply delete_vehicle_cascade_ids, Hd.
  - apply delete_invoice_ids, Hd.
Qed.

Ltac ids_garage_tac :=
  unfold ids_unique, table_ok; simpl;
  repeat split;
  repeat (constructor; simpl; try lia;
          try (let H := fresh in intros H; intuition lia)).

Lemma serve_keeps_ids_unique_witness :
  ids_unique
    (snd (serve (rt := Examples.runtime)
            {| method := POST; path := [Seg "api"; Seg "invoices"];
               body := Examples.bad_invoice_body |} 0 Examples.garage)).
Proof.
  apply (serve_keeps_ids_unique (rt := Examples.runtime)
           {| method := POST; path := [Seg "api"; Seg "invoices"];
              body := Examples.bad_invoice_body |} 0 Examples.garage).
  ids_garage_tac.
Defined.

(* ------------------------------------------------------------------ *)
(** *** Requests that fail                                              *)
(* ------------------------------------------------------------------ *)

Lemma same_rows_refl (d : db) : same_rows d d.
Proof. destruct d. reflexivity. Qed.

Lemma aborts_commit_ret (r : response) :
  status r <> 400 -> status r <> 500 -> aborts_clean (COMMIT ;;; ret r)%tx.
Proof. intros H1 H2 c. simpl. split; assumption. Qed.

Lemma aborts_rollback_ret (r : response) :
  status r <> 400 -> status r <> 500 -> aborts_clean (ROLLBACK ;;; ret r)%tx.
Proof. intros H1 H2 c. simpl. split; assumption. Qed.

Lemma aborts_bind {A} (m : tx A) (k : A -> tx response) :
  keeps at_begin m -> (forall a, aborts_clean (k a)) ->
  aborts_clean (bind m k).
Proof.
  intros Hm Hk c. unfold bind. specialize (Hm c).
  destruct (m c) as [a c1|msg c1]; simpl in Hm.
  - specialize (Hk a c1). destruct (k a c1) as [r c2|msg c2].
    + exact Hk.
    + congruence.
  - exact Hm.
Qed.

(** A handler that opens its transaction first and rolls back in its
    [catch] block. *)
Lemma begin_clean (rest : tx response) (msg : string) (d : db) :
  aborts_clean rest ->
  failed (fst (try_catch (BEGIN ;;; rest)%tx (catch_rollback msg) d)) ->
  same_rows d (snd (try_catch (BEGIN ;;; rest)%tx (catch_rollback msg) d)).
Proof.
  intros H. unfold try_catch, bind, BEGIN, connect. cbn [current at_begin].
  specialize (H {| at_begin := d; current := d |}).
  destruct (rest _) as [r c|m c].
  - intros [F|F]; simpl in F; tauto.
  - intros _. cbn [at_begin] in H. simpl. rewrite H. reflexivity.
Qed.

Lemma validated_clean (invalid : bool) (bad : response) (rest : tx response)
    (msg : string) (d : db) :
  aborts_clean rest ->
  failed (fst (try_catch (if invalid then ret bad else BEGIN ;;; rest)%tx
                 (catch_rollback msg) d)) ->
  same_rows d (snd (try_catch (if invalid then ret bad else BEGIN ;;; rest)%tx
                      (catch_rollback msg) d)).
Proof.
  intros H. destruct invalid.
  - intros _. apply same_rows_refl.
  - apply begin_clean, H.
Qed.

Ltac keeps_begin_tac :=
  first [ apply service_loop_keeps_begin
        | apply part_loop_keeps_begin
        | apply insert_standalone_parts_keeps_begin
        | apply insert_service_parts_keeps_begin
        | solve [keeps_tac] ].

Ltac aborts_tac :=
  repeat first
    [ (apply aborts_commit_ret; discriminate)
    | (apply aborts_rollback_ret; discriminate)
    | match goal with
      | |- aborts_clean (bind COMMIT (fun _ => if ?b then _ else _)) =>
          destruct b
      | |- aborts_clean (match ?x with [] => _ | _ :: _ => _ end) =>
          destruct x
      end
    | (apply aborts_bind; [keeps_begin_tac | intros]) ].

Ltac quiet_tac d :=
  cbn; split_ifs; simpl;
  first [ (intros [F|F]; discriminate F) | (intros _; apply same_rows_refl) ].

(** A request that is answered 400 or 500 has changed no row of any
    table, whatever the route: the validations come before the first
    statement, and the handlers that run several statements roll them
    back when one of them fails.  Only the sequences can have moved. *)
Theorem failed_request_changes_no_row {rt : Runtime} (rq : request)
    (now : Z) (d : db) :
  failed (fst (serve rq now d)) -> same_rows d (snd (serve rq now d)).
Proof.
  unfold serve.
  apply (dispatch_ind (fun r => failed (fst r) -> same_rows d (snd r)));
    [intros _; apply same_rows_refl|].
  intros r ps Hin _ _.
  unfold app in Hin. simpl in Hin.
  repeat (destruct Hin as [<-|Hin]); [..|destruct Hin];
    cbn [r_handler r_pattern r_method] in *;
    try (destruct ps as [|id' [|? ?]];
         [intros _; apply same_rows_refl| |intros _; apply same_rows_refl]);
    cbn [with_id].
  - unfold post_part. quiet_tac d.
  - unfold put_part. quiet_tac d.
  - unfold delete_part_handler. quiet_tac d.
  - unfold post_worker. quiet_tac d.
  - unfold delete_worker. apply begin_clean. aborts_tac.
  - unfold put_assign_worker. quiet_tac d.
  - unfold post_vehicle. apply validated_clean. aborts_tac.
  - unfold put_vehicle. apply validated_clean. aborts_tac.
  - unfold put_vehicle_exit. quiet_tac d.
  - unfold with_ids.
    destruct ps as [|a [|b [|? ?]]]; try (intros _; apply same_rows_refl).
    unfold put_vehicle_service. quiet_tac d.
  - unfold delete_vehicle_plain. quiet_tac d.
  - unfold post_invoice. apply validated_clean. aborts_tac.
  - rewrite get_invoice_pdf_same. intros _. apply same_rows_refl.
  - unfold post_worker_payment. quiet_tac d.
  - unfold delete_vehicle_cascade. apply begin_clean. aborts_tac.
  - unfold delete_invoice. apply begin_clean. aborts_tac.
Qed.

Lemma failed_request_changes_no_row_witness :
  status (fst (serve (rt := Examples.runtime)
                 {| method := POST; path := [Seg "api"; Seg "invoices"];
                    body := Examples.bad_invoice_body |} 0
                 Examples.garage)) = 500
  /\ same_rows Examples.garage
       (snd (serve (rt := Examples.runtime)
               {| method := POST; path := [Seg "api"; Seg "invoices"];
                  body := Examples.bad_invoice_body |} 0 Examples.garage)).
Proof.
  split; [reflexivity|].
  apply (failed_request_changes_no_row (rt := Examples.runtime)
           {| method := POST; path := [Seg "api"; Seg "invoices"];
              body := Examples.bad_invoice_body |} 0 Examples.garage).
  right. reflexivity.
Defined.

(* ------------------------------------------------------------------ *)
(** *** Parts                                                           *)
(* ------------------------------------------------------------------ *)

Lemma db_ext (a b : db) :
  parts a = parts b -> workers a = workers b -> services a = services b ->
  vehicles a = vehicles b -> vehicle_services a = vehicle_services b ->
  vehicle_parts a = vehicle_parts b ->
  vehicle_service_parts a = vehicle_service_parts b ->
  invoices a = invoices b -> invoice_items a = invoice_items b ->
  worker_payments a = worker_payments b -> seqs a = seqs b -> a = b.
Proof. destruct a, b; simpl; intros; subst; reflexivity. Qed.

Lemma filter_fresh {R} (key : R -> Z) (rows : list R) (n : Z) (row : R) :
  Forall (fun r => key r < n) rows -> key row = n ->
  filter (fun r => negb (key r =? n)) (rows ++ [row]) = rows
  /\ filter (fun r => key r =? n) (rows ++ [row]) = [row].
Proof.
  intros H Hk. rewrite Forall_forall in H. rewrite !filter_app. simpl.
  rewrite Hk, Z.eqb_refl. simpl. split.
  - rewrite app_nil_r. apply filter_all. intros r Hr. specialize (H r Hr).
    apply negb_true_iff, Z.eqb_neq. lia.
  - rewrite filter_none; [reflexivity|]. intros r Hr. specialize (H r Hr).
    apply Z.eqb_neq. lia.
Qed.




(* ------------------------------------------------------------------ *)
(** *** Invoices keep what they recorded                                *)
(* ------------------------------------------------------------------ *)

Lemma invoice_reads_same {rt : Runtime} (id : Z) (d d' : db) :
  invoices d' = invoices d -> invoice_items d' = invoice_items d ->
  vehicles d' = vehicles d ->
  get_invoice id d' = get_invoice id d
  /\ fst (get_invoice_pdf id d') = fst (get_invoice_pdf id d)
  /\ get_invoices d' = get_invoices d.
Proof.
  intros Hi Hit Hv.
  unfold get_invoice, get_invoice_pdf, get_invoices, select_invoice_joined,
    select_invoice_with_vehicle, select_invoice_items.
  rewrite Hi, Hit, Hv. split; [reflexivity|]. split; [|reflexivity].
  destruct (firstn 1 _) as [|[r v] l]; reflexivity.
Qed.

(** What an invoice shows does not follow the parts table: after a part
    has been edited or deleted, or a new one created, every invoice, read
    as JSON or as a PDF, and the list of invoices are what they were.  The
    prices on an invoice are those copied into its items when it was
    created. *)
Theorem invoices_ignore_part_changes {rt : Runtime} (id part_id : Z)
    (body : jsval) (d : db) :
  let reads d' :=
    (get_invoice id d', fst (get_invoice_pdf id d'), get_invoices d') in
  reads (snd (put_part part_id body d)) = reads d
  /\ reads (snd (delete_part_handler part_id d)) = reads d
  /\ reads (snd (post_part body d)) = reads d.
Proof.
  intros reads.
  assert (H : forall d', invoices d' = invoices d ->
                         invoice_items d' = invoice_items d ->
                         vehicles d' = vehicles d -> reads d' = reads d).
  { intros d' Hi Hit Hv. unfold reads.
    destruct (invoice_reads_same id d d' Hi Hit Hv) as (-> & -> & ->).
    reflexivity. }
  split; [|split]; apply H.
  - unfold put_part. cbn. split_ifs; reflexivity.
  - unfold put_part. cbn. split_ifs; reflexivity.
  - apply put_part_vehicles.
  - unfold delete_part_handler. cbn. split_ifs; reflexivity.
  - unfold delete_part_handler. cbn. split_ifs; reflexivity.
  - apply delete_part_vehicles.
  - unfold post_part. split_ifs; reflexivity.
  - unfold post_part. split_ifs; reflexivity.
  - apply post_part_vehicles.
Qed.

Lemma filter_delete_other {R} (key : R -> Z) (rows : list R) (id other : Z) :
  filter (fun r => key r =? other)
         (filter (fun r => negb (key r =? id)) rows)
  = if other =? id then [] else filter (fun r => key r =? other) rows.
Proof.
  induction rows as [|i l IH]; simpl.
  - destruct (other =? id); reflexivity.
  - destruct (key i =? id) eqn:E1; simpl.
    + rewrite IH. destruct (other =? id) eqn:E2; [reflexivity|].
      apply Z.eqb_eq in E1. apply Z.eqb_neq in E2.
      destruct (key i =? other) eqn:E3; [|reflexivity].
      apply Z.eqb_eq in E3. lia.
    + rewrite IH. destruct (other =? id) eqn:E2.
      * apply Z.eqb_eq in E2. subst other. rewrite E1. reflexivity.
      * reflexivity.
Qed.

(** After DELETE /api/invoices/:id the invoice is gone for every reader:
    GET /api/invoices/:id and the PDF route answer 404, no item of the
    invoice is left and the list of invoices does not show it; the other
    invoices and their items are as they were. *)
Theorem deleted_invoice_is_gone {rt : Runtime} (id : Z) (d : db) :
  let d' := snd (delete_invoice id d) in
  get_invoice id d' = Refused 404 "Invoice not found"
  /\ fst (get_invoice_pdf id d') = json_error 404 "Invoice not found"
  /\ items_of id d' = []
  /\ (forall i v, In (i, v) (get_invoices d') -> i_id i <> id)
  /\ (forall other,
        other <> id ->
        get_invoice other d' = get_invoice other d
        /\ fst (get_invoice_pdf other d') = fst (get_invoice_pdf other d)).
Proof.
  intros d'. subst d'. rewrite delete_invoice_unfold. cbn [snd].
  set (d' := set_invoices _ _).
  assert (Hrows : forall other,
            filter (fun i => i_id i =? other) (invoices d')
            = if other =? id then []
              else filter (fun i => i_id i =? other) (invoices d)).
  { intros other. apply (filter_delete_other i_id). }
  assert (Hitems : forall other,
            filter (fun it => ii_invoice_id it =? other) (invoice_items d')
            = if other =? id then []
              else filter (fun it => ii_invoice_id it =? other)
                          (invoice_items d)).
  { intros other. apply (filter_delete_other ii_invoice_id). }
  assert (Hv : vehicles d' = vehicles d) by reflexivity.
  split; [|split; [|split; [|split]]].
  - unfold get_invoice, select_invoice_joined. rewrite Hrows, Z.eqb_refl.
    reflexivity.
  - unfold get_invoice_pdf, select_invoice_with_vehicle.
    rewrite Hrows, Z.eqb_refl. reflexivity.
  - unfold items_of. rewrite Hitems, Z.eqb_refl. reflexivity.
  - intros i v Hin. unfold get_invoices in Hin.
    apply (Permutation_in _ (order_by_perm _ _)) in Hin.
    apply in_joined in Hin. destruct Hin as (Hi & _ & _).
    unfold d' in Hi. cbn [invoices set_invoices] in Hi.
    apply filter_In in Hi. destruct Hi as [_ Hi].
    apply negb_true_iff, Z.eqb_neq in Hi. exact Hi.
  - intros other Hne. apply Z.eqb_neq in Hne.
    unfold get_invoice, get_invoice_pdf, select_invoice_joined,
      select_invoice_with_vehicle, select_invoice_items.
    rewrite Hrows, Hitems, Hne, Hv. split; [reflexivity|].
    destruct (firstn 1 _) as [|[r v] l]; reflexivity.
Qed.

Lemma deleted_invoice_is_gone_witness :
  get_invoice 1 (snd (delete_invoice 1 Examples.garage_invoiced))
  = Refused 404 "Invoice not found"
  /\ get_invoice 2 (snd (delete_invoice 1 Examples.garage_invoiced))
     = get_invoice 2 Examples.garage_invoiced.
Proof.
  destruct (deleted_invoice_is_gone (rt := Examples.runtime) 1
              Examples.garage_invoiced) as (H1 & _ & _ & _ & H5).
  split; [exact H1|].
  refine (proj1 (H5 2 _)). discriminate.
Defined.

(* ------------------------------------------------------------------ *)
(** *** Creating an invoice and deleting it again                       *)
(* ------------------------------------------------------------------ *)

Lemma post_invoice_created {rt : Runtime} (body : jsval) (d : db)
    (resp : response) (d1 : db) :
  post_invoice body d = (resp, d1) ->
  status resp = 201 ->
  exists new subtotal tax total,
    sent resp = InvoiceCreated (seq_invoices (seqs d))
    /\ Forall (fun it => ii_invoice_id it = seq_invoices (seqs d)) new
    /\ d1 = snd (update_invoice_totals subtotal tax total
                   (seq_invoices (seqs d))
                   (with_items
                      (snd (insert_invoice
                              (sql_int (field "vehicle_id" body))
                              (field "days_in_garage" body) d))
                      new)).
Proof.
  intros Hrun Hst.
  destruct (truthy (field "vehicle_id" body)) eqn:Hv;
    [destruct (truthy (field "days_in_garage" body)) eqn:Hd|];
    try (unfold post_invoice, try_catch in Hrun; rewrite Hv, ?Hd in Hrun;
         simpl in Hrun; inversion Hrun; subst; discriminate Hst).
  destruct (int_accepted (field "vehicle_id" body)) eqn:Ha.
  2:{ rewrite (post_invoice_refused body d Hv Hd Ha) in Hrun.
      inversion Hrun; subst; discriminate Hst. }
  rewrite (post_invoice_run body d Hv Hd Ha) in Hrun.
  set (id := seq_invoices (seqs d)) in *.
  destruct (for_array_acc (field "services" body) _ _ _)
    as [t1 c1|m1 c1] eqn:E1;
    [|inversion Hrun; subst; discriminate Hst].
  destruct (for_array_acc (field "parts" body) _ _ _)
    as [t2 c2|m2 c2] eqn:E2;
    [|inversion Hrun; subst; discriminate Hst].
  apply (array_loop_done _ id (service_line_done id)) in E1.
  destruct E1 as (new1 & -> & Hall1 & ->).
  apply (array_loop_done _ id (part_line_done id)) in E2.
  destruct E2 as (new2 & -> & Hall2 & ->).
  cbn [current at_begin] in Hrun. rewrite with_items_app in Hrun.
  inversion Hrun as [[Hr Hd1]].
  exists (new1 ++ new2). do 3 eexists.
  split; [reflexivity|]. split; [|reflexivity].
  apply Forall_app. split; assumption.
Qed.

(** An invoice that POST /api/invoices has created can be deleted again
    with the id that the answer carries: DELETE /api/invoices/:id is
    answered 204 and the tables are those from before the invoice was
    created, the placeholder row, the totals and every item are gone and
    no older item or invoice is touched. *)
Theorem post_invoice_then_delete
    {rt : Runtime} (body : jsval) (d : db) (resp : response) (d1 : db) :
  invoice_ids_drawn d ->
  post_invoice body d = (resp, d1) ->
  status resp = 201 ->
  exists id,
    sent resp = InvoiceCreated id
    /\ status (fst (delete_invoice id d1)) = 204
    /\ same_rows d (snd (delete_invoice id d1)).
Proof.
  intros [Hinv Hitems] Hrun Hst.
  destruct (post_invoice_created body d resp d1 Hrun Hst)
    as (new & sub & tax & tot & Hsent & Hnew & ->).
  set (id := seq_invoices (seqs d)) in *.
  exists id. split; [exact Hsent|].
  rewrite delete_invoice_unfold.
  cbn [fst snd update_invoice_totals insert_invoice with_items invoices
       invoice_items set_invoices set_invoice_items set_seqs i_id].
  fold id.
  assert (Hold : map (invoice_set_totals sub tax tot id) (invoices d)
                 = invoices d).
  { apply map_unchanged. intros i Hi. unfold invoice_set_totals.
    specialize (Hinv i Hi).
    destruct (i_id i =? id) eqn:E;
      [apply Z.eqb_eq in E; unfold id in E; lia | reflexivity]. }
  rewrite map_app, Hold. simpl map.
  match goal with
  | |- context [invoices d ++ [?r]] =>
      set (inv := r);
      destruct (filter_fresh i_id (invoices d) id inv) as [Hkeep Hone];
        [rewrite Forall_forall; exact Hinv
        |unfold inv; rewrite invoice_set_totals_id; reflexivity |]
  end.
  rewrite Hone, Hkeep. split; [reflexivity|].
  assert (Hit : filter (fun it => negb (ii_invoice_id it =? id))
                       (invoice_items d ++ new) = invoice_items d).
  { rewrite filter_app, (filter_none _ new).
    - rewrite app_nil_r. apply filter_all. intros it Hin.
      specialize (Hitems it Hin). apply negb_true_iff, Z.eqb_neq.
      unfold id. lia.
    - intros it Hin. rewrite Forall_forall in Hnew.
      rewrite (Hnew it Hin). fold id. rewrite Z.eqb_refl. reflexivity. }
  rewrite Hit. unfold same_rows. apply db_ext; reflexivity.
Qed.

Lemma post_invoice_then_delete_witness :
  invoice_ids_drawn Examples.garage
  /\ same_rows Examples.garage
       (snd (delete_invoice 1
               (snd (post_invoice (rt := Examples.runtime)
                       Examples.invoice_body Examples.garage)))).
Proof.
  assert (H : invoice_ids_drawn Examples.garage).
  { split; intros x Hx; destruct Hx. }
  split; [exact H|].
  destruct (post_invoice_then_delete (rt := Examples.runtime)
              Examples.invoice_body Examples.garage _ _ H eq_refl eq_refl)
    as (id & Hsent & _ & Hsame).
  simpl in Hsent. inversion Hsent; subst id. exact Hsame.
Defined.

(* ------------------------------------------------------------------ *)
(** *** Registering a vehicle, completing its services                  *)
(* ------------------------------------------------------------------ *)

Lemma set_vehicle_services_same (d : db) :
  set_vehicle_services d (vehicle_services d) = d.
Proof. destruct d; reflexivity. Qed.

Lemma vehicle_services_loop {rt : Runtime} (id : Z) (xs : jsval) (c : conn) :
  match for_array xs
          (fun service_id =>
             service_id <- bind_int service_id ;;
             query (insert_vehicle_service id service_id))%tx c with
  | Done _ c' =>
      c' = {| at_begin := at_begin c;
              current :=
                set_vehicle_services (current c)
                  (vehicle_services (current c) ++ pending_rows id xs) |}
  | Thrown _ _ => True
  end.
Proof.
  unfold for_array, pending_rows. destruct (as_array xs) as [l|].
  - apply (for_of_inserts _
             (fun service_id =>
                {| vs_vehicle_id := id; vs_service_id := sql_int service_id;
                   vs_status := JStr "pending";
                   vs_completed_time := JNull |})
             set_vehicle_services vehicle_services).
    + intros x c0. unfold bind, bind_int, ret.
      destruct (int_accepted x); [reflexivity | exact I].
    + reflexivity.
    + reflexivity.
    + apply set_vehicle_services_same.
  - unfold ret.
    rewrite app_nil_r, set_vehicle_services_same, conn_eta. reflexivity.
Qed.

Lemma post_vehicle_run {rt : Runtime} (body : jsval) (now : Z) (d : db) :
  vehicle_fields_present body = true ->
  let row := fst (insert_vehicle (field "plate" body) (field "make" body)
                    (field "model_name" body) (field "year" body)
                    (field "vin" body) (field "owner" body)
                    (field "contact_number" body) now d) in
  let d1 := snd (insert_vehicle (field "plate" body) (field "make" body)
                   (field "model_name" body) (field "year" body)
                   (field "vin" body) (field "owner" body)
                   (field "contact_number" body) now d) in
  post_vehicle body now d =
    match for_array (field "service_ids" body)
            (fun service_id =>
               service_id <- bind_int service_id ;;
               query (insert_vehicle_service (v_id row) service_id))%tx
            {| at_begin := d; current := d1 |} with
    | Thrown _ c =>
        (json_error 500 "Server error", rollback (at_begin c) (current c))
    | Done _ c0 =>
        match insert_standalone_parts (v_id row)
                (field "standalone_parts" body) c0 with
        | Thrown _ c =>
            (json_error 500 "Server error",
             rollback (at_begin c) (current c))
        | Done _ c1 =>
            match insert_service_parts (v_id row)
                    (field "service_parts" body) c1 with
            | Thrown _ c =>
                (json_error 500 "Server error",
                 rollback (at_begin c) (current c))
            | Done _ c2 =>
                ({| status := 201; sent := VehicleRow row |}, current c2)
            end
        end
    end.
Proof.
  intros Hv row d1. unfold vehicle_fields_present in Hv.
  apply andb_true_iff in Hv. destruct Hv as [Hv H3].
  apply andb_true_iff in Hv. destruct Hv as [H1 H2].
  unfold post_vehicle, try_catch. rewrite H1, H2, H3. cbn [negb orb].
  unfold bind at 1. cbn [BEGIN connect current at_begin].
  unfold bind at 1. unfold query at 1.
  cbn [current at_begin insert_vehicle].
  unfold bind at 1.
  subst row d1. cbn [insert_vehicle fst snd v_id].
  destruct (for_array _ _ _) as [u0 c0|m0 c0]; [|reflexivity].
  unfold bind at 1.
  destruct (insert_standalone_parts _ _ _) as [u1 c1|m1 c1]; [|reflexivity].
  unfold bind at 1.
  destruct (insert_service_parts _ _ _) as [u2 c2|m2 c2]; reflexivity.
Qed.

(** POST /api/vehicles.  A 201 answer carries the new row: its id is the
    next value of the sequence, its entry_time is the time of the store and
    its exit_time is NULL; the vehicles table has that one row more, and
    the three join tables have exactly one row more per element of
    service_ids (each 'pending'), of standalone_parts and of service_parts.
    A vehicle registered with a service cannot leave straight away: its
    exit is answered 400 and changes nothing. *)
Theorem post_vehicle_registers {rt : Runtime} (body : jsval) (now : Z)
    (d : db) :
  status (fst (post_vehicle body now d)) = 201 ->
  exists row,
    sent (fst (post_vehicle body now d)) = VehicleRow row
    /\ v_id row = seq_vehicles (seqs d)
    /\ v_entry_time row = Some now
    /\ v_exit_time row = None
    /\ vehicles (snd (post_vehicle body now d)) = vehicles d ++ [row]
    /\ vehicle_services (snd (post_vehicle body now d))
       = vehicle_services d
         ++ pending_rows (v_id row) (field "service_ids" body)
    /\ vehicle_parts (snd (post_vehicle body now d))
       = vehicle_parts d
         ++ standalone_rows (v_id row) (field "standalone_parts" body)
    /\ vehicle_service_parts (snd (post_vehicle body now d))
       = vehicle_service_parts d
         ++ service_part_rows (v_id row) (field "service_parts" body)
    /\ (pending_rows (v_id row) (field "service_ids" body) <> [] ->
        forall t,
          put_vehicle_exit (v_id row) t (snd (post_vehicle body now d))
          = (json_error 400
               "All services must be completed before exiting.",
             snd (post_vehicle body now d))).
Proof.
  destruct (vehicle_fields_present body) eqn:Hv.
  2:{ intros Hst. exfalso.
      unfold post_vehicle, try_catch in Hst.
      unfold vehicle_fields_present in Hv.
      destruct (truthy (field "plate" body));
        destruct (truthy (field "owner" body));
        destruct (truthy (field "contact_number" body));
        try discriminate Hv; simpl in Hst; discriminate Hst. }
  rewrite (post_vehicle_run body now d Hv).
  cbn [insert_vehicle fst snd v_id].
  set (id := seq_vehicles (seqs d)).
  match goal with
  | |- context [for_array ?xs ?f ?c] =>
      pose proof (vehicle_services_loop id xs c) as R0;
      destruct (for_array xs f c) as [u0 c0|m0 c0]
  end.
  2:{ discriminate. }
  match goal with
  | |- context [insert_standalone_parts id ?xs ?c] =>
      pose proof (insert_standalone_parts_run id xs c) as R1;
      destruct (insert_standalone_parts id xs c) as [u1 c1|m1 c1]
  end.
  2:{ discriminate. }
  match goal with
  | |- context [insert_service_parts id ?xs ?c] =>
      pose proof (insert_service_parts_run id xs c) as R2;
      destruct (insert_service_parts id xs c) as [u2 c2|m2 c2]
  end.
  2:{ discriminate. }
  intros _. subst c2. subst c1. subst c0.
  cbn [fst snd sent current at_begin vehicles vehicle_services vehicle_parts
       vehicle_service_parts set_vehicle_services set_vehicle_parts
       set_vehicle_service_parts set_seqs set_vehicles].
  eexists. split; [reflexivity|]. cbn [v_id v_entry_time v_exit_time].
  do 7 (split; [reflexivity|]).
  intros Hne t. unfold put_vehicle_exit.
  match goal with
  | |- context [count_open_services id ?d'] =>
      assert (Hopen : (count_open_services id d' >? 0) = true)
  end.
  { apply count_open_services_pos. unfold has_open_service.
    cbn [vehicle_services set_vehicle_service_parts set_vehicle_parts
         set_vehicle_services].
    destruct (pending_rows id (field "service_ids" body)) as [|r l] eqn:E;
      [contradiction|].
    exists r. split; [apply in_or_app; right; left; reflexivity|].
    assert (Hr : In r (pending_rows id (field "service_ids" body)))
      by (rewrite E; left; reflexivity).
    unfold pending_rows in Hr. destruct (as_array _); [|destruct Hr].
    apply in_map_iff in Hr. destruct Hr as (x & <- & _).
    cbn [vs_vehicle_id vs_status].
    split; [reflexivity|]. repeat split; discriminate. }
  rewrite Hopen. reflexivity.
Qed.

Lemma post_vehicle_registers_witness :
  status (fst (post_vehicle (rt := Examples.runtime)
                 (JObj [("plate", JStr "RAC 456 B"); ("owner", JStr "Marie");
                        ("contact_number", JStr "0788111111");
                        ("service_ids", JArr [Examples.num 2])])
                 3000 Examples.garage)) = 201
  /\ status (fst (put_vehicle_exit 2 4000
                    (snd (post_vehicle (rt := Examples.runtime)
                            (JObj [("plate", JStr "RAC 456 B");
                                   ("owner", JStr "Marie");
                                   ("contact_number", JStr "0788111111");
                                   ("service_ids", JArr [Examples.num 2])])
                            3000 Examples.garage)))) = 400.
Proof.
  split; [reflexivity|].
  destruct (post_vehicle_registers (rt := Examples.runtime)
              (JObj [("plate", JStr "RAC 456 B"); ("owner", JStr "Marie");
                     ("contact_number", JStr "0788111111");
                     ("service_ids", JArr [Examples.num 2])])
              3000 Examples.garage eq_refl)
    as (row & Hsent & _ & _ & _ & _ & _ & _ & _ & Hexit).
  simpl in Hsent. inversion Hsent; subst row.
  exact (f_equal (fun r => status (fst r))
           (Hexit ltac:(discriminate) 4000)).
Defined.

Lemma completed_rows (status_ time : jsval) (v s : Z)
    (rows : list vehicle_service) :
  not_completed status_ = false ->
  (forall r, In r rows -> vs_vehicle_id r = v ->
             not_completed (vs_status r) = true ->
             vs_service_id r = Some s) ->
  filter (fun r => (vs_vehicle_id r =? v) && not_completed (vs_status r))
         (map (vehicle_service_set status_ time v s) rows) = [].
Proof.
  intros Hdone Honly. apply filter_nil_iff. intros r Hr.
  apply in_map_iff in Hr. destruct Hr as (r0 & <- & Hr0).
  unfold vehicle_service_set.
  destruct ((vs_vehicle_id r0 =? v) && id_eqb (vs_service_id r0) s) eqn:E.
  - cbn [vs_vehicle_id vs_status]. rewrite Hdone. apply andb_false_r.
  - destruct (vs_vehicle_id r0 =? v) eqn:Ev; [|reflexivity].
    destruct (not_completed (vs_status r0)) eqn:Eo; [|reflexivity].
    apply Z.eqb_eq in Ev. rewrite (Honly r0 Hr0 Ev Eo) in E.
    simpl in E. rewrite Z.eqb_refl in E. discriminate E.
Qed.

(** The way out of the garage.  When the only services of a vehicle that
    are still open are rows of one service, setting that service to
    'completed' with PUT /api/vehicles/:vehicleId/services/:serviceId
    leaves the vehicle no open service; if the vehicle has an invoice, the
    exit request that follows is answered 200 and stamps the exit_time of
    the vehicle row.  The status update changes neither the invoices nor
    the vehicles. *)
Theorem completing_last_service_allows_exit
    (v s now : Z) (body : jsval) (d : db) :
  field "status" body = JStr "completed" ->
  (forall r, In r (vehicle_services d) -> vs_vehicle_id r = v ->
             not_completed (vs_status r) = true ->
             vs_service_id r = Some s) ->
  has_invoice v d ->
  let d1 := snd (put_vehicle_service v s body d) in
  count_open_services v d1 = 0
  /\ invoices d1 = invoices d
  /\ vehicles d1 = vehicles d
  /\ status (fst (put_vehicle_exit v now d1)) = 200
  /\ (vehicle_exists v d ->
      exit_time_of v (snd (put_vehicle_exit v now d1)) = Some (Some now)).
Proof.
  intros Hst Honly Hinv d1.
  assert (Hd1 : d1 = set_vehicle_services d
                  (map (vehicle_service_set (JStr "completed")
                          (or_else (field "completed_time" body) JNull) v s)
                       (vehicle_services d))).
  { unfold d1, put_vehicle_service. rewrite Hst.
    cbn [update_vehicle_service]. destruct (Nat.eqb _ 0); reflexivity. }
  assert (Hopen : count_open_services v d1 = 0).
  { rewrite Hd1. unfold count_open_services.
    cbn [vehicle_services set_vehicle_services].
    rewrite completed_rows; [reflexivity|reflexivity|exact Honly]. }
  assert (Hi : invoices d1 = invoices d) by (rewrite Hd1; reflexivity).
  assert (Hv : vehicles d1 = vehicles d) by (rewrite Hd1; reflexivity).
  split; [exact Hopen|]. split; [exact Hi|]. split; [exact Hv|].
  unfold put_vehicle_exit. rewrite Hopen. cbn [Z.gtb Z.compare].
  destruct (count_invoices v d1 =? 0) eqn:E.
  { exfalso. apply count_invoices_zero in E. apply E.
    destruct Hinv as (i & Hin & Hid). exists i. rewrite Hi.
    split; assumption. }
  cbn [set_exit_time fst snd status]. split; [reflexivity|].
  intros (v0 & Hv0 & Hid).
  destruct (exit_time_of v d1) as [e|] eqn:Ee.
  - apply (exit_time_of_set_exit v now d1 _ e); [reflexivity | exact Ee].
  - exfalso. unfold exit_time_of in Ee. rewrite Hv in Ee.
    destruct (filter (fun x => v_id x =? v) (vehicles d)) as [|x l] eqn:F;
      [|discriminate].
    rewrite filter_nil_iff in F. specialize (F v0 Hv0). simpl in F.
    apply Z.eqb_neq in F. contradiction.
Qed.

Lemma completing_last_service_allows_exit_witness :
  status (fst (put_vehicle_exit 1 9000 Examples.garage_pending)) = 400
  /\ status (fst (put_vehicle_exit 1 9000
                    (snd (put_vehicle_service 1 1
                            (JObj [("status", JStr "completed")])
                            Examples.garage_pending)))) = 200
  /\ exit_time_of 1
       (snd (put_vehicle_exit 1 9000
               (snd (put_vehicle_service 1 1
                       (JObj [("status", JStr "completed")])
                       Examples.garage_pending)))) = Some (Some 9000).
Proof.
  split; [reflexivity|].
  destruct (completing_last_service_allows_exit 1 1 9000
              (JObj [("status", JStr "completed")]) Examples.garage_pending)
    as (_ & _ & _ & H200 & Hexit).
  - reflexivity.
  - intros r [<-|[]] _ _. reflexivity.
  - eexists. split; [left; reflexivity | reflexivity].
  - split; [exact H200|]. apply Hexit.
    exists Examples.car. split; [left; reflexivity | reflexivity].
Defined.

(* ------------------------------------------------------------------ *)
(** *** Runs of the lemmas on the sample garage                         *)
(* ------------------------------------------------------------------ *)

Lemma delete_vehicle_cascade_no_orphans_witness :
  vehicle_exists 1 Examples.garage_invoiced
  /\ exists d',
       delete_vehicle_cascade 1 Examples.garage_invoiced
       = ({| status := 204; sent := Empty |}, d')
       /\ invoices_of 1 d' = [].
Proof.
  assert (Hex : vehicle_exists 1 Examples.garage_invoiced).
  { exists Examples.car. split; [left; reflexivity | reflexivity]. }
  split; [exact Hex|].
  destruct (delete_vehicle_cascade_no_orphans 1 Examples.garage_invoiced Hex)
    as (d' & Hrun & _ & Hnone & _).
  exists d'. split; [exact Hrun | exact Hnone].
Defined.

Lemma invoice_pdf_rounds_stored_tax_witness :
  exists inv doc,
    invoice_rows 1 Examples.garage_odd_invoiced = [inv]
    /\ get_invoice_pdf (rt := Examples.runtime) 1 Examples.garage_odd_invoiced
       = ({| status := 200; sent := InvoicePdf doc |},
          Examples.garage_odd_invoiced)
    /\ pdf_tax doc =n= Math_round (i_tax inv)
    /\ pdf_total doc =n= add (i_subtotal inv) (Math_round (i_tax inv)).
Proof.
  eexists.
  edestruct (invoice_pdf_rounds_stored_tax (rt := Examples.runtime) 1
               Examples.garage_odd_invoiced)
    as (doc & Hpdf & Htax & Htot & _);
    [reflexivity | | | ].
  3:{ exists doc. split; [reflexivity|]. split; [exact Hpdf|].
      split; [exact Htax | exact Htot]. }
  - reflexivity.
  - reflexivity.
Defined.

Lemma serve_keeps_ids_drawn_witness :
  invoice_ids_drawn
    (snd (serve (rt := Examples.runtime)
            {| method := POST; path := [Seg "api"; Seg "invoices"];
               body := Examples.invoice_body |} 0 Examples.garage)).
Proof.
  apply (serve_keeps_ids_drawn (rt := Examples.runtime)).
  split; intros x Hx; destruct Hx.
Defined.
